(** * lustre_exporter: the procfs metric source ([sources/procfs.go])

    A shallow embedding of the harvesting engine of the Lustre exporter:
    the registry ([NewLustreSource] and the three
    [generate...MetricTemplates]), path resolution ([Update]), value
    parsing ([parseFile], [parseStatsFile], [parseReadWriteBytes]) and
    emission ([constMetric]).

    Conventions of the embedding.
    - A Go [string] is a sequence of bytes: [String.string], whose
      characters are the bytes.
    - A [uint64] is an [N] below [2^64]; the one place where the source
      relies on wrap-around ([strconv.ParseUint]) writes it out.
    - A Go [map] is a [gmap].  Go leaves the iteration order of [range]
      over a map unspecified, so every statement below about what a loop
      over a map emits is up to permutation.  A nil map ranges like the
      empty map, and the program never compares a map with nil, so nil is
      [∅].
    - A call returns [Ok v] (the Go error is nil), [Err e] (a returned
      error) or [Crash p] (a run-time panic, which is not a returned
      error: it unwinds the caller).
    - The file system is read through two oracles, [Glob] and [ReadFile];
      the channel the scrape writes to is the list of the metrics sent so
      far.  Where a statement is about what [filepath.Glob] itself does,
      the oracle is [Filepath.Glob], the model of Go's function over the
      calls of package [os] it makes. *)

From Stdlib Require Import ZArith NArith Ascii String List Lia.
From Stdlib Require Import Floats.SpecFloat.
From stdpp Require Import gmap strings list sorting.

Open Scope string_scope.
Open Scope list_scope.
Open Scope nat_scope.

(** ** Errors, panics and results *)

Inductive NumErrKind := ErrSyntax | ErrRange.

(** The error values that can flow through the program.  [NumError] is
    [*strconv.NumError]; [PathError] and [ErrBadPattern] come from the
    file-system calls; [Errorf] is [fmt.Errorf]; [RegexpError] is the
    [*syntax.Error] of [regexp.Compile]. *)
Inductive Error :=
| NumError (func num : string) (kind : NumErrKind)
| PathError (op path reason : string)
| ErrBadPattern
| Errorf (msg : string)
| RegexpError (code expr : string).

(** Run-time panics: [a[i]] with [i] outside [0 .. len a - 1]. *)
Inductive Panic :=
| IndexOutOfRange (index len : Z).

Inductive result (A : Type) :=
| Ok (a : A)
| Err (e : Error)
| Crash (p : Panic).
Arguments Ok {A} a.
Arguments Err {A} e.
Arguments Crash {A} p.

Definition result_bind {A B} (r : result A) (k : A → result B) : result B :=
  match r with
  | Ok a => k a
  | Err e => Err e
  | Crash p => Crash p
  end.

(** A library call that returns [(v, err)]. *)
Definition of_sum {A} (r : Error + A) : result A :=
  match r with
  | inl e => Err e
  | inr a => Ok a
  end.

Declare Scope result_scope.
Delimit Scope result_scope with result.
Notation "x ← r ; k" := (result_bind r (λ x, k))
  (at level 20, r at level 100, k at level 200, only parsing) : result_scope.

(** [a[i]] on a slice, with Go's bounds check. *)
Definition at_index {A} (a : list A) (i : Z) : result A :=
  if (i <? 0)%Z then Crash (IndexOutOfRange i (Z.of_nat (length a)))
  else match a !! Z.to_nat i with
       | Some x => Ok x
       | None => Crash (IndexOutOfRange i (Z.of_nat (length a)))
       end.

(** ** Bytes *)

Definition byte_of (c : ascii) : N := N_of_ascii c.

Definition newline : ascii := "010"%char.

Definition is_digit (c : ascii) : bool :=
  (48 <=? byte_of c)%N && (byte_of c <=? 57)%N.

(** ** [strings.Split(s, sep)] for a separator of one byte

    The slices of [s] between the occurrences of [sep]; there is always
    at least one, the only one being [s] itself when [sep] does not
    occur. *)
Fixpoint strings_Split (s : string) (sep : ascii) : list string :=
  match s with
  | EmptyString => [""]
  | String c s' =>
      if Ascii.eqb c sep then "" :: strings_Split s' sep
      else match strings_Split s' sep with
           | h :: t => String c h :: t
           | [] => [String c ""]
           end
  end.

(** ** [strings.TrimSpace]

    Removes the leading and the trailing white space, as Unicode defines
    it ([unicode.IsSpace]), of a UTF-8 string.  [space_runes] lists the
    encodings of the white-space code points: U+0009..U+000D, U+0020,
    U+0085, U+00A0, U+1680, U+2000..U+200A, U+2028, U+2029, U+202F,
    U+205F and U+3000. *)
Definition bytes (l : list N) : string :=
  string_of_list_ascii (map ascii_of_N l).

Definition space_runes : list string :=
  map bytes
    (app [ [9]; [10]; [11]; [12]; [13]; [32]; [194; 133]; [194; 160];
           [225; 154; 128] ]
    (app (map (λ b, [226; 128; b])
              [128; 129; 130; 131; 132; 133; 134; 135; 136; 137; 138])
         [ [226; 128; 168]; [226; 128; 169]; [226; 128; 175];
           [226; 129; 159]; [227; 128; 128] ]))%N.

(** The rest of [s] after the prefix [p], if [p] is a prefix of [s]. *)
Fixpoint strip_prefix (p s : string) : option string :=
  match p, s with
  | EmptyString, _ => Some s
  | String a p', String b s' => if Ascii.eqb a b then strip_prefix p' s' else None
  | String _ _, EmptyString => None
  end.

(** The rest of [s] after the first space rune it starts with. *)
Fixpoint strip_space_rune (runes : list string) (s : string) : option string :=
  match runes with
  | [] => None
  | r :: runes' =>
      match strip_prefix r s with
      | Some s' => Some s'
      | None => strip_space_rune runes' s
      end
  end.

(** At most [fuel] leading space runes are removed; a rune has at least
    one byte, so [String.length s] is enough fuel. *)
Fixpoint trim_left (runes : list string) (fuel : nat) (s : string) : string :=
  match fuel with
  | O => s
  | S fuel' =>
      match strip_space_rune runes s with
      | Some s' => trim_left runes fuel' s'
      | None => s
      end
  end.

Definition string_rev (s : string) : string :=
  string_of_list_ascii (rev (list_ascii_of_string s)).

Definition strings_TrimSpace (s : string) : string :=
  let s1 := trim_left space_runes (String.length s) s in
  string_rev (trim_left (map string_rev space_runes) (String.length s1) (string_rev s1)).

(** ** [strconv.ParseUint(s, 10, 64)] *)

Definition maxUint64 : N := 18446744073709551615.

(** The smallest number whose product by the base overflows. *)
Definition cutoff : N := maxUint64 / 10 + 1.

(** The loop over the bytes of [s]: [n] is the value read so far and
    [s0] the whole argument, kept for the error value. *)
Fixpoint parseUint_loop (s0 : string) (n : N) (s : string) : Error + N :=
  match s with
  | EmptyString => inr n
  | String c s' =>
      if is_digit c then
        let d := (byte_of c - 48)%N in
        if (cutoff <=? n)%N then inl (NumError "ParseUint" s0 ErrRange)
        else
          let n := (n * 10)%N in
          let n1 := ((n + d) mod 2 ^ 64)%N in
          if (n1 <? n)%N || (maxUint64 <? n1)%N
          then inl (NumError "ParseUint" s0 ErrRange)
          else parseUint_loop s0 n1 s'
      else inl (NumError "ParseUint" s0 ErrSyntax)
  end.

Definition strconv_ParseUint (s : string) : Error + N :=
  match s with
  | EmptyString => inl (NumError "ParseUint" s ErrSyntax)
  | _ => parseUint_loop s 0 s
  end.

(** ** [filepath.Join] (Unix)

    [filepath.Join] drops the leading empty elements, joins the others
    with a slash and cleans the result ([filepath.Clean]): runs of
    slashes become one slash, every [.] element goes, every inner [..]
    element goes with the element before it, [..] elements at the start
    of a rooted path go, and the empty result is [.]. *)
Fixpoint strings_Join (elems : list string) (sep : string) : string :=
  match elems with
  | [] => ""
  | [e] => e
  | e :: rest => e +:+ sep +:+ strings_Join rest sep
  end.

(** One element of the path against the stack of the elements kept so
    far, the last one first. *)
Definition clean_step (rooted : bool) (stack : list string) (elem : string)
  : list string :=
  if String.eqb elem "" || String.eqb elem "." then stack
  else if String.eqb elem ".." then
    match stack with
    | top :: below => if String.eqb top ".." then elem :: stack else below
    | [] => if rooted then stack else [elem]
    end
  else elem :: stack.

Definition filepath_Clean (path : string) : string :=
  let rooted := match path with String c _ => Ascii.eqb c "/" | _ => false end in
  let kept := rev (fold_left (clean_step rooted) (strings_Split path "/") []) in
  let out := (if rooted then "/" else "") +:+ strings_Join kept "/" in
  if String.eqb out "" then "." else out.

Fixpoint filepath_Join (elem : list string) : string :=
  match elem with
  | [] => ""
  | e :: rest =>
      if String.eqb e "" then filepath_Join rest
      else filepath_Clean (strings_Join elem "/")
  end.

(** ** [sort.Strings]

    Go compares strings byte by byte; [sort.Strings] returns the names
    in increasing order.  The order is total and two names that compare
    equal are the same string, so the result does not depend on the
    sorting algorithm; the model sorts by merging. *)
Definition string_le (s1 s2 : string) : Prop := String.leb s1 s2 = true.

#[global] Instance string_le_dec : RelDecision string_le.
Proof. intros s1 s2. unfold string_le. apply _. Defined.

Definition sort_Strings (names : list string) : list string :=
  merge_sort string_le names.

(** ** [filepath.Glob] and [filepath.Match] (Unix)

    [Glob] reads the directories through four calls of package [os]:
    [os.Lstat] and [os.Open], of which it looks at the error only,
    [os.Stat] (the error, or whether the file is a directory) and
    [File.Readdirnames], which returns the names of a directory in the
    order of the directory.  [Glob] drops the error of [Readdirnames],
    so the model leaves it out.

    The model covers the patterns made of literal bytes and stars, as
    all patterns of the program are: [Match] answers [ErrBadPattern]
    for a pattern that holds [?], [[] or a backslash, which Go does for
    some of them only.  It leaves out the limit [Glob] puts on the
    depth of its recursion (ten thousand directories). *)
Record OS := {
  os_Lstat : string → option Error;
  os_Stat : string → Error + bool;
  os_Open : string → option Error;
  Readdirnames : string → list string
}.

Module Filepath.

Definition Separator : ascii := "/".

Fixpoint any_byte (P : ascii → bool) (s : string) : bool :=
  match s with
  | EmptyString => false
  | String c s' => P c || any_byte P s'
  end.

(** [hasMeta]: the path holds one of the bytes [*?[\]. *)
Definition magic (c : ascii) : bool :=
  Ascii.eqb c "*" || Ascii.eqb c "?" || Ascii.eqb c "[" || Ascii.eqb c "092".

Definition hasMeta (path : string) : bool := any_byte magic path.

(** The patterns the model covers. *)
Definition plain (pattern : string) : bool :=
  negb (any_byte (λ c, Ascii.eqb c "?" || Ascii.eqb c "[" || Ascii.eqb c "092")
          pattern).

(** [Split]: the path up to its last separator, and what follows. *)
Fixpoint Split (path : string) : string * string :=
  match path with
  | EmptyString => ("", "")
  | String c rest =>
      let '(dir, file) := Split rest in
      if negb (String.eqb dir "") then (String c dir, file)
      else if Ascii.eqb c Separator then (String c "", file)
      else ("", String c file)
  end.

Definition cleanGlobPath (path : string) : string :=
  if String.eqb path "" then "."
  else if String.eqb path "/" then path
  else substring 0 (String.length path - 1) path.

(** [scanChunk]: the stars at the start of the pattern, then the
    literal bytes up to the next star. *)
Fixpoint skip_stars (pattern : string) : bool * string :=
  match pattern with
  | String c rest =>
      if Ascii.eqb c "*" then (true, (skip_stars rest).2) else (false, pattern)
  | EmptyString => (false, "")
  end.

Fixpoint until_star (pattern : string) : string * string :=
  match pattern with
  | String c rest =>
      if Ascii.eqb c "*" then ("", pattern)
      else let '(chunk, rest') := until_star rest in (String c chunk, rest')
  | EmptyString => ("", "")
  end.

Definition scanChunk (pattern : string) : bool * string * string :=
  let '(star, pattern) := skip_stars pattern in
  let '(chunk, rest) := until_star pattern in
  (star, chunk, rest).

(** [matchChunk] on a chunk of literal bytes: what is left of [s] when
    it starts with the chunk. *)
Fixpoint matchChunk (chunk s : string) : option string :=
  match chunk with
  | EmptyString => Some s
  | String c chunk' =>
      match s with
      | EmptyString => None
      | String c' s' => if Ascii.eqb c c' then matchChunk chunk' s' else None
      end
  end.

(** The loop of [Match] that lets a star take one byte more of the
    name, up to a separator, until the chunk matches; [last] says that
    the chunk is the last one, which has to match to the end. *)
Fixpoint star_skip (chunk : string) (last : bool) (name : string)
  : option string :=
  match name with
  | EmptyString => None
  | String c name' =>
      if Ascii.eqb c Separator then None
      else match matchChunk chunk name' with
           | Some t =>
               if last && negb (String.eqb t "") then star_skip chunk last name'
               else Some t
           | None => star_skip chunk last name'
           end
  end.

(** The loop of [Match] over the chunks; each round takes one byte at
    least from the pattern, so the length of the pattern is fuel
    enough. *)
Fixpoint Match_loop (fuel : nat) (pattern name : string) : bool :=
  if String.eqb pattern "" then String.eqb name ""
  else
    match fuel with
    | 0 => false
    | S fuel' =>
        let '(star, chunk, rest) := scanChunk pattern in
        if star && String.eqb chunk "" then
          negb (any_byte (Ascii.eqb Separator) name)
        else
          let skipping :=
            if star then
              match star_skip chunk (String.eqb rest "") name with
              | Some t => Match_loop fuel' rest t
              | None => false
              end
            else false in
          match matchChunk chunk name with
          | Some t =>
              if String.eqb t "" || negb (String.eqb rest "")
              then Match_loop fuel' rest t
              else skipping
          | None => skipping
          end
    end.

Definition Match (pattern name : string) : Error + bool :=
  if plain pattern then inr (Match_loop (String.length pattern) pattern name)
  else inl ErrBadPattern.

(** [glob]: the names of [dir] that match [pattern], joined to [dir]
    and appended to [matches].  A directory that cannot be examined,
    opened or read adds nothing and is no error. *)
Fixpoint glob_names (dir pattern : string) (names m : list string)
  : Error + list string :=
  match names with
  | [] => inr m
  | n :: names' =>
      match Match pattern n with
      | inl e => inl e
      | inr matched =>
          glob_names dir pattern names'
            (if matched then m ++ [filepath_Join [dir; n]] else m)
      end
  end.

Definition glob (os : OS) (dir pattern : string) (matches : list string)
  : Error + list string :=
  match os_Stat os dir with
  | inl _ => inr matches
  | inr false => inr matches
  | inr true =>
      match os_Open os dir with
      | Some _ => inr matches
      | None =>
          glob_names dir pattern (sort_Strings (Readdirnames os dir)) matches
      end
  end.

(** [for _, d := range m { matches, err = glob(d, file, matches) }] *)
Fixpoint glob_dirs (os : OS) (file : string) (m matches : list string)
  : Error + list string :=
  match m with
  | [] => inr matches
  | d :: m' =>
      match glob os d file matches with
      | inl e => inl e
      | inr matches' => glob_dirs os file m' matches'
      end
  end.

(** [Glob] calls itself on the directory of the pattern, which is
    shorter than the pattern. *)
Fixpoint Glob_loop (fuel : nat) (os : OS) (pattern : string)
  : Error + list string :=
  match fuel with
  | 0 => inl ErrBadPattern
  | S fuel' =>
      match Match pattern "" with
      | inl e => inl e
      | inr _ =>
          if negb (hasMeta pattern) then
            match os_Lstat os pattern with
            | Some _ => inr []
            | None => inr [pattern]
            end
          else
            let '(dir, file) := Split pattern in
            let dir := cleanGlobPath dir in
            if negb (hasMeta dir) then glob os dir file []
            else if String.eqb dir pattern then inl ErrBadPattern
            else match Glob_loop fuel' os dir with
                 | inl e => inl e
                 | inr m => glob_dirs os file m []
                 end
      end
  end.

Definition Glob (os : OS) (pattern : string) : Error + list string :=
  Glob_loop (S (String.length pattern)) os pattern.

End Filepath.

(** ** The regular expressions of package [regexp]

    The program compiles three constant patterns: ["read_bytes .*"],
    ["write_bytes .*"] and [" +"].  The model covers the patterns made of
    literal ASCII bytes, the dot and the postfix operators [*] and [+]
    (greedy), matched the way [regexp] does: the leftmost match, and at
    that position the one a backtracking search finds first.  The dot
    matches any byte but the newline: [regexp] matches it against a whole
    UTF-8 sequence, which makes no difference for a pattern whose dots
    stand at its end. *)
Inductive Atom :=
| AByte (c : ascii)
| AAnyNotNL.

Inductive Rep := ROne | RStar | RPlus.

Definition Regexp := list (Atom * Rep).

Definition is_meta (c : ascii) : bool :=
  existsb (Ascii.eqb c)
    ["\"; "?"; "("; ")"; "|"; "["; "]"; "{"; "}"; "^"; "$"]%char.

Definition rep_text (r : Rep) : string :=
  match r with ROne => "" | RStar => "*" | RPlus => "+" end.

(** The parser: [acc] is the sequence read so far, the last item first.
    A repetition operator with nothing before it, or right after another
    one, is a syntax error, as in [regexp/syntax].  A pattern outside the
    modelled fragment is reported as an error of its own. *)
Fixpoint compile_loop (acc : list (Atom * Rep)) (s : string) : Error + Regexp :=
  match s with
  | EmptyString => inr (rev acc)
  | String c s' =>
      if Ascii.eqb c "*" || Ascii.eqb c "+" then
        let op := if Ascii.eqb c "*" then RStar else RPlus in
        match acc with
        | (a, ROne) :: acc' => compile_loop ((a, op) :: acc') s'
        | (_, r) :: _ =>
            inl (RegexpError "invalid nested repetition operator"
                   (rep_text r +:+ rep_text op))
        | [] =>
            inl (RegexpError "missing argument to repetition operator"
                   (rep_text op))
        end
      else if Ascii.eqb c "." then compile_loop ((AAnyNotNL, ROne) :: acc) s'
      else if is_meta c || (128 <=? byte_of c)%N then
        inl (RegexpError "pattern outside the modelled fragment" (String c ""))
      else compile_loop ((AByte c, ROne) :: acc) s'
  end.

Definition regexp_Compile (expr : string) : Error + Regexp :=
  compile_loop [] expr.

Definition atom_matches (a : Atom) (c : ascii) : bool :=
  match a with
  | AByte b => Ascii.eqb b c
  | AAnyNotNL => negb (Ascii.eqb c newline)
  end.

(** [a*] followed by the rest of the pattern, [k]: the longest run of
    [a] first, then shorter ones. *)
Fixpoint match_star (a : Atom) (k : string → option nat) (s : string) : option nat :=
  match s with
  | String c s' =>
      if atom_matches a c then
        match match_star a k s' with
        | Some n => Some (S n)
        | None => k s
        end
      else k s
  | EmptyString => k s
  end.

(** The length of the match of [re] at the start of [s], if there is
    one. *)
Fixpoint match_here (re : Regexp) (s : string) : option nat :=
  match re with
  | [] => Some 0
  | (a, ROne) :: re' =>
      match s with
      | String c s' =>
          if atom_matches a c then S <$> match_here re' s' else None
      | EmptyString => None
      end
  | (a, RStar) :: re' => match_star a (match_here re') s
  | (a, RPlus) :: re' =>
      match s with
      | String c s' =>
          if atom_matches a c then S <$> match_star a (match_here re') s' else None
      | EmptyString => None
      end
  end.

(** [FindStringIndex]: where the leftmost match starts and ends. *)
Fixpoint Regexp_FindStringIndex (re : Regexp) (s : string) : option (nat * nat) :=
  match match_here re s with
  | Some n => Some (0, n)
  | None =>
      match s with
      | String _ s' =>
          (λ '(i, j), (S i, S j)) <$> Regexp_FindStringIndex re s'
      | EmptyString => None
      end
  end.

(** [s[i:j]] *)
Definition slice (s : string) (i j : nat) : string := substring i (j - i) s.

(** [FindString]: the text of the leftmost match, the empty string when
    there is none. *)
Definition Regexp_FindString (re : Regexp) (s : string) : string :=
  match Regexp_FindStringIndex re s with
  | Some (i, j) => slice s i j
  | None => ""
  end.

(** The leftmost match that starts at [pos] or later. *)
Definition doExecute (re : Regexp) (s : string) (pos : nat) : option (nat * nat) :=
  (λ '(i, j), (pos + i, pos + j))
    <$> Regexp_FindStringIndex re (slice s pos (String.length s)).

(** The loop of [allMatches]: the successive matches, an empty match
    being dropped when it touches the match before it.  Every round
    moves [pos] forward, so [String.length s + 2] rounds are enough. *)
Fixpoint allMatches_loop (fuel : nat) (re : Regexp) (s : string)
    (pos : nat) (prevMatchEnd : option nat) : list (nat * nat) :=
  match fuel with
  | O => []
  | S fuel' =>
      if (String.length s <? pos)%nat then []
      else match doExecute re s pos with
           | None => []
           | Some (m0, m1) =>
               let empty := (m1 =? pos)%nat in
               let accept := negb (empty && bool_decide (Some m0 = prevMatchEnd)) in
               let pos' :=
                 if empty
                 then (if (pos <? String.length s)%nat then pos + 1
                       else String.length s + 1)
                 else m1 in
               ((if accept then [(m0, m1)] else [])
                  ++ allMatches_loop fuel' re s pos' (Some m1))%list
           end
  end.

Definition Regexp_FindAllStringIndex (re : Regexp) (s : string) : list (nat * nat) :=
  allMatches_loop (String.length s + 2) re s 0 None.

(** [re.Split(s, -1)]: the slices of [s] between the matches of [re]. *)
Definition Regexp_Split (re : Regexp) (s : string) : list string :=
  if bool_decide (re ≠ []) && (String.length s =? 0)%nat then [""]
  else
    let matches := Regexp_FindAllStringIndex re s in
    let '(strings, beg, end_) :=
      fold_left
        (λ '(strings, beg, end_) '(m0, m1),
           ((if (m1 =? 0)%nat then strings
             else (strings ++ [slice s beg m0])%list), m1, m0))
        matches ([], 0, 0) in
    if (end_ =? String.length s)%nat then strings
    else (strings ++ [slice s beg (String.length s)])%list.

(** ** The metrics of the Prometheus client

    [float64] is the binary64 format of IEEE 754, as [SpecFloat] defines
    it; the conversion [float64(value)] of an integer rounds to the
    nearest float, ties to even. *)
Definition float64 := spec_float.

Definition float64_of_uint64 (value : N) : float64 :=
  binary_normalize 53 1024 (Z.of_N value) 0 false.

Inductive ValueType := CounterValue | GaugeValue | UntypedValue.

Record Desc := {
  fqName : string;
  help : string;
  variableLabels : list string;
  constLabels : gmap string string
}.

Record Metric := {
  desc : Desc;
  valType : ValueType;
  val : float64;
  labelValues : list string
}.

Definition prometheus_BuildFQName (namespace subsystem name : string) : string :=
  if String.eqb name "" then ""
  else if negb (String.eqb namespace "") && negb (String.eqb subsystem "")
  then strings_Join [namespace; subsystem; name] "_"
  else if negb (String.eqb namespace "") then strings_Join [namespace; name] "_"
  else if negb (String.eqb subsystem "") then strings_Join [subsystem; name] "_"
  else name.

(** ** The world of a scrape

    The file system answers two calls: [filepath.Glob], which returns
    the paths that match a pattern, or an error, and [ioutil.ReadFile],
    which returns the content of a file, or an error.  The channel is
    the list of the metrics sent so far, the oldest first. *)
Record FS := {
  Glob : string → Error + list string;
  ReadFile : string → Error + string
}.

Record World := {
  fs : FS;
  ch : list Metric
}.

(** The file system of a scrape whose [Glob] is that of Go over the
    calls [os]. *)
Definition os_fs (os : OS) (read : string → Error + string) : FS :=
  {| Glob := Filepath.Glob os; ReadFile := read |}.

(** A computation that reads the file system and sends on the channel.
    What it sent before it stopped, with an error or a panic, stays
    sent. *)
Definition M (A : Type) : Type := World → result A * World.

Definition ret {A} (a : A) : M A := λ w, (Ok a, w).

Definition bind {A B} (m : M A) (k : A → M B) : M B :=
  λ w, match m w with
       | (Ok a, w') => k a w'
       | (Err e, w') => (Err e, w')
       | (Crash p, w') => (Crash p, w')
       end.

Definition lift {A} (r : result A) : M A := λ w, (r, w).

Declare Scope M_scope.
Delimit Scope M_scope with M.
Notation "x ← m ; k" := (bind m (λ x, k))
  (at level 20, m at level 100, k at level 200, only parsing) : M_scope.

(** [for _, x := range l { body }], left as soon as a body returns an
    error. *)
Fixpoint for_each {A} (l : list A) (body : A → M unit) : M unit :=
  match l with
  | [] => ret tt
  | x :: l' => bind (body x) (λ _, for_each l' body)
  end.

Definition filepath_Glob (pattern : string) : M (list string) :=
  λ w, (of_sum (Glob (fs w) pattern), w).

Definition ioutil_ReadFile (filename : string) : M string :=
  λ w, (of_sum (ReadFile (fs w) filename), w).

(** [ch <- m] *)
Definition send (m : Metric) : M unit :=
  λ w, (Ok tt, {| fs := fs w; ch := ch w ++ [m] |}).

(** ** The source: [sources/procfs.go] *)

Definition samplesHelp : string :=
  "Total number of times the given metric has been collected.".
Definition maximumHelp : string :=
  "The maximum value retrieved for the given metric.".
Definition minimumHelp : string :=
  "The minimum value retrieved for the given metric.".
Definition totalHelp : string :=
  "The sum of all values collected for the given metric.".

Record lustreProcMetric := {
  subsystem : string;
  name : string;
  source : string;
  path : string;
  helpText : string
}.

Record lustreSource := {
  lustreProcMetrics : list lustreProcMetric;
  basePath : string
}.

Definition newLustreProcMetric (name source path helpText : string)
  : lustreProcMetric :=
  {| subsystem := ""; name := name; source := source; path := path;
     helpText := helpText |}.

Definition parseReadWriteBytes (regexString statsFile : string)
  : result (gmap string (gmap string N)) :=
  (bytesRegex ← of_sum (regexp_Compile regexString);
   let bytesString := Regexp_FindString bytesRegex statsFile in
   if (String.length bytesString =? 0)%nat then Ok ∅
   else
     r ← of_sum (regexp_Compile " +");
     let bytesSplit := Regexp_Split r bytesString in
     field1 ← at_index bytesSplit 1;
     samples ← of_sum (strconv_ParseUint field1);
     field4 ← at_index bytesSplit 4;
     minimum ← of_sum (strconv_ParseUint field4);
     field5 ← at_index bytesSplit 5;
     maximum ← of_sum (strconv_ParseUint field5);
     field6 ← at_index bytesSplit 6;
     total ← of_sum (strconv_ParseUint field6);
     let metricMap : gmap string (gmap string N) := ∅ in
     let metricMap := <["samples_total" := {[ samplesHelp := samples ]}]> metricMap in
     let metricMap := <["minimum_size_bytes" := {[ minimumHelp := minimum ]}]> metricMap in
     let metricMap := <["maximum_size_bytes" := {[ maximumHelp := maximum ]}]> metricMap in
     let metricMap := <["total_bytes" := {[ totalHelp := total ]}]> metricMap in
     Ok metricMap)%result.

Definition parseStatsFile (path : string)
  : M (gmap string (gmap string (gmap string N))) :=
  (statsFile ← ioutil_ReadFile path;
   readStatsMap ← lift (parseReadWriteBytes "read_bytes .*" statsFile);
   writeStatsMap ← lift (parseReadWriteBytes "write_bytes .*" statsFile);
   let metricMap : gmap string (gmap string (gmap string N)) := ∅ in
   let metricMap := <["read" := readStatsMap]> metricMap in
   let metricMap := <["write" := writeStatsMap]> metricMap in
   ret metricMap)%M.

Definition Handler : Type := string → string → string → string → N → M unit.

Definition parseFile (s : lustreSource)
    (nodeType metricType path helpText : string) (handler : Handler) : M unit :=
  (let pathElements := strings_Split path "/" in
   let pathLen := Z.of_nat (length pathElements) in
   if (pathLen <? 1)%Z
   then lift (Err (Errorf "path did not return at least one element"))
   else
     name ← lift (at_index pathElements (pathLen - 1));
     nodeName ← lift (at_index pathElements (pathLen - 2));
     if String.eqb metricType "single" then
       value ← ioutil_ReadFile path;
       convertedValue ← lift (of_sum (strconv_ParseUint (strings_TrimSpace value)));
       handler nodeType nodeName name helpText convertedValue
     else if String.eqb metricType "stats" then
       metricMap ← parseStatsFile path;
       for_each (map_to_list metricMap) (λ '(statType, statMap),
         for_each (map_to_list statMap) (λ '(key, metricMap),
           let metricName := statType +:+ "_" +:+ key in
           for_each (map_to_list metricMap) (λ '(detailedHelp, value),
             handler nodeType nodeName metricName detailedHelp value)))
     else ret tt)%M.

Section Package.

(** The constant [Namespace] of package [sources] is declared in another
    file of the package. *)
Variable Namespace : string.

(** [prometheus.MustNewConstMetric] of [prometheus.NewDesc]: one label,
    whose name is the node type and whose value is the node name. *)
Definition constMetric (s : lustreSource)
    (nodeType nodeName name helpText : string) (value : N) : Metric :=
  {| desc := {| fqName := prometheus_BuildFQName Namespace "lustre" name;
                help := helpText;
                variableLabels := [nodeType];
                constLabels := ∅ |};
     valType := CounterValue;
     val := float64_of_uint64 value;
     labelValues := [nodeName] |}.

(** The handler [Update] passes to [parseFile]. *)
Definition emit (s : lustreSource) : Handler :=
  λ nodeType nodeName name helpText value,
    send (constMetric s nodeType nodeName name helpText value).

(** [Update] runs two nested loops; their bodies are named here, the
    outer one [Update_metric] and the inner one [Update_path], and so is
    the resolution of a descriptor into the paths that match it,
    [resolve]. *)
Definition resolve (s : lustreSource) (metric : lustreProcMetric)
  : M (list string) :=
  filepath_Glob (filepath_Join [basePath s; path metric; name metric]).

Definition Update_path (s : lustreSource) (metric : lustreProcMetric)
    (path : string) : M unit :=
  let metricType :=
    if String.eqb (name metric) "stats" then "stats" else "single" in
  parseFile s (source metric) metricType path (helpText metric) (emit s).

Definition Update_metric (s : lustreSource) (metric : lustreProcMetric)
  : M unit :=
  (paths ← resolve s metric;
   match paths with
   | [] => ret tt
   | _ => for_each paths (Update_path s metric)
   end)%M.

Definition Update (s : lustreSource) : M unit :=
  for_each (lustreProcMetrics s) (Update_metric s).

End Package.

(** ** The registry: the three [generate...MetricTemplates] and [NewLustreSource]

    Each of the three functions builds a map literal, from a path to
    the map from the names of the metrics under that path to their help
    texts, and appends one descriptor for each entry to the registry,
    in the order in which [range] goes through the maps.  The keys of a
    map literal are distinct; the literal is the map of its entries. *)
Definition ossMetrics : list (string * string) :=
  [ ("blocksize",
      "Filesystem block size in bytes");
    ("brw_size",
      "Block read/write size in bytes");
    ("degraded",
      "Binary indicator as to whether or not the pool is degraded - 0 for not degraded, 1 for degraded");
    ("filesfree",
      "The number of inodes (objects) available");
    ("filestotal",
      "The maximum number of inodes (objects) the filesystem can hold");
    ("grant_compat_disable",
      "Binary indicator as to whether clients with OBD_CONNECT_GRANT_PARAM setting will be granted space");
    ("grant_precreate",
      "Maximum space in bytes that clients can preallocate for objects");
    ("job_cleanup_interval",
      "Interval in seconds between cleanup of tuning statistics");
    ("kbytesavail",
      "Number of kilobytes readily available in the pool");
    ("kbytesfree",
      "Number of kilobytes allocated to the pool");
    ("kbytestotal",
      "Capacity of the pool in kilobytes");
    ("lfsck_speed_limit",
      "Maximum operations per second LFSCK (Lustre filesystem verification) can run");
    ("num_exports",
      "Total number of times the pool has been exported");
    ("precreate_batch",
      "Maximum number of objects that can be included in a single transaction");
    ("recovery_time_hard",
      "Maximum timeout 'recover_time_soft' can increment to for a single server");
    ("recovery_time_soft",
      "Duration in seconds for a client to attempt to reconnect after a crash (automatically incremented if servers are still in an error state)");
    ("soft_sync_limit",
      "Number of RPCs necessary before triggering a sync");
    ("stats",
      "A collection of statistics specific to Lustre");
    ("sync_journal",
      "Binary indicator as to whether or not the journal is set for asynchronous commits");
    ("tot_dirty",
      "Total number of exports that have been marked dirty");
    ("tot_granted",
      "Total number of exports that have been marked granted");
    ("tot_pending",
      "Total number of exports that have been marked pending") ].

Definition mgsMetrics : list (string * string) :=
  [ ("blocksize",
      "Filesystem block size in bytes");
    ("filesfree",
      "The number of inodes (objects) available");
    ("filestotal",
      "The maximum number of inodes (objects) the filesystem can hold");
    ("kbytesavail",
      "Number of kilobytes readily available in the pool");
    ("kbytesfree",
      "Number of kilobytes allocated to the pool");
    ("kbytestotal",
      "Capacity of the pool in kilobytes");
    ("quota_iused_estimate",
      "Returns '1' if a valid address is returned within the pool, referencing whether free space can be allocated") ].

Definition mdsMetrics : list (string * string) :=
  [ ("blocksize",
      "Filesystem block size in bytes");
    ("filesfree",
      "The number of inodes (objects) available");
    ("filestotal",
      "The maximum number of inodes (objects) the filesystem can hold");
    ("kbytesavail",
      "Number of kilobytes readily available in the pool");
    ("kbytesfree",
      "Number of kilobytes allocated to the pool");
    ("kbytestotal",
      "Capacity of the pool in kilobytes");
    ("quota_iused_estimate",
      "Returns '1' if a valid address is returned within the pool, referencing whether free space can be allocated") ].

Definition generateOSSMetricTemplates (s : lustreSource)
  : lustreSource * option Error :=
  let metricMap : gmap string (gmap string string) :=
    {[ "obdfilter/*" := list_to_map ossMetrics ]} in
  let s :=
    fold_left (λ s '(path, _),
      fold_left (λ s '(metric, helpText),
        let newMetric := newLustreProcMetric metric "OSS" path helpText in
        {| lustreProcMetrics := lustreProcMetrics s ++ [newMetric];
           basePath := basePath s |})
        (map_to_list (default ∅ (metricMap !! path))) s)
      (map_to_list metricMap) s in
  (s, None).

Definition generateMGSMetricTemplates (s : lustreSource)
  : lustreSource * option Error :=
  let metricMap : gmap string (gmap string string) :=
    {[ "mgs/MGS/osd/" := list_to_map mgsMetrics ]} in
  let s :=
    fold_left (λ s '(path, _),
      fold_left (λ s '(metric, helpText),
        let newMetric := newLustreProcMetric metric "MGS" path helpText in
        {| lustreProcMetrics := lustreProcMetrics s ++ [newMetric];
           basePath := basePath s |})
        (map_to_list (default ∅ (metricMap !! path))) s)
      (map_to_list metricMap) s in
  (s, None).

Definition generateMDSMetricTemplates (s : lustreSource)
  : lustreSource * option Error :=
  let metricMap : gmap string (gmap string string) :=
    {[ "mds/MDS/osd" := list_to_map mdsMetrics ]} in
  let s :=
    fold_left (λ s '(path, _),
      fold_left (λ s '(metric, helpText),
        let newMetric := newLustreProcMetric metric "MDS" path helpText in
        {| lustreProcMetrics := lustreProcMetrics s ++ [newMetric];
           basePath := basePath s |})
        (map_to_list (default ∅ (metricMap !! path))) s)
      (map_to_list metricMap) s in
  (s, None).

(** The errors the three functions return are not looked at. *)
Definition NewLustreSource : lustreSource * option Error :=
  let l := {| lustreProcMetrics := []; basePath := "" |} in
  let l := {| lustreProcMetrics := lustreProcMetrics l;
              basePath := "/proc/fs/lustre" |} in
  let l := (generateOSSMetricTemplates l).1 in
  let l := (generateMGSMetricTemplates l).1 in
  let l := (generateMDSMetricTemplates l).1 in
  (l, None).

(** The descriptors of a table of metrics. *)
Definition descriptors (source path : string) (metrics : list (string * string))
  : list lustreProcMetric :=
  map (λ '(metric, helpText), newLustreProcMetric metric source path helpText)
    metrics.

(** The pattern [Update] expands for a descriptor. *)
Definition glob_pattern (s : lustreSource) (metric : lustreProcMetric) : string :=
  filepath_Join [basePath s; path metric; name metric].

(** * Notions the statements use *)

(** The two directions of the statistics blob.  [word] is the name of
    the line, [token] what the pattern looks for (the name and one
    space), [pattern] the regular expression [parseStatsFile] passes. *)
Inductive Direction := Read | Write.

Definition word (d : Direction) : string :=
  match d with Read => "read_bytes" | Write => "write_bytes" end.

Definition token (d : Direction) : string := word d +:+ " ".

Definition pattern (d : Direction) : string := token d +:+ ".*".

Definition prefix_name (d : Direction) : string :=
  match d with Read => "read" | Write => "write" end.

Definition other (d : Direction) : Direction :=
  match d with Read => Write | Write => Read end.

(** [sub] occurs somewhere in [s]. *)
Fixpoint occurs (sub s : string) : bool :=
  match strip_prefix sub s with
  | Some _ => true
  | None =>
      match s with
      | String _ s' => occurs sub s'
      | EmptyString => false
      end
  end.

(** [s] up to its first newline. *)
Fixpoint line_of (s : string) : string :=
  match s with
  | String c s' => if Ascii.eqb c newline then "" else String c (line_of s')
  | EmptyString => ""
  end.

(** The text from the leftmost occurrence of [tok] in [s] to the end of
    that line; empty when [tok] does not occur. *)
Fixpoint segment (tok s : string) : string :=
  match strip_prefix tok s with
  | Some rest => tok +:+ line_of rest
  | None =>
      match s with
      | String _ s' => segment tok s'
      | EmptyString => ""
      end
  end.

(** The lines of a text, and the lines that start with [p]. *)
Definition lines (s : string) : list string := strings_Split s newline.

Definition has_prefix (p s : string) : bool :=
  match strip_prefix p s with Some _ => true | None => false end.

Definition lines_with_prefix (p s : string) : list string :=
  filter (λ l, has_prefix p l = true) (lines s).

(** The map [parseReadWriteBytes] builds from the four numbers of a
    line. *)
Definition statistics (samples minimum maximum total : N)
  : gmap string (gmap string N) :=
  <["total_bytes" := {[ totalHelp := total ]}]>
    (<["maximum_size_bytes" := {[ maximumHelp := maximum ]}]>
       (<["minimum_size_bytes" := {[ minimumHelp := minimum ]}]>
          (<["samples_total" := {[ samplesHelp := samples ]}]> ∅))).

(** The literal atoms of a pattern without operators. *)
Definition literal (lit : string) : Regexp :=
  map (λ c, (AByte c, ROne)) (list_ascii_of_string lit).

(** The value of a finite float, when it is the integer [v]. *)
Definition represents (f : float64) (v : Z) : Prop :=
  match f with
  | S754_zero _ => v = 0%Z
  | S754_finite s m e =>
      if (0 <=? e)%Z then (cond_Zopp s (Zpos m) * 2 ^ e = v)%Z
      else (cond_Zopp s (Zpos m) = v * 2 ^ (- e))%Z
  | _ => False
  end.

(** The four metrics a direction contributes for a path. *)
Definition observations (Namespace : string) (s : lustreSource)
    (nodeType nodeName : string) (d : Direction)
    (samples minimum maximum total : N) : list Metric :=
  [ constMetric Namespace s nodeType nodeName
      (prefix_name d +:+ "_samples_total") samplesHelp samples;
    constMetric Namespace s nodeType nodeName
      (prefix_name d +:+ "_minimum_size_bytes") minimumHelp minimum;
    constMetric Namespace s nodeType nodeName
      (prefix_name d +:+ "_maximum_size_bytes") maximumHelp maximum;
    constMetric Namespace s nodeType nodeName
      (prefix_name d +:+ "_total_bytes") totalHelp total ].

(** A computation that leaves the file system as it is and only adds
    to the channel; [quiet_on_failure]: nothing is added unless it
    succeeds. *)
Definition sends_only {A} (m : M A) : Prop :=
  ∀ w, ∃ r l, m w = (r, {| fs := fs w; ch := ch w ++ l |}).

Definition quiet_on_failure {A} (m : M A) : Prop :=
  ∀ w, ∃ r l, m w = (r, {| fs := fs w; ch := ch w ++ l |})
              ∧ ((∀ a, r ≠ Ok a) → l = []).

Definition succeeds {A} (m : M A) : Prop :=
  ∀ w, ∃ a l, m w = (Ok a, {| fs := fs w; ch := ch w ++ l |}).

(** What the two inner loops of [parseFile] do for one direction. *)
Definition emit_direction (ns : string) (s : lustreSource)
    (nodeType nodeName statType : string)
    (statMap : gmap string (gmap string N)) : M unit :=
  for_each (map_to_list statMap) (λ '(key, metricMap),
    let metricName := statType +:+ "_" +:+ key in
    for_each (map_to_list metricMap) (λ '(detailedHelp, value),
      emit ns s nodeType nodeName metricName detailedHelp value)).

(** ** Worlds and files of the examples *)

(** A file system given by two tables: what each pattern matches and
    what each file holds. *)
Definition table_fs (globs : gmap string (list string))
    (files : gmap string string) : FS :=
  {| Glob := λ pattern, inr (default [] (globs !! pattern));
     ReadFile := λ filename,
       match files !! filename with
       | Some content => inr content
       | None => inl (PathError "open" filename "no such file or directory")
       end |}.

Definition nl : string := String newline "".

(** Three object storage targets, the second of which holds a file
    that is not a number. *)
Definition kbytesfree : lustreProcMetric :=
  newLustreProcMetric "kbytesfree" "OSS" "obdfilter/*"
    "Number of kilobytes allocated to the pool".

Definition three_targets : FS :=
  table_fs
    {[ "/proc/fs/lustre/obdfilter/*/kbytesfree" :=
         [ "/proc/fs/lustre/obdfilter/ost1/kbytesfree";
           "/proc/fs/lustre/obdfilter/ost2/kbytesfree";
           "/proc/fs/lustre/obdfilter/ost3/kbytesfree" ] ]}
    (<[ "/proc/fs/lustre/obdfilter/ost1/kbytesfree" := "11" +:+ nl ]>
       (<[ "/proc/fs/lustre/obdfilter/ost2/kbytesfree" := "abc" ]>
          {[ "/proc/fs/lustre/obdfilter/ost3/kbytesfree" := "33" +:+ nl ]})).

Definition oss_source : lustreSource :=
  {| lustreProcMetrics := [kbytesfree]; basePath := "/proc/fs/lustre" |}.

(** A node with no object storage target, and a descriptor whose
    pattern is malformed. *)
Definition no_target : FS := table_fs ∅ ∅.

Definition bad_pattern_fs : FS :=
  {| Glob := λ pattern,
       if String.eqb pattern "/proc/fs/lustre/obdfilter/[/stats"
       then inl ErrBadPattern else inr [];
     ReadFile := λ filename,
       inl (PathError "open" filename "no such file or directory") |}.

Definition bad_pattern_source : lustreSource :=
  {| lustreProcMetrics :=
       [newLustreProcMetric "stats" "OSS" "obdfilter/["
          "A collection of statistics specific to Lustre"];
     basePath := "/proc/fs/lustre" |}.

Definition both_directions : string :=
  "read_bytes 3 samples [bytes] 10 100 150" +:+ nl
  +:+ "write_bytes 2 samples [bytes] 5 50 55" +:+ nl.

Definition read_only_blob : string :=
  "snapshot_time 1500000000.123456 secs.usecs" +:+ nl
  +:+ "read_bytes 3 samples [bytes] 10 100 150" +:+ nl.

Definition mid_line_blob : string :=
  "cache read_bytes 3 samples [bytes] 10 100 150" +:+ nl.

(** ** Lines of the statistics blob *)

(** Lines made of fields: [join_fields f0 [(sep1, f1); ...]] is the
    field [f0], then the separator [sep1], the field [f1], and so on.
    It is well separated when no field has a space, every separator is
    a run of one space or more, and every field after the first has a
    byte at least. *)
Fixpoint all_bytes (P : ascii → bool) (s : string) : bool :=
  match s with
  | EmptyString => true
  | String c s' => P c && all_bytes P s'
  end.

Definition is_space (c : ascii) : bool := Ascii.eqb " " c.

Fixpoint join_fields (f0 : string) (rest : list (string * string)) : string :=
  match rest with
  | [] => f0
  | (sep, f) :: rest' => f0 +:+ sep +:+ join_fields f rest'
  end.

Fixpoint well_separated (f0 : string) (rest : list (string * string)) : bool :=
  all_bytes (λ c, negb (is_space c)) f0
  && match rest with
     | [] => true
     | (sep, f) :: rest' =>
         negb (String.eqb sep "") && all_bytes is_space sep
         && negb (String.eqb f "") && well_separated f rest'
     end.

(** Where the separators of a line start and end, counted from
    [off]. *)
Fixpoint matches_of (off : nat) (f0 : string) (rest : list (string * string))
  : list (nat * nat) :=
  match rest with
  | [] => []
  | (sep, f) :: rest' =>
      (off + String.length f0, off + String.length f0 + String.length sep)
        :: matches_of (off + String.length f0 + String.length sep) f rest'
  end.

Definition spaces_re : Regexp := [(AByte " "%char, RPlus)].

(** A text that does not start with a space. *)
Definition starts_field (t : string) : bool :=
  match t with
  | EmptyString => true
  | String c _ => negb (is_space c)
  end.

(** What the loop of [Split] has gathered after the separators of a
    line: the fields before the last one, where the last field starts
    and where the last separator starts. *)
Fixpoint gathered (acc : list string) (off e0 : nat) (f0 : string)
    (rest : list (string * string)) : list string * nat * nat :=
  match rest with
  | [] => (acc, off, e0)
  | (sep, f) :: rest' =>
      gathered (acc ++ [f0]) (off + String.length f0 + String.length sep)
        (off + String.length f0) f rest'
  end.

(** A line of the statistics blob for the direction [d]: the name, the
    number of samples [n1], two fields the program does not read (the
    word [samples] and the unit), the minimum [n4], the maximum [n5]
    and the total [n6], and whatever fields follow; the fields are
    separated by runs of spaces and the line has no newline. *)
Definition blob_line (d : Direction) (line n1 n4 n5 n6 : string) : Prop :=
  ∃ sep1 sep2 f2 sep3 f3 sep4 sep5 sep6 extra,
    line = join_fields (word d)
             ([(sep1, n1); (sep2, f2); (sep3, f3); (sep4, n4); (sep5, n5); (sep6, n6)]
                ++ extra)
    ∧ well_separated (word d)
        ([(sep1, n1); (sep2, f2); (sep3, f3); (sep4, n4); (sep5, n5); (sep6, n6)]
           ++ extra) = true
    ∧ occurs nl line = false.

(** The file holds [line], which starts at the leftmost occurrence of
    the token of [d] and runs to the end of its line. *)
Definition holds_line (d : Direction) (statsFile line : string) : Prop :=
  ∃ pre post,
    statsFile = pre +:+ line +:+ post
    ∧ occurs (token d) (pre +:+ word d) = false
    ∧ (post = "" ∨ ∃ post', post = nl +:+ post').

(** ** Decimal numbers *)

(** The number the decimal digits of [s] write after the digits already
    read, whose value is [n]. *)
Fixpoint decimal_from (n : N) (s : string) : N :=
  match s with
  | EmptyString => n
  | String c s' => decimal_from (n * 10 + (byte_of c - 48)) s'
  end.

Definition decimal (s : string) : N := decimal_from 0 s.

(** A string of one decimal digit or more. *)
Definition is_number (s : string) : bool :=
  negb (String.eqb s "") && all_bytes is_digit s.

(** A decimal number that fits in a [uint64]. *)
Definition is_uint64 (s : string) : bool :=
  is_number s && (decimal s <? 2 ^ 64)%N.

(** ** White space and path components *)

(** The white space of ASCII: tab, newline, vertical tab, form feed,
    carriage return and space. *)
Definition ascii_space (c : ascii) : bool :=
  existsb (N.eqb (byte_of c)) [9; 10; 11; 12; 13; 32]%N.

Definition no_slash (s : string) : bool :=
  all_bytes (λ c, negb (Ascii.eqb c "/")) s.

(** A computation that leaves the file system as it is and adds to the
    channel only metrics that satisfy [P]. *)
Definition sends_such (P : Metric → Prop) {A} (m : M A) : Prop :=
  ∀ w, ∃ r l, m w = (r, {| fs := fs w; ch := ch w ++ l |}) ∧ Forall P l.

(** The path of a scalar file of the examples. *)
Definition ost1_kbytesfree : string := "/proc/fs/lustre/obdfilter/ost1/kbytesfree".

(** The names of the four metrics of a direction. *)
Definition metric_names (d : Direction) : list string :=
  [ prefix_name d +:+ "_samples_total"; prefix_name d +:+ "_minimum_size_bytes";
    prefix_name d +:+ "_maximum_size_bytes"; prefix_name d +:+ "_total_bytes" ].

Definition ost1_stats : string := "/proc/fs/lustre/obdfilter/ost1/stats".

(** A statistics file as the servers write it, with wide columns and a
    sum of squares after the total. *)
Definition wide_blob : string :=
  "snapshot_time             1500000000.123456 secs.usecs" +:+ nl
  +:+ "read_bytes                3 samples [bytes] 4096 1048576 2101248 17" +:+ nl
  +:+ "write_bytes               2 samples [bytes] 512 4096 4608" +:+ nl
  +:+ "get_info                  7 samples [reqs]" +:+ nl.

(** Three object storage targets with statistics, the second of which
    holds a line cut short. *)
Definition stats_metric : lustreProcMetric :=
  newLustreProcMetric "stats" "OSS" "obdfilter/*"
    "A collection of statistics specific to Lustre".

Definition stats_source : lustreSource :=
  {| lustreProcMetrics := [stats_metric]; basePath := "/proc/fs/lustre" |}.

Definition three_stats_targets : FS :=
  table_fs
    {[ "/proc/fs/lustre/obdfilter/*/stats" :=
         [ "/proc/fs/lustre/obdfilter/ost1/stats";
           "/proc/fs/lustre/obdfilter/ost2/stats";
           "/proc/fs/lustre/obdfilter/ost3/stats" ] ]}
    (<[ "/proc/fs/lustre/obdfilter/ost1/stats" := read_only_blob ]>
       (<[ "/proc/fs/lustre/obdfilter/ost2/stats" := "read_bytes 3 samples" ]>
          {[ "/proc/fs/lustre/obdfilter/ost3/stats" := both_directions ]})).

(** ** Directories *)

(** A path that starts at the root. *)
Definition rooted (path : string) : bool :=
  match path with
  | String c _ => Ascii.eqb c "/"
  | EmptyString => false
  end.

(** Two views of one state of the file system: the calls answer the
    same, and each directory holds the same names, which it may list in
    another order. *)
Definition same_state (a b : OS) : Prop :=
  (∀ p, os_Lstat a p = os_Lstat b p)
  ∧ (∀ p, os_Stat a p = os_Stat b p)
  ∧ (∀ p, os_Open a p = os_Open b p)
  ∧ (∀ p, Readdirnames a p ≡ₚ Readdirnames b p).

(** The same file system with the names of every directory listed in
    the order [order] puts them in. *)
Definition listed (order : list string → list string) (os : OS) : OS :=
  {| os_Lstat := os_Lstat os; os_Stat := os_Stat os; os_Open := os_Open os;
     Readdirnames := λ dir, order (Readdirnames os dir) |}.

(** A file system given by the names of its directories; the paths of
    [broken] cannot be examined. *)
Definition tree_has (dirs : gmap string (list string)) (p : string) : bool :=
  bool_decide (is_Some (dirs !! p))
  || existsb (λ '(d, names), existsb (λ n, String.eqb (d +:+ "/" +:+ n) p) names)
       (map_to_list dirs).

Definition tree_os (dirs : gmap string (list string)) (broken : gmap string Error)
  : OS :=
  {| os_Lstat := λ p,
       if tree_has dirs p then None
       else Some (PathError "lstat" p "no such file or directory");
     os_Stat := λ p,
       match broken !! p with
       | Some e => inl e
       | None =>
           if bool_decide (is_Some (dirs !! p)) then inr true
           else if tree_has dirs p then inr false
           else inl (PathError "stat" p "no such file or directory")
       end;
     os_Open := λ p,
       if tree_has dirs p then None
       else Some (PathError "open" p "no such file or directory");
     Readdirnames := λ p, default [] (dirs !! p) |}.

(** Three object storage targets, listed out of order. *)
Definition obdfilter_dirs : gmap string (list string) :=
  <[ "/proc/fs/lustre/obdfilter" := ["ost3"; "ost1"; "ost2"] ]>
    (<[ "/proc/fs/lustre/obdfilter/ost1" := ["stats"; "kbytesfree"] ]>
       (<[ "/proc/fs/lustre/obdfilter/ost2" := ["stats"; "kbytesfree"] ]>
          {[ "/proc/fs/lustre/obdfilter/ost3" := ["stats"; "kbytesfree"] ]})).

Definition permission_denied (p : string) : Error :=
  PathError "stat" p "permission denied".

(** The second target cannot be examined: permission denied. *)
Definition ost2_denied : OS :=
  tree_os obdfilter_dirs
    {[ "/proc/fs/lustre/obdfilter/ost2" :=
         permission_denied "/proc/fs/lustre/obdfilter/ost2" ]}.

(** A file in which the token of the write direction stands inside a
    line, after the line of the read direction. *)
Definition hidden_write_blob : string :=
  "read_bytes 3 samples [bytes] 10 100 150" +:+ nl
  +:+ "cache write_bytes 2 samples [bytes] 5 50 55" +:+ nl.

(** * Properties *)

(** ** Strings *)

Lemma strings_Split_nonempty s sep : strings_Split s sep ≠ [].
Proof.
  induction s as [|c s IH]; simpl; [done|].
  destruct (Ascii.eqb c sep); [done|].
  destruct (strings_Split s sep); done.
Qed.

Lemma strings_Split_length s sep : (1 ≤ length (strings_Split s sep))%nat.
Proof.
  pose proof (strings_Split_nonempty s sep) as H.
  destruct (strings_Split s sep); [done | simpl; lia].
Qed.

Lemma sapp_cons c (a b : string) : String c a +:+ b = String c (a +:+ b).
Proof. done. Qed.

Lemma sapp_nil_l (b : string) : "" +:+ b = b.
Proof. done. Qed.

Lemma sapp_assoc (a b c : string) : (a +:+ b) +:+ c = a +:+ (b +:+ c).
Proof.
  induction a as [|x a IH]; [done|]. by rewrite !sapp_cons, IH.
Qed.

Lemma sapp_nil_r (a : string) : a +:+ "" = a.
Proof.
  induction a as [|x a IH]; [done|]. by rewrite sapp_cons, IH.
Qed.

Lemma sapp_length (a b : string) :
  String.length (a +:+ b) = (String.length a + String.length b)%nat.
Proof.
  induction a as [|x a IH]; [done|]. rewrite sapp_cons. simpl. by rewrite IH.
Qed.

Lemma substring_0_app (a b : string) (k : nat) :
  substring 0 (String.length a + k) (a +:+ b) = a +:+ substring 0 k b.
Proof.
  induction a as [|x a IH]; [done|]. rewrite !sapp_cons. simpl. by rewrite IH.
Qed.

Lemma strip_prefix_app tok rest : strip_prefix tok (tok +:+ rest) = Some rest.
Proof.
  induction tok as [|c tok IH]; [done|].
  rewrite sapp_cons. simpl. by rewrite Ascii.eqb_refl.
Qed.

Lemma strip_prefix_Some tok s rest :
  strip_prefix tok s = Some rest → s = tok +:+ rest.
Proof.
  revert s. induction tok as [|c tok IH]; intros s; simpl.
  - by intros [= ->].
  - destruct s as [|b s]; [done|].
    destruct (Ascii.eqb c b) eqn:E; [|done].
    apply Ascii.eqb_eq in E as ->. intros H. by rewrite (IH _ H), sapp_cons.
Qed.

(** ** The patterns of the program *)

Lemma compile_pattern d :
  regexp_Compile (pattern d) = inr (literal (token d) ++ [(AAnyNotNL, RStar)]).
Proof. by destruct d. Qed.

Lemma compile_spaces : regexp_Compile " +" = inr [(AByte " "%char, RPlus)].
Proof. done. Qed.

Lemma literal_cons c lit : literal (String c lit) = (AByte c, ROne) :: literal lit.
Proof. done. Qed.

(** A literal prefix of a pattern matches exactly that text. *)
Lemma match_here_literal lit re s :
  match_here (literal lit ++ re) s =
  match strip_prefix lit s with
  | Some rest => (λ n, String.length lit + n) <$> match_here re rest
  | None => None
  end.
Proof.
  revert s. induction lit as [|c lit IH]; intros s.
  - simpl. by destruct (match_here re s).
  - rewrite literal_cons. simpl. destruct s as [|b s]; [done|].
    destruct (Ascii.eqb c b); [|done].
    rewrite IH. destruct (strip_prefix lit s); [|done].
    by destruct (match_here re s0).
Qed.

(** The length of [line_of s]. *)
Lemma match_star_any s :
  match_star AAnyNotNL (λ _, Some 0) s = Some (String.length (line_of s)).
Proof.
  induction s as [|c s IH]; simpl; [done|].
  destruct (Ascii.eqb c newline); simpl; [done|].
  by rewrite IH.
Qed.

Lemma substring_line_of s : substring 0 (String.length (line_of s)) s = line_of s.
Proof.
  induction s as [|c s IH]; simpl; [done|].
  destruct (Ascii.eqb c newline); simpl; [done | by rewrite IH].
Qed.

Lemma FindString_here re s n :
  match_here re s = Some n → Regexp_FindString re s = substring 0 n s.
Proof.
  intros H. unfold Regexp_FindString. destruct s; simpl; rewrite H;
    unfold slice; by rewrite Nat.sub_0_r.
Qed.

Lemma FindString_skip re c s :
  match_here re (String c s) = None →
  Regexp_FindString re (String c s) = Regexp_FindString re s.
Proof.
  intros H. unfold Regexp_FindString. simpl Regexp_FindStringIndex at 1.
  rewrite H. destruct (Regexp_FindStringIndex re s) as [[i j]|]; [|done].
  done.
Qed.

(** What the patterns of the two directions select: [segment]. *)
Lemma FindString_segment tok s :
  tok ≠ "" →
  Regexp_FindString (literal tok ++ [(AAnyNotNL, RStar)]) s = segment tok s.
Proof.
  intros Htok. induction s as [|c s IH].
  - unfold Regexp_FindString. simpl. rewrite match_here_literal.
    destruct tok; done.
  - simpl segment. destruct (strip_prefix tok (String c s)) as [rest|] eqn:E.
    + rewrite (FindString_here _ _ (String.length tok + String.length (line_of rest))).
      * rewrite (strip_prefix_Some _ _ _ E), substring_0_app.
        by rewrite substring_line_of.
      * rewrite match_here_literal, E.
        change (match_here [(AAnyNotNL, RStar)] rest)
          with (match_star AAnyNotNL (λ _, Some 0) rest).
        by rewrite match_star_any.
    + rewrite FindString_skip; [done|].
      by rewrite match_here_literal, E.
Qed.

Lemma token_nonempty d : token d ≠ "".
Proof. by destruct d. Qed.

Lemma segment_unfold tok s :
  segment tok s =
  match strip_prefix tok s with
  | Some rest => tok +:+ line_of rest
  | None => match s with String _ s' => segment tok s' | EmptyString => "" end
  end.
Proof. by destruct s. Qed.

Lemma line_of_idem s : line_of (line_of s) = line_of s.
Proof.
  induction s as [|c s IH]; simpl; [done|].
  destruct (Ascii.eqb c newline) eqn:E; simpl; [done|].
  by rewrite E, IH.
Qed.

Lemma segment_idem tok s : tok ≠ "" → segment tok (segment tok s) = segment tok s.
Proof.
  intros Htok. induction s as [|c s IH]; simpl.
  - destruct tok; [done|]. done.
  - destruct (strip_prefix tok (String c s)) as [rest|]; [|done].
    by rewrite segment_unfold, strip_prefix_app, line_of_idem.
Qed.

Lemma segment_absent tok s : occurs tok s = false → segment tok s = "".
Proof.
  induction s as [|c s IH]; simpl.
  - by destruct (strip_prefix tok "").
  - destruct (strip_prefix tok (String c s)); [done | exact IH].
Qed.

Lemma occurs_unfold sub s :
  occurs sub s =
  match strip_prefix sub s with
  | Some _ => true
  | None => match s with String _ s' => occurs sub s' | EmptyString => false end
  end.
Proof. by destruct s. Qed.

Lemma line_of_app rest post :
  occurs (String newline "") rest = false →
  post = "" ∨ (∃ post', post = String newline post') →
  line_of (rest +:+ post) = rest.
Proof.
  intros Hrest Hpost. induction rest as [|c rest IH].
  - rewrite sapp_nil_l. destruct Hpost as [-> | [post' ->]]; [done|].
    by simpl; rewrite ?Ascii.eqb_refl.
  - rewrite sapp_cons. cbn [line_of].
    rewrite occurs_unfold in Hrest. cbn [strip_prefix] in Hrest.
    rewrite (Ascii.eqb_sym c newline).
    destruct (Ascii.eqb newline c); [done|].
    by rewrite IH.
Qed.

(** Whether [tok] is a prefix of a text is decided by the first
    [String.length tok] bytes of the text. *)
Lemma strip_prefix_None_app tok a b :
  strip_prefix tok a = None → String.length tok ≤ String.length a →
  strip_prefix tok (a +:+ b) = None.
Proof.
  revert a. induction tok as [|c tok IH]; intros a; [done|].
  destruct a as [|x a]; intros H Hlen; simpl in *; [lia|].
  destruct (Ascii.eqb c x); [|done].
  apply IH; [done | lia].
Qed.

(** The leftmost occurrence of a token [w] followed by one byte [l] is
    the one [segment] takes, wherever in its line it stands. *)
Lemma segment_leftmost w l pre rest post :
  occurs (w +:+ String l "") (pre +:+ w) = false →
  line_of (rest +:+ post) = rest →
  segment (w +:+ String l "") (pre +:+ (w +:+ String l "") +:+ rest +:+ post)
  = (w +:+ String l "") +:+ rest.
Proof.
  intros Hpre Hline. induction pre as [|c pre IH].
  - by rewrite sapp_nil_l, segment_unfold, strip_prefix_app, Hline.
  - rewrite sapp_cons, occurs_unfold in Hpre.
    destruct (strip_prefix _ (String c (pre +:+ w))) eqn:E; [done|].
    rewrite sapp_cons, segment_unfold.
    replace (String c (pre +:+ (w +:+ String l "") +:+ rest +:+ post))
      with (String c (pre +:+ w) +:+ (String l "" +:+ rest +:+ post)).
    2:{ rewrite sapp_cons. f_equal. by rewrite !sapp_assoc. }
    rewrite strip_prefix_None_app; [by apply IH | done |].
    simpl. rewrite !sapp_length. simpl. lia.
Qed.

(** ** [parseReadWriteBytes] *)

(** The function looks at its input through [FindString] only: at the
    segment the pattern selects. *)
Lemma parseReadWriteBytes_FindString d statsFile :
  parseReadWriteBytes (pattern d) statsFile =
  parseReadWriteBytes (pattern d) (segment (token d) statsFile).
Proof.
  unfold parseReadWriteBytes. rewrite compile_pattern. simpl.
  rewrite !FindString_segment by apply token_nonempty.
  by rewrite segment_idem by apply token_nonempty.
Qed.

Lemma parseReadWriteBytes_absent d statsFile :
  occurs (token d) statsFile = false →
  parseReadWriteBytes (pattern d) statsFile = Ok ∅.
Proof.
  intros H. unfold parseReadWriteBytes. rewrite compile_pattern. simpl.
  rewrite FindString_segment by apply token_nonempty.
  by rewrite segment_absent.
Qed.

(** From the segment, its fields and their values to the result. *)
Lemma parseReadWriteBytes_fields d statsFile line f0 n1 f2 f3 n4 n5 n6 extra
    v1 v4 v5 v6 :
  segment (token d) statsFile = line →
  line ≠ "" →
  Regexp_Split [(AByte " "%char, RPlus)] line
  = f0 :: n1 :: f2 :: f3 :: n4 :: n5 :: n6 :: extra →
  strconv_ParseUint n1 = inr v1 →
  strconv_ParseUint n4 = inr v4 →
  strconv_ParseUint n5 = inr v5 →
  strconv_ParseUint n6 = inr v6 →
  parseReadWriteBytes (pattern d) statsFile = Ok (statistics v1 v4 v5 v6).
Proof.
  intros Hseg Hne Hsplit H1 H4 H5 H6.
  unfold parseReadWriteBytes. rewrite compile_pattern. cbn [of_sum result_bind].
  rewrite FindString_segment by apply token_nonempty. rewrite Hseg.
  destruct line as [|c line]; [done|].
  cbn [String.length Nat.eqb]. rewrite compile_spaces. cbn [of_sum result_bind].
  rewrite Hsplit.
  change (at_index (f0 :: n1 :: f2 :: f3 :: n4 :: n5 :: n6 :: extra) 1) with (Ok n1).
  change (at_index (f0 :: n1 :: f2 :: f3 :: n4 :: n5 :: n6 :: extra) 4) with (Ok n4).
  change (at_index (f0 :: n1 :: f2 :: f3 :: n4 :: n5 :: n6 :: extra) 5) with (Ok n5).
  change (at_index (f0 :: n1 :: f2 :: f3 :: n4 :: n5 :: n6 :: extra) 6) with (Ok n6).
  cbn [result_bind]. rewrite H1. cbn [of_sum result_bind].
  rewrite H4. cbn [of_sum result_bind]. rewrite H5. cbn [of_sum result_bind].
  by rewrite H6.
Qed.

(** ** Slices *)

Lemma at_index_last {A} (l : list A) (x y : A) :
  at_index (l ++ [x; y]) (Z.of_nat (length (l ++ [x; y])) - 1) = Ok y.
Proof.
  unfold at_index. rewrite length_app. simpl length.
  destruct (Z.ltb_spec (Z.of_nat (length l + 2) - 1) 0) as [?|_]; [lia|].
  replace (Z.to_nat (Z.of_nat (length l + 2) - 1)) with (length l + 1) by lia.
  rewrite lookup_app_r by lia.
  by replace (length l + 1 - length l) with 1 by lia.
Qed.

Lemma at_index_before_last {A} (l : list A) (x y : A) :
  at_index (l ++ [x; y]) (Z.of_nat (length (l ++ [x; y])) - 2) = Ok x.
Proof.
  unfold at_index. rewrite length_app. simpl length.
  destruct (Z.ltb_spec (Z.of_nat (length l + 2) - 2) 0) as [?|_]; [lia|].
  replace (Z.to_nat (Z.of_nat (length l + 2) - 2)) with (length l + 0) by lia.
  rewrite lookup_app_r by lia.
  by replace (length l + 0 - length l) with 0 by lia.
Qed.

(** ** Worlds and loops *)

Lemma world_eta w : {| fs := fs w; ch := ch w ++ [] |} = w.
Proof. destruct w. simpl. by rewrite app_nil_r. Qed.

Lemma for_each_app {A} (l1 l2 : list A) (body : A → M unit) w :
  for_each (l1 ++ l2) body w =
  match for_each l1 body w with
  | (Ok _, w1) => for_each l2 body w1
  | (Err e, w1) => (Err e, w1)
  | (Crash p, w1) => (Crash p, w1)
  end.
Proof.
  revert w. induction l1 as [|x l1 IH]; intros w; [done|].
  simpl. unfold bind. destruct (body x w) as [[[]|e|p] w1]; [apply IH | done..].
Qed.

Lemma succeeds_for_each {A} (l : list A) (body : A → M unit) :
  (∀ x, succeeds (body x)) → succeeds (for_each l body).
Proof.
  intros Hbody. induction l as [|x l IH]; intros w; simpl.
  - exists tt, []. unfold ret. by rewrite world_eta.
  - unfold bind. destruct (Hbody x w) as ([] & l1 & ->).
    destruct (IH {| fs := fs w; ch := ch w ++ l1 |}) as ([] & l2 & ->).
    exists tt, (l1 ++ l2). simpl. by rewrite <- app_assoc.
Qed.

Lemma sends_only_for_each {A} (l : list A) (body : A → M unit) :
  (∀ x, sends_only (body x)) → sends_only (for_each l body).
Proof.
  intros Hbody. induction l as [|x l IH]; intros w; simpl.
  - exists (Ok tt), []. unfold ret. by rewrite world_eta.
  - unfold bind. destruct (Hbody x w) as (r & l1 & ->).
    destruct r as [[]|e|p]; [|by eexists _, _..].
    destruct (IH {| fs := fs w; ch := ch w ++ l1 |}) as (r & l2 & ->).
    exists r, (l1 ++ l2). simpl. by rewrite <- app_assoc.
Qed.

Lemma quiet_sends_only {A} (m : M A) : quiet_on_failure m → sends_only m.
Proof. intros H w. destruct (H w) as (r & l & -> & _). by eexists _, _. Qed.

(** ** [parseFile] *)

(** A path without a slash has one component. *)
Lemma parseFile_one_component s nodeType metricType path helpText handler w :
  length (strings_Split path "/") < 2 →
  parseFile s nodeType metricType path helpText handler w
  = (Crash (IndexOutOfRange (-1) 1), w).
Proof.
  intros Hlen. unfold parseFile.
  pose proof (strings_Split_length path "/") as Hge.
  destruct (strings_Split path "/") as [|x [|y l]]; simpl in *; [lia | done | lia].
Qed.

(** With two components or more, the last one is the name of the metric
    and the one before it the name of the node. *)
Lemma parseFile_components s nodeType metricType path helpText handler
    elems nodeName leaf w :
  strings_Split path "/" = elems ++ [nodeName; leaf] →
  parseFile s nodeType metricType path helpText handler w =
  (if String.eqb metricType "single" then
     value ← ioutil_ReadFile path;
     convertedValue ← lift (of_sum (strconv_ParseUint (strings_TrimSpace value)));
     handler nodeType nodeName leaf helpText convertedValue
   else if String.eqb metricType "stats" then
     metricMap ← parseStatsFile path;
     for_each (map_to_list metricMap) (λ '(statType, statMap),
       for_each (map_to_list statMap) (λ '(key, metricMap),
         let metricName := statType +:+ "_" +:+ key in
         for_each (map_to_list metricMap) (λ '(detailedHelp, value),
           handler nodeType nodeName metricName detailedHelp value)))
   else ret tt)%M w.
Proof.
  intros Hsplit. unfold parseFile. rewrite Hsplit.
  destruct (Z.ltb_spec (Z.of_nat (length (elems ++ [nodeName; leaf]))) 1) as [H|_].
  { rewrite length_app in H. simpl in H. lia. }
  unfold bind at 1. unfold lift at 1. rewrite at_index_last.
  unfold bind at 1. unfold lift at 1. rewrite at_index_before_last.
  done.
Qed.

Lemma split_components path :
  2 ≤ length (strings_Split path "/") →
  ∃ elems nodeName leaf, strings_Split path "/" = elems ++ [nodeName; leaf].
Proof.
  intros H. destruct (strings_Split path "/") as [|x l] using rev_ind; [simpl in H; lia|].
  destruct l as [|y l _] using rev_ind.
  { simpl in H. lia. }
  exists l, y, x. by rewrite <- app_assoc.
Qed.

Lemma parseStatsFile_reads path w : ∃ r, parseStatsFile path w = (r, w).
Proof.
  unfold parseStatsFile, bind, ioutil_ReadFile, lift, ret.
  destruct (ReadFile (fs w) path) as [e|statsFile]; simpl; [by eexists|].
  destruct (parseReadWriteBytes "read_bytes .*" statsFile); [|by eexists..].
  destruct (parseReadWriteBytes "write_bytes .*" statsFile); by eexists.
Qed.

Ltac quiet_failure :=
  eexists _, []; split; [by rewrite world_eta | done].

Lemma parseFile_quiet s nodeType metricType path helpText (handler : Handler) :
  (∀ a b c d v, succeeds (handler a b c d v)) →
  quiet_on_failure (parseFile s nodeType metricType path helpText handler).
Proof.
  intros Hh w.
  destruct (Nat.lt_ge_cases (length (strings_Split path "/")) 2) as [Hlen|Hlen].
  { rewrite parseFile_one_component by done. quiet_failure. }
  destruct (split_components _ Hlen) as (elems & nodeName & leaf & Hsplit).
  rewrite (parseFile_components _ _ _ _ _ _ _ _ _ _ Hsplit).
  destruct (String.eqb metricType "single").
  - unfold bind, ioutil_ReadFile, lift.
    destruct (ReadFile (fs w) path) as [e|value]; simpl; [quiet_failure|].
    destruct (strconv_ParseUint (strings_TrimSpace value)) as [e|v]; simpl;
      [quiet_failure|].
    destruct (Hh nodeType nodeName leaf helpText v w) as ([] & l & ->).
    eexists _, l. split; [done|]. intros H. by destruct (H tt).
  - destruct (String.eqb metricType "stats").
    + unfold bind at 1. destruct (parseStatsFile_reads path w) as [r ->].
      destruct r as [metricMap|e|p]; [|quiet_failure..].
      edestruct (succeeds_for_each (map_to_list metricMap)) as ([] & l & ->).
      2:{ eexists _, l. split; [done|]. intros H. by destruct (H tt). }
      intros [statType statMap]. apply succeeds_for_each.
      intros [key metricMap']. apply succeeds_for_each.
      intros [detailedHelp value]. apply Hh.
    + exists (Ok tt), []. unfold ret. split; [by rewrite world_eta|].
      intros H. by destruct (H tt).
Qed.

Lemma emit_succeeds ns s a b c d v : succeeds (emit ns s a b c d v).
Proof. intros w. by exists tt, [constMetric ns s a b c d v]. Qed.

Lemma resolve_reads s metric w :
  resolve s metric w
  = (of_sum (Glob (fs w) (filepath_Join [basePath s; path metric; name metric])), w).
Proof. done. Qed.

Lemma Update_path_quiet ns s metric p : quiet_on_failure (Update_path ns s metric p).
Proof. apply parseFile_quiet, emit_succeeds. Qed.

Lemma Update_metric_sends ns s metric : sends_only (Update_metric ns s metric).
Proof.
  intros w. unfold Update_metric, bind. rewrite resolve_reads.
  destruct (Glob _ _) as [e|paths]; simpl.
  - exists (Err e), []. by rewrite world_eta.
  - destruct paths as [|p paths].
    + exists (Ok tt), []. unfold ret. by rewrite world_eta.
    + apply (sends_only_for_each (p :: paths)).
      intros x. apply quiet_sends_only, Update_path_quiet.
Qed.

Lemma Update_sends ns s : sends_only (Update ns s).
Proof. apply sends_only_for_each. intros m. apply Update_metric_sends. Qed.

(** ** A path with fewer than two components *)

(** X19. The guard of [parseFile] tests for fewer than one component,
    which [strings.Split] never returns, so a path with exactly one
    component passes it and the lookup of the node name, at index [-1],
    panics.  The call returns no error value: it crashes, whatever the
    metric type, the handler and the file system.  This is what a call
    of [parseFile] does; the paths [Update] resolves have two components
    at least. *)
Theorem parseFile_one_component_crashes s nodeType metricType path helpText
    (handler : Handler) w :
  length (strings_Split path "/") < 2 →
  parseFile s nodeType metricType path helpText handler w
  = (Crash (IndexOutOfRange (-1) 1), w)
  ∧ ∀ e, (parseFile s nodeType metricType path helpText handler w).1 ≠ Err e.
Proof.
  intros Hlen. rewrite parseFile_one_component by done. by split.
Qed.

Lemma parseFile_one_component_crashes_witness :
  parseFile {| lustreProcMetrics := []; basePath := "" |} "OSS" "single" "stats"
    "A collection of statistics" (emit "lustre" {| lustreProcMetrics := []; basePath := "" |})
    {| fs := table_fs ∅ {[ "stats" := "7" ]}; ch := [] |}
  = (Crash (IndexOutOfRange (-1) 1),
     {| fs := table_fs ∅ {[ "stats" := "7" ]}; ch := [] |})
  ∧ ∀ e, (parseFile {| lustreProcMetrics := []; basePath := "" |} "OSS" "single"
            "stats" "A collection of statistics"
            (emit "lustre" {| lustreProcMetrics := []; basePath := "" |})
            {| fs := table_fs ∅ {[ "stats" := "7" ]}; ch := [] |}).1 ≠ Err e.
Proof.
  apply parseFile_one_component_crashes. vm_compute. lia.
Defined.

(** ** C2: a matched line with fewer than seven fields *)

(** C2. The claim: a matched line with fewer than seven fields makes
    statistics parsing return an error.  What the code does:
    [parseReadWriteBytes] reads the fields 1, 4, 5 and 6 of the split
    line without looking at how many there are.  Whenever the matched
    line has fewer than seven fields and those of the four that are
    there are numbers, the function panics on the first missing field;
    it returns no error. *)
Theorem parseReadWriteBytes_short_line_crashes d statsFile fields :
  segment (token d) statsFile ≠ "" →
  Regexp_Split [(AByte " "%char, RPlus)] (segment (token d) statsFile) = fields →
  length fields < 7 →
  (∀ i field, i ∈ [1; 4; 5; 6] → fields !! i = Some field →
              ∃ v, strconv_ParseUint field = inr v) →
  ∃ i, parseReadWriteBytes (pattern d) statsFile
       = Crash (IndexOutOfRange i (Z.of_nat (length fields))).
Proof.
  intros Hseg Hsplit Hlen Hnum.
  unfold parseReadWriteBytes. rewrite compile_pattern. simpl.
  rewrite FindString_segment by apply token_nonempty.
  destruct (segment (token d) statsFile) as [|c seg] eqn:E; [done|].
  simpl String.length. simpl Nat.eqb. cbv iota.
  rewrite Hsplit. clear Hsplit E Hseg.
  assert (∀ i field, i ∈ [1; 4; 5; 6] → fields !! i = Some field →
            ∀ B (k : N → result B),
              result_bind (of_sum (strconv_ParseUint field)) k
              = k (match strconv_ParseUint field with inr v => v | inl _ => 0%N end))
    as Hk.
  { intros i field Hi Hf B k. destruct (Hnum i field Hi Hf) as [v ->]. done. }
  destruct fields as [|f0 [|f1 [|f2 [|f3 [|f4 [|f5 [|f6 fields]]]]]]];
    simpl in Hlen; try lia.
  - by exists 1%Z.
  - by exists 1%Z.
  - exists 4%Z. simpl. by rewrite (Hk 1 f1) by (set_solver || done).
  - exists 4%Z. simpl. by rewrite (Hk 1 f1) by (set_solver || done).
  - exists 4%Z. simpl. by rewrite (Hk 1 f1) by (set_solver || done).
  - exists 5%Z. simpl.
    by rewrite (Hk 1 f1), (Hk 4 f4) by (set_solver || done).
  - exists 6%Z. simpl.
    by rewrite (Hk 1 f1), (Hk 4 f4), (Hk 5 f5) by (set_solver || done).
Qed.

Lemma parseReadWriteBytes_short_line_crashes_witness :
  ∃ i, parseReadWriteBytes (pattern Read) "read_bytes 3 samples"
       = Crash (IndexOutOfRange i (Z.of_nat (length ["read_bytes"; "3"; "samples"]))).
Proof.
  apply (parseReadWriteBytes_short_line_crashes Read "read_bytes 3 samples"
           ["read_bytes"; "3"; "samples"]).
  - vm_compute. discriminate.
  - vm_compute. reflexivity.
  - vm_compute. lia.
  - intros i field Hi Hf.
    assert (i = 1 ∧ field = "3") as [-> ->].
    { repeat (apply elem_of_cons in Hi as [-> | Hi]); try discriminate.
      - by inversion Hf.
      - by apply elem_of_nil in Hi. }
    exists 3%N. vm_compute. reflexivity.
Defined.

(** ** The loops of [Update] *)

Lemma Update_metric_paths ns s metric w paths :
  Glob (fs w) (filepath_Join [basePath s; path metric; name metric]) = inr paths →
  Update_metric ns s metric w = for_each paths (Update_path ns s metric) w.
Proof.
  intros H. unfold Update_metric, bind. rewrite resolve_reads, H. simpl.
  by destruct paths.
Qed.

Lemma Update_metric_error ns s metric w e :
  Glob (fs w) (filepath_Join [basePath s; path metric; name metric]) = inl e →
  Update_metric ns s metric w = (Err e, w).
Proof.
  intros H. unfold Update_metric, bind. by rewrite resolve_reads, H.
Qed.

(** The scrape up to a descriptor [m], then [m], then the rest. *)
Lemma Update_at ns s ms1 m ms2 w w1 :
  lustreProcMetrics s = ms1 ++ m :: ms2 →
  for_each ms1 (Update_metric ns s) w = (Ok tt, w1) →
  Update ns s w =
  match Update_metric ns s m w1 with
  | (Ok _, w2) => for_each ms2 (Update_metric ns s) w2
  | (Err e, w2) => (Err e, w2)
  | (Crash p, w2) => (Crash p, w2)
  end.
Proof.
  intros Hs H1. unfold Update. rewrite Hs, for_each_app, H1. simpl.
  unfold bind. by destruct (Update_metric ns s m w1) as [[[]|e|p] w2].
Qed.

(** ** The scrape stops at the first error *)

(** X20. Let the scrape have gone through the descriptors [ms1] and,
    for the descriptor [m], through the matched paths [ps1] without an
    error, reaching the world [w2]; let parsing the next matched path
    [p] return the error [e].  Then [Update] returns [e] and stops in
    [w2]: the channel holds what was sent before [p] and nothing else,
    so [p], the later paths [ps2] and the later descriptors [ms2] send
    nothing. *)
Theorem Update_fail_fast ns s ms1 m ms2 ps1 p ps2 e w w1 w2 w3 :
  lustreProcMetrics s = ms1 ++ m :: ms2 →
  for_each ms1 (Update_metric ns s) w = (Ok tt, w1) →
  Glob (fs w1) (filepath_Join [basePath s; path m; name m]) = inr (ps1 ++ p :: ps2) →
  for_each ps1 (Update_path ns s m) w1 = (Ok tt, w2) →
  Update_path ns s m p w2 = (Err e, w3) →
  Update ns s w = (Err e, w2) ∧ w3 = w2.
Proof.
  intros Hs H1 Hglob H2 H3.
  assert (w3 = w2) as ->.
  { destruct (Update_path_quiet ns s m p w2) as (r & l & Hr & Hl).
    rewrite H3 in Hr. injection Hr as <- ->.
    rewrite Hl by done. apply world_eta. }
  split; [|done].
  rewrite (Update_at _ _ _ _ _ _ _ Hs H1), (Update_metric_paths _ _ _ _ _ Hglob).
  rewrite for_each_app, H2. simpl. unfold bind. by rewrite H3.
Qed.

Lemma Update_fail_fast_witness :
  Update "lustre" oss_source {| fs := three_targets; ch := [] |}
  = (Err (NumError "ParseUint" "abc" ErrSyntax),
     {| fs := three_targets;
        ch := [constMetric "lustre" oss_source "OSS" "ost1" "kbytesfree"
                 "Number of kilobytes allocated to the pool" 11] |})
  ∧ {| fs := three_targets;
       ch := [constMetric "lustre" oss_source "OSS" "ost1" "kbytesfree"
                "Number of kilobytes allocated to the pool" 11] |}
    = {| fs := three_targets;
         ch := [constMetric "lustre" oss_source "OSS" "ost1" "kbytesfree"
                  "Number of kilobytes allocated to the pool" 11] |}.
Proof.
  apply (Update_fail_fast "lustre" oss_source [] kbytesfree []
           ["/proc/fs/lustre/obdfilter/ost1/kbytesfree"]
           "/proc/fs/lustre/obdfilter/ost2/kbytesfree"
           ["/proc/fs/lustre/obdfilter/ost3/kbytesfree"]
           (NumError "ParseUint" "abc" ErrSyntax)
           {| fs := three_targets; ch := [] |}
           {| fs := three_targets; ch := [] |});
    vm_compute; reflexivity.
Defined.

(** ** The statistics blob *)

(** The order in which the model ranges over the maps of the program;
    Go leaves it unspecified, and the statements of the claims do not
    depend on it. *)
Lemma map_to_list_four (x1 x2 x3 x4 : gmap string N) :
  map_to_list
    (<["total_bytes" := x4]>
       (<["maximum_size_bytes" := x3]>
          (<["minimum_size_bytes" := x2]>
             (<["samples_total" := x1]> (∅ : gmap string (gmap string N))))))
  = [ ("samples_total", x1); ("minimum_size_bytes", x2);
      ("maximum_size_bytes", x3); ("total_bytes", x4) ].
Proof. vm_compute. reflexivity. Qed.

Lemma map_to_list_statistics a b c d :
  map_to_list (statistics a b c d)
  = [ ("samples_total", {[ samplesHelp := a ]});
      ("minimum_size_bytes", {[ minimumHelp := b ]});
      ("maximum_size_bytes", {[ maximumHelp := c ]});
      ("total_bytes", {[ totalHelp := d ]}) ].
Proof. exact (map_to_list_four _ _ _ _). Qed.

Lemma map_to_list_directions (rm wm : gmap string (gmap string N)) :
  map_to_list (<["write" := wm]> (<["read" := rm]>
                 (∅ : gmap string (gmap string (gmap string N)))))
  = [("write", wm); ("read", rm)].
Proof. vm_compute. reflexivity. Qed.

Lemma emit_direction_empty ns s nodeType nodeName statType w :
  emit_direction ns s nodeType nodeName statType ∅ w = (Ok tt, w).
Proof. unfold emit_direction. by rewrite map_to_list_empty. Qed.

Lemma emit_direction_statistics ns s nodeType nodeName statType a b c d w :
  emit_direction ns s nodeType nodeName statType (statistics a b c d) w
  = (Ok tt,
     {| fs := fs w;
        ch := ch w ++
          [ constMetric ns s nodeType nodeName (statType +:+ "_samples_total")
              samplesHelp a;
            constMetric ns s nodeType nodeName (statType +:+ "_minimum_size_bytes")
              minimumHelp b;
            constMetric ns s nodeType nodeName (statType +:+ "_maximum_size_bytes")
              maximumHelp c;
            constMetric ns s nodeType nodeName (statType +:+ "_total_bytes")
              totalHelp d ] |}).
Proof.
  unfold emit_direction. rewrite map_to_list_statistics. cbn [for_each].
  rewrite !map_to_list_singleton. cbn [for_each].
  unfold bind, emit, send, ret. simpl. by rewrite <- !app_assoc.
Qed.

Lemma parseStatsFile_Ok path w statsFile rm wm :
  ReadFile (fs w) path = inr statsFile →
  parseReadWriteBytes (pattern Read) statsFile = Ok rm →
  parseReadWriteBytes (pattern Write) statsFile = Ok wm →
  parseStatsFile path w = (Ok (<["write" := wm]> (<["read" := rm]> ∅)), w).
Proof.
  intros Hfile Hr Hw. unfold parseStatsFile, bind, ioutil_ReadFile, lift, ret.
  rewrite Hfile. simpl.
  change "read_bytes .*" with (pattern Read).
  change "write_bytes .*" with (pattern Write).
  by rewrite Hr, Hw.
Qed.

Lemma parseFile_stats ns s nodeType path helpText elems nodeName leaf w
    statsFile rm wm :
  strings_Split path "/" = elems ++ [nodeName; leaf] →
  ReadFile (fs w) path = inr statsFile →
  parseReadWriteBytes (pattern Read) statsFile = Ok rm →
  parseReadWriteBytes (pattern Write) statsFile = Ok wm →
  parseFile s nodeType "stats" path helpText (emit ns s) w
  = bind (emit_direction ns s nodeType nodeName "write" wm)
      (λ _, emit_direction ns s nodeType nodeName "read" rm) w.
Proof.
  intros Hsplit Hfile Hr Hw.
  rewrite (parseFile_components _ _ _ _ _ _ _ _ _ _ Hsplit).
  change (String.eqb "stats" "single") with false.
  change (String.eqb "stats" "stats") with true.
  cbv iota. unfold bind at 1.
  rewrite (parseStatsFile_Ok _ _ _ _ _ Hfile Hr Hw).
  rewrite map_to_list_directions. cbn [for_each].
  unfold bind, emit_direction, ret.
  destruct (for_each (map_to_list wm) _ w) as [[[]|e|p] w1]; [|done..].
  by destruct (for_each (map_to_list rm) _ w1) as [[[]|e|p] w2].
Qed.

(** ** C4: a blob with both lines *)

(** C4. For a file that holds the line
    [read_bytes 3 samples [bytes] 10 100 150] and the line
    [write_bytes 2 samples [bytes] 5 50 55], at any path with a node
    name, [parseFile] succeeds and sends exactly eight metrics: the
    samples, the minimum, the maximum and the total of each direction,
    each with the help text of its statistic. *)
Theorem parseFile_stats_both_directions ns s nodeType path helpText
    elems nodeName leaf w :
  strings_Split path "/" = elems ++ [nodeName; leaf] →
  ReadFile (fs w) path = inr both_directions →
  ∃ sent,
    parseFile s nodeType "stats" path helpText (emit ns s) w
    = (Ok tt, {| fs := fs w; ch := ch w ++ sent |})
    ∧ length sent = 8
    ∧ sent ≡ₚ
      [ constMetric ns s nodeType nodeName "read_samples_total" samplesHelp 3;
        constMetric ns s nodeType nodeName "read_minimum_size_bytes" minimumHelp 10;
        constMetric ns s nodeType nodeName "read_maximum_size_bytes" maximumHelp 100;
        constMetric ns s nodeType nodeName "read_total_bytes" totalHelp 150;
        constMetric ns s nodeType nodeName "write_samples_total" samplesHelp 2;
        constMetric ns s nodeType nodeName "write_minimum_size_bytes" minimumHelp 5;
        constMetric ns s nodeType nodeName "write_maximum_size_bytes" maximumHelp 50;
        constMetric ns s nodeType nodeName "write_total_bytes" totalHelp 55 ].
Proof.
  intros Hsplit Hfile.
  assert (parseReadWriteBytes (pattern Read) both_directions
          = Ok (statistics 3 10 100 150)) as Hr
    by (eapply parseReadWriteBytes_fields; [vm_compute; reflexivity | done
                                          | vm_compute; reflexivity..]).
  assert (parseReadWriteBytes (pattern Write) both_directions
          = Ok (statistics 2 5 50 55)) as Hw
    by (eapply parseReadWriteBytes_fields; [vm_compute; reflexivity | done
                                          | vm_compute; reflexivity..]).
  rewrite (parseFile_stats _ _ _ _ _ _ _ _ _ _ _ _ Hsplit Hfile Hr Hw).
  unfold bind. rewrite !emit_direction_statistics. simpl.
  eexists. split; [by rewrite <- app_assoc|]. split; [done|].
  apply (Permutation_app_comm [_; _; _; _] [_; _; _; _]).
Qed.

Lemma parseFile_stats_both_directions_witness :
  ∃ sent,
    parseFile oss_source "OSS" "stats" "/proc/fs/lustre/obdfilter/ost1/stats"
      "A collection of statistics specific to Lustre" (emit "lustre" oss_source)
      {| fs := table_fs ∅ {[ "/proc/fs/lustre/obdfilter/ost1/stats" := both_directions ]};
         ch := [] |}
    = (Ok tt,
       {| fs := table_fs ∅ {[ "/proc/fs/lustre/obdfilter/ost1/stats" := both_directions ]};
          ch := [] ++ sent |})
    ∧ length sent = 8
    ∧ sent ≡ₚ
      [ constMetric "lustre" oss_source "OSS" "ost1" "read_samples_total" samplesHelp 3;
        constMetric "lustre" oss_source "OSS" "ost1" "read_minimum_size_bytes" minimumHelp 10;
        constMetric "lustre" oss_source "OSS" "ost1" "read_maximum_size_bytes" maximumHelp 100;
        constMetric "lustre" oss_source "OSS" "ost1" "read_total_bytes" totalHelp 150;
        constMetric "lustre" oss_source "OSS" "ost1" "write_samples_total" samplesHelp 2;
        constMetric "lustre" oss_source "OSS" "ost1" "write_minimum_size_bytes" minimumHelp 5;
        constMetric "lustre" oss_source "OSS" "ost1" "write_maximum_size_bytes" maximumHelp 50;
        constMetric "lustre" oss_source "OSS" "ost1" "write_total_bytes" totalHelp 55 ].
Proof.
  apply (parseFile_stats_both_directions "lustre" oss_source "OSS"
           "/proc/fs/lustre/obdfilter/ost1/stats"
           "A collection of statistics specific to Lustre"
           [""; "proc"; "fs"; "lustre"; "obdfilter"] "ost1" "stats"
           {| fs := table_fs ∅ {[ "/proc/fs/lustre/obdfilter/ost1/stats" := both_directions ]};
              ch := [] |});
    vm_compute; reflexivity.
Defined.

(** ** C7: the scalar grammar *)

(** C7. A file that holds [42] and a newline parses to one metric of
    value 42; a file that holds [abc] makes [parseFile] return the
    syntax error of [strconv.ParseUint], and nothing is sent. *)
Theorem parseFile_single ns s nodeType path helpText elems nodeName leaf w :
  strings_Split path "/" = elems ++ [nodeName; leaf] →
  (ReadFile (fs w) path = inr ("42" +:+ nl) →
   parseFile s nodeType "single" path helpText (emit ns s) w
   = (Ok tt,
      {| fs := fs w;
         ch := ch w ++ [constMetric ns s nodeType nodeName leaf helpText 42] |}))
  ∧ (ReadFile (fs w) path = inr "abc" →
     parseFile s nodeType "single" path helpText (emit ns s) w
     = (Err (NumError "ParseUint" "abc" ErrSyntax), w)).
Proof.
  intros Hsplit. split; intros Hfile;
    rewrite (parseFile_components _ _ _ _ _ _ _ _ _ _ Hsplit);
    change (String.eqb "single" "single") with true; cbv iota;
    unfold bind, ioutil_ReadFile; rewrite Hfile; done.
Qed.

Lemma parseFile_single_witness :
  parseFile oss_source "OSS" "single" "/proc/fs/lustre/obdfilter/ost1/kbytesfree"
    "Number of kilobytes allocated to the pool" (emit "lustre" oss_source)
    {| fs := table_fs ∅ {[ "/proc/fs/lustre/obdfilter/ost1/kbytesfree" := "42" +:+ nl ]};
       ch := [] |}
  = (Ok tt,
     {| fs := table_fs ∅ {[ "/proc/fs/lustre/obdfilter/ost1/kbytesfree" := "42" +:+ nl ]};
        ch := [constMetric "lustre" oss_source "OSS" "ost1" "kbytesfree"
                 "Number of kilobytes allocated to the pool" 42] |})
  ∧ parseFile oss_source "OSS" "single" "/proc/fs/lustre/obdfilter/ost1/kbytesfree"
      "Number of kilobytes allocated to the pool" (emit "lustre" oss_source)
      {| fs := table_fs ∅ {[ "/proc/fs/lustre/obdfilter/ost1/kbytesfree" := "abc" ]};
         ch := [] |}
    = (Err (NumError "ParseUint" "abc" ErrSyntax),
       {| fs := table_fs ∅ {[ "/proc/fs/lustre/obdfilter/ost1/kbytesfree" := "abc" ]};
          ch := [] |}).
Proof.
  split.
  - apply (parseFile_single "lustre" oss_source "OSS"
             "/proc/fs/lustre/obdfilter/ost1/kbytesfree"
             "Number of kilobytes allocated to the pool"
             [""; "proc"; "fs"; "lustre"; "obdfilter"] "ost1" "kbytesfree"
             {| fs := table_fs ∅
                        {[ "/proc/fs/lustre/obdfilter/ost1/kbytesfree" := "42" +:+ nl ]};
                ch := [] |});
      vm_compute; reflexivity.
  - apply (parseFile_single "lustre" oss_source "OSS"
             "/proc/fs/lustre/obdfilter/ost1/kbytesfree"
             "Number of kilobytes allocated to the pool"
             [""; "proc"; "fs"; "lustre"; "obdfilter"] "ost1" "kbytesfree"
             {| fs := table_fs ∅
                        {[ "/proc/fs/lustre/obdfilter/ost1/kbytesfree" := "abc" ]};
                ch := [] |});
      vm_compute; reflexivity.
Defined.

(** ** C6: which text a direction is read from *)

(** C6, as stated, fails.  The file [mid_line_blob] has one line, which
    does not start with [read_bytes]: the token stands inside it.  The
    pattern is not anchored to the start of a line, so the line is
    selected all the same and the four metrics of the read direction
    are sent. *)
Lemma token_inside_line_is_selected :
  lines_with_prefix (word Read) mid_line_blob = []
  ∧ parseReadWriteBytes (pattern Read) mid_line_blob
    = Ok (statistics 3 10 100 150)
  ∧ ∃ sent,
      parseFile oss_source "OSS" "stats" "/proc/fs/lustre/obdfilter/ost1/stats"
        "A collection of statistics specific to Lustre" (emit "lustre" oss_source)
        {| fs := table_fs ∅ {[ "/proc/fs/lustre/obdfilter/ost1/stats" := mid_line_blob ]};
           ch := [] |}
      = (Ok tt,
         {| fs := table_fs ∅ {[ "/proc/fs/lustre/obdfilter/ost1/stats" := mid_line_blob ]};
            ch := sent |})
      ∧ length sent = 4.
Proof.
  split; [by vm_compute|]. split.
  { eapply parseReadWriteBytes_fields;
      [vm_compute; reflexivity | done | vm_compute; reflexivity..]. }
  eexists. split; [vm_compute; reflexivity | done].
Qed.

(** C6, amended.  Each direction is read from one piece of the file:
    the text from the leftmost occurrence of its token, the name of the
    line followed by a space, to the end of the line the occurrence is
    on.  Where on its line the occurrence starts does not matter, and
    what comes after that line is not looked at.  A file in which the
    token does not occur gives the direction nothing. *)
Theorem parseReadWriteBytes_selection d statsFile :
  parseReadWriteBytes (pattern d) statsFile
  = parseReadWriteBytes (pattern d) (segment (token d) statsFile)
  ∧ (occurs (token d) statsFile = false →
     parseReadWriteBytes (pattern d) statsFile = Ok ∅)
  ∧ (∀ pre rest post,
       statsFile = pre +:+ token d +:+ rest +:+ post →
       occurs (token d) (pre +:+ word d) = false →
       occurs nl rest = false →
       post = "" ∨ (∃ post', post = nl +:+ post') →
       segment (token d) statsFile = token d +:+ rest).
Proof.
  split; [apply parseReadWriteBytes_FindString|].
  split; [apply parseReadWriteBytes_absent|].
  intros pre rest post -> Hpre Hrest Hpost.
  apply segment_leftmost; [done|].
  by apply line_of_app.
Qed.

Lemma parseReadWriteBytes_selection_witness :
  parseReadWriteBytes (pattern Write) read_only_blob = Ok ∅
  ∧ segment (token Read) mid_line_blob
    = token Read +:+ "3 samples [bytes] 10 100 150".
Proof.
  split.
  - apply (parseReadWriteBytes_selection Write read_only_blob). vm_compute. reflexivity.
  - apply (parseReadWriteBytes_selection Read mid_line_blob)
      with (pre := "cache ") (post := nl).
    + vm_compute. reflexivity.
    + vm_compute. reflexivity.
    + vm_compute. reflexivity.
    + right. exists "". vm_compute. reflexivity.
Defined.

(** ** C10: the value sent is a float *)

Lemma digits2_pos_size p : digits2_pos p = Pos.size p.
Proof. induction p as [p IH|p IH|]; simpl; by rewrite ?IH. Qed.

Lemma iter_xO_value p n : Zpos (Pos.iter xO p n) = (Zpos p * 2 ^ Zpos n)%Z.
Proof.
  induction n as [|n IH] using Pos.peano_ind.
  - simpl. lia.
  - rewrite Pos.iter_succ, Pos2Z.inj_xO, IH, Pos2Z.inj_succ.
    rewrite Z.pow_succ_r by lia. lia.
Qed.

Lemma iter_xO_digits p n :
  digits2_pos (Pos.iter xO p n) = (digits2_pos p + n)%positive.
Proof.
  induction n as [|n IH] using Pos.peano_ind.
  - simpl. lia.
  - rewrite Pos.iter_succ. simpl. rewrite IH. lia.
Qed.

(** A mantissa of 53 bits with an exponent in range is a float as it
    stands: rounding leaves it alone. *)
Lemma binary_round_aux_canonical m e :
  digits2_pos m = 53%positive → (-1074 ≤ e ≤ 971)%Z →
  binary_round_aux 53 1024 false (Zpos m) e loc_Exact = S754_finite false m e.
Proof.
  intros Hm He. unfold binary_round_aux, shr_fexp, fexp, emin.
  simpl Zdigits2. rewrite Hm.
  replace (Z.max (53 + e - 53) (3 - 1024 - 53) - e)%Z with 0%Z by lia.
  simpl. rewrite Hm.
  replace (Z.max (53 + e - 53) (3 - 1024 - 53) - e)%Z with 0%Z by lia.
  simpl. destruct (Z.leb_spec e (1024 - 53)); [done | lia].
Qed.

Lemma float64_of_small p :
  (Zpos p < 2 ^ 53)%Z →
  represents (float64_of_uint64 (Npos p)) (Zpos p).
Proof.
  intros Hp. unfold float64_of_uint64. simpl Z.of_N.
  unfold binary_normalize, binary_round, shl_align, fexp, emin.
  assert (Zpos (digits2_pos p) ≤ 53)%Z as Hd.
  { rewrite digits2_pos_size.
    pose proof (Pos.size_le p) as Hle.
    destruct (Z.le_gt_cases (Zpos (Pos.size p)) 53) as [|Hgt]; [done|].
    exfalso.
    assert (2 ^ 54 ≤ 2 ^ Zpos (Pos.size p))%Z by (apply Z.pow_le_mono_r; lia).
    assert (Zpos (2 ^ Pos.size p) ≤ Zpos p~0)%Z as H2 by exact Hle.
    rewrite Pos2Z.inj_pow in H2. lia. }
  replace (Z.max (Zpos (digits2_pos p) + 0 - 53) (3 - 1024 - 53) - 0)%Z
    with (Zpos (digits2_pos p) - 53)%Z by lia.
  destruct (Zpos (digits2_pos p) - 53)%Z as [|k|k] eqn:Ek; [| lia |].
  - replace (Z.max (Zpos (digits2_pos p) + 0 - 53) (3 - 1024 - 53))%Z with 0%Z by lia.
    rewrite binary_round_aux_canonical by (lia || done).
    simpl. lia.
  - replace (Z.max (Zpos (digits2_pos p) + 0 - 53) (3 - 1024 - 53))%Z
      with (Zneg k) by lia.
    rewrite binary_round_aux_canonical.
    + simpl. by rewrite iter_xO_value.
    + rewrite iter_xO_digits. lia.
    + lia.
Qed.

(** C10. The value of the metric sent is the parsed integer converted
    to a float.  The conversion is exact for every integer up to
    [2^53]; above, it can round: [2^53 + 1] is sent as [2^53]. *)
Theorem constMetric_value ns s nodeType nodeName metricName helpText value :
  val (constMetric ns s nodeType nodeName metricName helpText value)
  = float64_of_uint64 value
  ∧ ((value ≤ 2 ^ 53)%N →
     represents (val (constMetric ns s nodeType nodeName metricName helpText value))
       (Z.of_N value))
  ∧ ∃ big, (2 ^ 53 < big < 2 ^ 64)%N
      ∧ ¬ represents
            (val (constMetric ns s nodeType nodeName metricName helpText big))
            (Z.of_N big).
Proof.
  split; [done|]. split.
  - intros Hv. simpl val. destruct value as [|p]; [done|].
    destruct (N.eq_dec (Npos p) (2 ^ 53)%N) as [->|Hne]; [by vm_compute|].
    apply float64_of_small. lia.
  - exists (2 ^ 53 + 1)%N. split; [by vm_compute|]. by vm_compute.
Qed.

Lemma constMetric_value_witness :
  represents
    (val (constMetric "lustre" oss_source "OSS" "ost1" "kbytesfree"
            "Number of kilobytes allocated to the pool" 9007199254740991))
    (Z.of_N 9007199254740991).
Proof.
  apply (constMetric_value "lustre" oss_source "OSS" "ost1" "kbytesfree"
           "Number of kilobytes allocated to the pool" 9007199254740991).
  vm_compute. discriminate.
Defined.

(** * Further properties *)

(** ** Splitting a line on runs of spaces *)

Lemma substring_skip_app (a b : string) (i n : nat) :
  substring (String.length a + i) n (a +:+ b) = substring i n b.
Proof. induction a as [|x a IH]; [done|]. rewrite sapp_cons. simpl. apply IH. Qed.

Lemma substring_all (b : string) : substring 0 (String.length b) b = b.
Proof. induction b as [|x b IH]; [done|]. simpl. by rewrite IH. Qed.

Lemma slice_suffix (a b : string) :
  slice (a +:+ b) (String.length a) (String.length (a +:+ b)) = b.
Proof.
  unfold slice. rewrite sapp_length.
  replace (String.length a + String.length b - String.length a)
    with (String.length b) by lia.
  rewrite <- (Nat.add_0_r (String.length a)) at 1.
  by rewrite substring_skip_app, substring_all.
Qed.

Lemma slice_middle (a b c : string) :
  slice (a +:+ b +:+ c) (String.length a) (String.length a + String.length b) = b.
Proof.
  unfold slice.
  replace (String.length a + String.length b - String.length a)
    with (String.length b + 0) by lia.
  rewrite <- (Nat.add_0_r (String.length a)) at 1.
  rewrite substring_skip_app, substring_0_app. simpl.
  destruct c; by rewrite sapp_nil_r.
Qed.

Lemma match_star_spaces sep tail :
  all_bytes is_space sep = true → starts_field tail = true →
  match_star (AByte " "%char) (λ _, Some 0) (sep +:+ tail) = Some (String.length sep).
Proof.
  intros Hsep Htail. induction sep as [|c sep IH].
  - rewrite sapp_nil_l. destruct tail as [|c tail]; [done|].
    cbn [match_star atom_matches starts_field] in *.
    unfold is_space in Htail. by destruct (Ascii.eqb " " c).
  - rewrite sapp_cons. cbn [match_star atom_matches all_bytes String.length] in *.
    unfold is_space in Hsep at 1.
    destruct (Ascii.eqb " " c); [|done]. by rewrite IH.
Qed.

Lemma match_here_spaces sep tail :
  sep ≠ "" → all_bytes is_space sep = true → starts_field tail = true →
  match_here spaces_re (sep +:+ tail) = Some (String.length sep).
Proof.
  intros Hne Hsep Htail. destruct sep as [|c sep]; [done|].
  rewrite sapp_cons.
  cbn [match_here spaces_re atom_matches all_bytes String.length] in *.
  unfold is_space in Hsep at 1.
  destruct (Ascii.eqb " " c); [|done].
  by rewrite match_star_spaces.
Qed.

Lemma match_here_field c s :
  negb (is_space c) = true → match_here spaces_re (String c s) = None.
Proof.
  intros Hc. cbn [match_here spaces_re atom_matches].
  unfold is_space in Hc. by destruct (Ascii.eqb " " c).
Qed.

Lemma FindStringIndex_field f sep tail :
  all_bytes (λ c, negb (is_space c)) f = true →
  sep ≠ "" → all_bytes is_space sep = true → starts_field tail = true →
  Regexp_FindStringIndex spaces_re (f +:+ sep +:+ tail)
  = Some (String.length f, String.length f + String.length sep).
Proof.
  intros Hf Hne Hsep Htail. induction f as [|c f IH].
  - rewrite sapp_nil_l.
    pose proof (match_here_spaces sep tail Hne Hsep Htail) as H.
    destruct sep as [|x sep]; [done|].
    rewrite sapp_cons in *. cbn [Regexp_FindStringIndex]. by rewrite H.
  - rewrite sapp_cons. cbn [all_bytes] in Hf. apply andb_prop in Hf as [Hc Hf].
    cbn [Regexp_FindStringIndex].
    rewrite match_here_field by done. by rewrite IH.
Qed.

Lemma FindStringIndex_last_field f :
  all_bytes (λ c, negb (is_space c)) f = true →
  Regexp_FindStringIndex spaces_re f = None.
Proof.
  intros Hf. induction f as [|c f IH]; [done|].
  cbn [all_bytes] in Hf. apply andb_prop in Hf as [Hc Hf].
  cbn [Regexp_FindStringIndex].
  rewrite match_here_field by done. by rewrite IH.
Qed.

Lemma well_separated_field f0 rest :
  well_separated f0 rest = true → all_bytes (λ c, negb (is_space c)) f0 = true.
Proof. destruct rest; simpl; intros H; by apply andb_prop in H as [? _]. Qed.

Lemma starts_field_join f rest :
  f ≠ "" → well_separated f rest = true → starts_field (join_fields f rest) = true.
Proof.
  intros Hne Hw. apply well_separated_field in Hw.
  destruct f as [|c f]; [done|].
  cbn [all_bytes] in Hw. apply andb_prop in Hw as [Hc _].
  destruct rest as [|[sep f'] rest]; cbn [join_fields]; [done|].
  by rewrite sapp_cons.
Qed.

Lemma well_separated_cons f0 sep f rest :
  well_separated f0 ((sep, f) :: rest) = true →
  all_bytes (λ c, negb (is_space c)) f0 = true
  ∧ sep ≠ "" ∧ all_bytes is_space sep = true
  ∧ f ≠ "" ∧ well_separated f rest = true.
Proof.
  cbn [well_separated]. intros H.
  apply andb_prop in H as [Hf0 H]. apply andb_prop in H as [H Hw].
  apply andb_prop in H as [H Hf]. apply andb_prop in H as [Hne Hsep].
  repeat split; try done.
  - by intros ->.
  - by intros ->.
Qed.

Lemma doExecute_field before f sep tail :
  all_bytes (λ c, negb (is_space c)) f = true →
  sep ≠ "" → all_bytes is_space sep = true → starts_field tail = true →
  doExecute spaces_re (before +:+ f +:+ sep +:+ tail) (String.length before)
  = Some (String.length before + String.length f,
          String.length before + (String.length f + String.length sep)).
Proof.
  intros. unfold doExecute. by rewrite slice_suffix, FindStringIndex_field.
Qed.

Lemma doExecute_last_field before f :
  all_bytes (λ c, negb (is_space c)) f = true →
  doExecute spaces_re (before +:+ f) (String.length before) = None.
Proof.
  intros. unfold doExecute. by rewrite slice_suffix, FindStringIndex_last_field.
Qed.

Lemma length_ltb_prefix (a b : string) :
  (String.length (a +:+ b) <? String.length a) = false.
Proof. rewrite sapp_length. apply Nat.ltb_ge. lia. Qed.

(** The matches of a run of spaces in a well separated line are its
    separators. *)
Lemma allMatches_fields rest : ∀ fuel before f0 prev,
  well_separated f0 rest = true → length rest < fuel →
  allMatches_loop fuel spaces_re (before +:+ join_fields f0 rest)
    (String.length before) prev
  = matches_of (String.length before) f0 rest.
Proof.
  induction rest as [|[sep f] rest IH]; intros fuel before f0 prev Hw Hfuel;
    (destruct fuel as [|fuel]; [simpl in Hfuel; lia|]).
  - cbn [allMatches_loop join_fields matches_of].
    rewrite length_ltb_prefix, doExecute_last_field; [done|].
    by apply well_separated_field in Hw.
  - apply well_separated_cons in Hw as (Hf0 & Hne & Hsep & Hf & Hw).
    cbn [allMatches_loop join_fields matches_of].
    rewrite length_ltb_prefix.
    rewrite doExecute_field by (done || by apply starts_field_join).
    replace (String.length before + (String.length f0 + String.length sep)
             =? String.length before) with false.
    2:{ symmetry. apply Nat.eqb_neq. destruct sep; [done|]. simpl. lia. }
    cbn [andb negb app].
    rewrite Nat.add_assoc. f_equal.
    rewrite <- Nat.add_assoc.
    replace (String.length before + (String.length f0 + String.length sep))
      with (String.length (before +:+ f0 +:+ sep)) by (by rewrite !sapp_length).
    replace (before +:+ f0 +:+ sep +:+ join_fields f rest)
      with ((before +:+ f0 +:+ sep) +:+ join_fields f rest)
      by (by rewrite !sapp_assoc).
    apply IH; [done | simpl in Hfuel; lia].
Qed.

Lemma Split_fold_fields rest : ∀ before f0 tail acc e0,
  well_separated f0 rest = true →
  fold_left
    (λ '(strings, beg, end_) '(m0, m1),
       ((if (m1 =? 0)%nat then strings
         else (strings ++ [slice (before +:+ join_fields f0 rest +:+ tail) beg m0])%list),
        m1, m0))
    (matches_of (String.length before) f0 rest) (acc, String.length before, e0)
  = gathered acc (String.length before) e0 f0 rest.
Proof.
  induction rest as [|[sep f] rest IH]; intros before f0 tail acc e0 Hw; [done|].
  apply well_separated_cons in Hw as (Hf0 & Hne & Hsep & Hf & Hw).
  cbn [matches_of fold_left gathered join_fields].
  replace (String.length before + String.length f0 + String.length sep =? 0) with false.
  2:{ symmetry. apply Nat.eqb_neq. destruct sep; [done|]. simpl. lia. }
  rewrite sapp_assoc, slice_middle.
  replace (String.length before + String.length f0 + String.length sep)
    with (String.length (before +:+ f0 +:+ sep)) by (rewrite !sapp_length; lia).
  rewrite <- (IH (before +:+ f0 +:+ sep) f tail) by done.
  by rewrite !sapp_assoc.
Qed.

Lemma gathered_fields rest : ∀ acc before e0 f0,
  well_separated f0 rest = true →
  ∃ strings beg end_,
    gathered acc (String.length before) e0 f0 rest = (strings, beg, end_)
    ∧ (rest = [] → end_ = e0)
    ∧ (rest ≠ [] → end_ < String.length (before +:+ join_fields f0 rest))
    ∧ strings ++ [slice (before +:+ join_fields f0 rest) beg
                    (String.length (before +:+ join_fields f0 rest))]
      = acc ++ f0 :: map snd rest.
Proof.
  induction rest as [|[sep f] rest IH]; intros acc before e0 f0 Hw.
  - exists acc, (String.length before), e0. cbn [gathered join_fields map].
    by rewrite slice_suffix.
  - apply well_separated_cons in Hw as (Hf0 & Hne & Hsep & Hf & Hw).
    cbn [gathered join_fields map snd].
    destruct (IH (acc ++ [f0]) (before +:+ f0 +:+ sep)
                (String.length before + String.length f0) f Hw)
      as (strings & beg & end_ & Hg & Hnil & Hcons & Hfields).
    rewrite !sapp_length in Hg. rewrite Nat.add_assoc in Hg.
    rewrite !sapp_assoc in Hcons, Hfields.
    exists strings, beg, end_. split; [done|]. split; [done|]. split.
    + intros _. destruct rest as [|x rest].
      * rewrite Hnil by done. rewrite !sapp_length.
        destruct sep; [done|]. simpl. lia.
      * by apply Hcons.
    + by rewrite Hfields, <- app_assoc.
Qed.

Lemma join_fields_length f0 rest :
  well_separated f0 rest = true → length rest ≤ String.length (join_fields f0 rest).
Proof.
  revert f0. induction rest as [|[sep f] rest IH]; intros f0 Hw; simpl; [lia|].
  apply well_separated_cons in Hw as (_ & Hne & _ & _ & Hw).
  rewrite !sapp_length. specialize (IH f Hw).
  destruct sep; [done|]. simpl. lia.
Qed.

(** [Split] on runs of spaces gives back the fields of a well
    separated line. *)
Lemma Regexp_Split_fields f0 rest :
  well_separated f0 rest = true →
  Regexp_Split spaces_re (join_fields f0 rest) = f0 :: map snd rest.
Proof.
  intros Hw. unfold Regexp_Split, Regexp_FindAllStringIndex.
  destruct (Nat.eqb_spec (String.length (join_fields f0 rest)) 0) as [Hlen|Hlen].
  - pose proof (join_fields_length f0 rest Hw) as Hrest.
    destruct rest as [|x rest]; [|rewrite Hlen in Hrest; simpl in Hrest; lia].
    simpl in *. by destruct f0.
  - cbn [andb bool_decide]. rewrite andb_false_r.
    pose proof (allMatches_fields rest
                  (String.length (join_fields f0 rest) + 2) "" f0 None Hw) as Hm.
    rewrite sapp_nil_l in Hm. cbn [String.length] in Hm. rewrite Hm.
    2:{ pose proof (join_fields_length f0 rest Hw). lia. }
    pose proof (Split_fold_fields rest "" f0 "" [] 0 Hw) as Hfold.
    rewrite sapp_nil_l, sapp_nil_r in Hfold. cbn [String.length] in Hfold.
    rewrite Hfold.
    destruct (gathered_fields rest [] "" 0 f0 Hw)
      as (strings & beg & end_ & Hg & Hnil & Hcons & Hfields).
    rewrite sapp_nil_l in Hcons, Hfields. cbn [String.length] in Hg.
    rewrite Hg.
    replace (end_ =? String.length (join_fields f0 rest)) with false; [done|].
    symmetry. apply Nat.eqb_neq. destruct rest as [|x rest].
    + rewrite Hnil by done. lia.
    + specialize (Hcons ltac:(done)). lia.
Qed.

Lemma occurs_app_r sub a b : occurs sub (a +:+ b) = false → occurs sub b = false.
Proof.
  induction a as [|c a IH]; [done|]. rewrite sapp_cons, occurs_unfold.
  destruct (strip_prefix sub (String c (a +:+ b))); [done | exact IH].
Qed.

Lemma space_run_cons sep :
  sep ≠ "" → all_bytes is_space sep = true → ∃ sep', sep = String " "%char sep'.
Proof.
  intros Hne Hsep. destruct sep as [|c sep]; [done|]. exists sep.
  cbn [all_bytes] in Hsep. apply andb_prop in Hsep as [Hc _].
  unfold is_space in Hc. by apply Ascii.eqb_eq in Hc as <-.
Qed.

(** The segment a direction is read from is the line the file holds. *)
Lemma segment_holds_line d statsFile line n1 n4 n5 n6 :
  blob_line d line n1 n4 n5 n6 →
  holds_line d statsFile line →
  segment (token d) statsFile = line ∧ line ≠ "".
Proof.
  intros (sep1 & sep2 & f2 & sep3 & f3 & sep4 & sep5 & sep6 & extra
          & Hline & Hw & Hnl)
         (pre & post & -> & Hpre & Hpost).
  apply well_separated_cons in Hw as (_ & Hne & Hsep & _ & _).
  destruct (space_run_cons sep1 Hne Hsep) as [sep1' ->].
  assert (line = token d +:+ (sep1' +:+ join_fields n1
            ([(sep2, f2); (sep3, f3); (sep4, n4); (sep5, n5); (sep6, n6)] ++ extra)))
    as Htok.
  { rewrite Hline. cbn [join_fields app]. unfold token.
    by rewrite !sapp_assoc. }
  split; [|rewrite Htok; by destruct d].
  rewrite Htok at 1. rewrite sapp_assoc.
  rewrite (segment_leftmost (word d) " "%char); [exact (eq_sym Htok) | done |].
  apply line_of_app; [|done].
  rewrite Htok in Hnl. by apply occurs_app_r in Hnl.
Qed.

(** A line the file holds is split into its fields, and the four
    numbers are parsed in turn. *)
Lemma parseReadWriteBytes_line d statsFile line n1 n4 n5 n6 :
  blob_line d line n1 n4 n5 n6 →
  holds_line d statsFile line →
  parseReadWriteBytes (pattern d) statsFile
  = (samples ← of_sum (strconv_ParseUint n1);
     minimum ← of_sum (strconv_ParseUint n4);
     maximum ← of_sum (strconv_ParseUint n5);
     total ← of_sum (strconv_ParseUint n6);
     Ok (statistics samples minimum maximum total))%result.
Proof.
  intros Hblob Hholds.
  destruct (segment_holds_line _ _ _ _ _ _ _ Hblob Hholds) as [Hseg Hne].
  destruct Hblob as (sep1 & sep2 & f2 & sep3 & f3 & sep4 & sep5 & sep6 & extra
                     & Hline & Hw & Hnl).
  unfold parseReadWriteBytes. rewrite compile_pattern. cbn [of_sum result_bind].
  rewrite FindString_segment by apply token_nonempty. rewrite Hseg.
  destruct line as [|c line]; [done|].
  cbn [String.length Nat.eqb]. rewrite compile_spaces. cbn [of_sum result_bind].
  fold spaces_re. rewrite Hline, (Regexp_Split_fields _ _ Hw).
  done.
Qed.

(** ** Decimal numbers and [strconv.ParseUint] *)

Lemma is_digit_bounds c : is_digit c = true → (48 ≤ byte_of c ≤ 57)%N.
Proof.
  unfold is_digit. intros H. apply andb_prop in H as [H1 H2].
  apply N.leb_le in H1, H2. lia.
Qed.

Lemma decimal_from_ge n s : (n ≤ decimal_from n s)%N.
Proof.
  revert n. induction s as [|c s IH]; intros n; simpl; [lia|].
  specialize (IH (n * 10 + (byte_of c - 48))%N). lia.
Qed.

(** On digits, the loop of [ParseUint] computes the number they write,
    or reports that it does not fit in 64 bits. *)
Lemma parseUint_loop_digits s0 s : ∀ n,
  all_bytes is_digit s = true → (n < 2 ^ 64)%N →
  parseUint_loop s0 n s
  = if (decimal_from n s <? 2 ^ 64)%N then inr (decimal_from n s)
    else inl (NumError "ParseUint" s0 ErrRange).
Proof.
  change (2 ^ 64)%N with 18446744073709551616%N.
  induction s as [|c s IH]; intros n Hs Hn.
  - simpl. by destruct (N.ltb_spec n 18446744073709551616); [|lia].
  - cbn [all_bytes] in Hs. apply andb_prop in Hs as [Hc Hs].
    cbn [parseUint_loop decimal_from]. rewrite Hc.
    apply is_digit_bounds in Hc.
    pose proof (decimal_from_ge (n * 10 + (byte_of c - 48)) s) as Hge.
    change cutoff with 1844674407370955162%N.
    change maxUint64 with 18446744073709551615%N.
    change (2 ^ 64)%N with 18446744073709551616%N.
    destruct (N.leb_spec 1844674407370955162 n) as [Hcut|Hcut].
    { destruct (N.ltb_spec (decimal_from (n * 10 + (byte_of c - 48)) s)
                  18446744073709551616); [lia | done]. }
    destruct (N.lt_ge_cases (n * 10 + (byte_of c - 48)) 18446744073709551616)
      as [Hfit|Hover].
    + rewrite N.mod_small by done.
      destruct (N.ltb_spec (n * 10 + (byte_of c - 48)) (n * 10)); [lia|].
      destruct (N.ltb_spec 18446744073709551615 (n * 10 + (byte_of c - 48))); [lia|].
      cbn [orb]. by apply IH.
    + assert ((n * 10 + (byte_of c - 48)) mod 18446744073709551616
              = n * 10 + (byte_of c - 48) - 18446744073709551616)%N as ->.
      { symmetry. apply (N.mod_unique _ _ 1); lia. }
      destruct (N.ltb_spec (n * 10 + (byte_of c - 48) - 18446744073709551616) (n * 10));
        [|lia].
      cbn [orb].
      destruct (N.ltb_spec (decimal_from (n * 10 + (byte_of c - 48)) s)
                  18446744073709551616); [lia | done].
Qed.

Lemma strconv_ParseUint_number s :
  is_number s = true →
  strconv_ParseUint s
  = if (decimal s <? 2 ^ 64)%N then inr (decimal s)
    else inl (NumError "ParseUint" s ErrRange).
Proof.
  unfold is_number. intros H. apply andb_prop in H as [Hne Hs].
  destruct s as [|c s]; [done|].
  unfold strconv_ParseUint, decimal. by apply parseUint_loop_digits.
Qed.

(** What [ParseUint] accepts is a number that fits in 64 bits. *)
Lemma parseUint_loop_inr s0 s : ∀ n v,
  parseUint_loop s0 n s = inr v → all_bytes is_digit s = true.
Proof.
  induction s as [|c s IH]; intros n v; [done|].
  cbn [parseUint_loop all_bytes]. destruct (is_digit c); [|done].
  destruct (cutoff <=? n)%N; [done|].
  destruct (_ || _); [done|]. apply IH.
Qed.

Lemma strconv_ParseUint_inr s v :
  strconv_ParseUint s = inr v →
  is_number s = true ∧ v = decimal s ∧ (v < 2 ^ 64)%N.
Proof.
  intros H. assert (is_number s = true) as Hnum.
  { destruct s as [|c s]; [done|]. unfold is_number.
    by rewrite (parseUint_loop_inr _ _ _ _ H). }
  split; [done|]. rewrite (strconv_ParseUint_number _ Hnum) in H.
  destruct (N.ltb_spec (decimal s) (2 ^ 64)); [|done].
  by injection H as <-.
Qed.

(** Anything else is refused with the error of [ParseUint]. *)
Lemma strconv_ParseUint_inl s e :
  strconv_ParseUint s = inl e →
  ∃ kind, e = NumError "ParseUint" s kind.
Proof.
  assert (∀ t n, parseUint_loop s n t = inl e →
                 ∃ kind, e = NumError "ParseUint" s kind) as Hloop.
  { induction t as [|c t IH]; intros n; [done|].
    cbn [parseUint_loop]. destruct (is_digit c); [|intros [= <-]; by eexists].
    destruct (cutoff <=? n)%N; [intros [= <-]; by eexists|].
    destruct (_ || _); [intros [= <-]; by eexists|]. apply IH. }
  destruct s as [|c s]; [intros [= <-]; by eexists|]. apply Hloop.
Qed.

(** ** [strings.TrimSpace] on padded numbers *)

Lemma ascii_of_byte c k : byte_of c = k → c = ascii_of_N k.
Proof. intros <-. unfold byte_of. by rewrite ascii_N_embedding. Qed.

Lemma ascii_space_cases c :
  ascii_space c = true →
  c ∈ map ascii_of_N [9; 10; 11; 12; 13; 32]%N.
Proof.
  unfold ascii_space. intros H. apply existsb_exists in H as (k & Hk & Hc).
  apply N.eqb_eq, ascii_of_byte in Hc as ->.
  apply list_elem_of_In in Hk. by apply (list_elem_of_fmap_2 ascii_of_N).
Qed.

Lemma is_digit_cases c :
  is_digit c = true →
  c ∈ map ascii_of_N [48; 49; 50; 51; 52; 53; 54; 55; 56; 57]%N.
Proof.
  intros H. apply is_digit_bounds in H.
  assert (byte_of c ∈ [48; 49; 50; 51; 52; 53; 54; 55; 56; 57]%N) as Hk.
  { assert (byte_of c = 48 ∨ byte_of c = 49 ∨ byte_of c = 50 ∨ byte_of c = 51
            ∨ byte_of c = 52 ∨ byte_of c = 53 ∨ byte_of c = 54 ∨ byte_of c = 55
            ∨ byte_of c = 56 ∨ byte_of c = 57)%N as Hd by lia.
    rewrite !elem_of_cons. tauto. }
  rewrite (ascii_of_byte c _ eq_refl). by apply (list_elem_of_fmap_2 ascii_of_N).
Qed.

Ltac each_byte H :=
  cbn [map] in H;
  repeat (apply elem_of_cons in H as [-> | H]);
  [.. | by apply elem_of_nil in H].

Lemma strip_space_rune_space c s :
  ascii_space c = true → strip_space_rune space_runes (String c s) = Some s.
Proof.
  intros H. apply ascii_space_cases in H. each_byte H; by vm_compute.
Qed.

Lemma strip_rev_rune_space c s :
  ascii_space c = true →
  strip_space_rune (map string_rev space_runes) (String c s) = Some s.
Proof.
  intros H. apply ascii_space_cases in H. each_byte H; by vm_compute.
Qed.

Lemma strip_space_rune_digit c s :
  is_digit c = true → strip_space_rune space_runes (String c s) = None.
Proof.
  intros H. apply is_digit_cases in H. each_byte H; by vm_compute.
Qed.

Lemma strip_rev_rune_digit c s :
  is_digit c = true →
  strip_space_rune (map string_rev space_runes) (String c s) = None.
Proof.
  intros H. apply is_digit_cases in H. each_byte H; by vm_compute.
Qed.

(** Leading white space goes, up to the first byte that starts no
    space rune. *)
Lemma trim_left_spaces runes ws rest : ∀ fuel,
  (∀ c s, ascii_space c = true → strip_space_rune runes (String c s) = Some s) →
  strip_space_rune runes rest = None →
  all_bytes ascii_space ws = true →
  String.length ws ≤ fuel →
  trim_left runes fuel (ws +:+ rest) = rest.
Proof.
  intros fuel Hspace Hrest. revert fuel.
  induction ws as [|c ws IH]; intros fuel Hws Hfuel.
  - rewrite sapp_nil_l. destruct fuel; [done|]. simpl. by rewrite Hrest.
  - cbn [all_bytes] in Hws. apply andb_prop in Hws as [Hc Hws].
    destruct fuel as [|fuel]; [simpl in Hfuel; lia|].
    rewrite sapp_cons. cbn [trim_left]. rewrite (Hspace _ _ Hc).
    apply IH; [done | simpl in Hfuel; lia].
Qed.

Lemma list_ascii_app (a b : string) :
  list_ascii_of_string (a +:+ b) = list_ascii_of_string a ++ list_ascii_of_string b.
Proof. induction a as [|x a IH]; [done|]. rewrite sapp_cons. simpl. by rewrite IH. Qed.

Lemma string_of_list_app (l1 l2 : list ascii) :
  string_of_list_ascii (l1 ++ l2) = string_of_list_ascii l1 +:+ string_of_list_ascii l2.
Proof. induction l1 as [|x l1 IH]; [done|]. simpl. by rewrite IH, sapp_cons. Qed.

Lemma string_rev_app (a b : string) :
  string_rev (a +:+ b) = string_rev b +:+ string_rev a.
Proof. unfold string_rev. by rewrite list_ascii_app, rev_app_distr, string_of_list_app. Qed.

Lemma string_rev_involutive (a : string) : string_rev (string_rev a) = a.
Proof.
  unfold string_rev.
  by rewrite list_ascii_of_string_of_list_ascii, rev_involutive,
       string_of_list_ascii_of_string.
Qed.

Lemma string_rev_length (a : string) : String.length (string_rev a) = String.length a.
Proof.
  induction a as [|x a IH]; [done|].
  change (String x a) with (String x "" +:+ a).
  by rewrite string_rev_app, !sapp_length, IH, Nat.add_comm.
Qed.

Lemma all_bytes_app P (a b : string) :
  all_bytes P (a +:+ b) = all_bytes P a && all_bytes P b.
Proof.
  induction a as [|x a IH]; [done|]. rewrite sapp_cons. simpl.
  by rewrite IH, andb_assoc.
Qed.

Lemma all_bytes_rev P (a : string) : all_bytes P (string_rev a) = all_bytes P a.
Proof.
  induction a as [|x a IH]; [done|].
  change (String x a) with (String x "" +:+ a).
  rewrite string_rev_app, !all_bytes_app, IH. apply andb_comm.
Qed.

Lemma number_starts_with_digit ds :
  is_number ds = true → ∃ c s, ds = String c s ∧ is_digit c = true.
Proof.
  unfold is_number. intros H. apply andb_prop in H as [Hne Hs].
  destruct ds as [|c s]; [done|]. exists c, s.
  cbn [all_bytes] in Hs. by apply andb_prop in Hs as [-> _].
Qed.

Lemma is_number_rev ds : is_number (string_rev ds) = is_number ds.
Proof.
  unfold is_number. rewrite all_bytes_rev. f_equal. f_equal.
  pose proof (string_rev_length ds) as Hlen.
  destruct ds as [|c s], (string_rev _) as [|c' s'] eqn:E; try done.
Qed.

(** A number with white space around it trims to the number. *)
Lemma strings_TrimSpace_number ws1 ds ws2 :
  all_bytes ascii_space ws1 = true → all_bytes ascii_space ws2 = true →
  is_number ds = true →
  strings_TrimSpace (ws1 +:+ ds +:+ ws2) = ds.
Proof.
  intros H1 H2 Hds. unfold strings_TrimSpace.
  destruct (number_starts_with_digit ds Hds) as (c & t & Hc & Hdigit).
  rewrite (trim_left_spaces space_runes ws1 (ds +:+ ws2)).
  - rewrite string_rev_app.
    rewrite <- is_number_rev in Hds.
    destruct (number_starts_with_digit _ Hds) as (c' & t' & Hc' & Hdigit').
    rewrite (trim_left_spaces _ (string_rev ws2) (string_rev ds)).
    + apply string_rev_involutive.
    + intros c0 s0. apply strip_rev_rune_space.
    + rewrite Hc'. by apply strip_rev_rune_digit.
    + by rewrite all_bytes_rev.
    + rewrite sapp_length, string_rev_length. lia.
  - intros c0 s0. apply strip_space_rune_space.
  - rewrite Hc, sapp_cons. by apply strip_space_rune_digit.
  - done.
  - rewrite sapp_length. lia.
Qed.

(** White space alone trims to nothing. *)
Lemma strings_TrimSpace_blank ws :
  all_bytes ascii_space ws = true → strings_TrimSpace ws = "".
Proof.
  intros H. unfold strings_TrimSpace.
  assert (trim_left space_runes (String.length ws) ws = "") as ->; [|done].
  rewrite <- (sapp_nil_r ws) at 2.
  apply trim_left_spaces; [| by vm_compute | done | lia].
  intros c0 s0. apply strip_space_rune_space.
Qed.

(** ** The components of a path *)

Lemma strings_Split_whole s sep :
  all_bytes (λ c, negb (Ascii.eqb c sep)) s = true → strings_Split s sep = [s].
Proof.
  induction s as [|c s IH]; [done|]. cbn [all_bytes strings_Split]. intros H.
  apply andb_prop in H as [Hc Hs].
  destruct (Ascii.eqb c sep); [done|]. by rewrite (IH Hs).
Qed.

Lemma strings_Split_app a b sep :
  strings_Split (a +:+ String sep b) sep = strings_Split a sep ++ strings_Split b sep.
Proof.
  induction a as [|c a IH].
  - rewrite sapp_nil_l. cbn [strings_Split]. by rewrite Ascii.eqb_refl.
  - rewrite sapp_cons. cbn [strings_Split]. rewrite IH.
    destruct (Ascii.eqb c sep); [done|].
    pose proof (strings_Split_nonempty a sep).
    by destruct (strings_Split a sep).
Qed.

Lemma strings_Split_path dir node leaf :
  no_slash node = true → no_slash leaf = true →
  strings_Split (dir +:+ "/" +:+ node +:+ "/" +:+ leaf) "/"
  = strings_Split dir "/" ++ [node; leaf].
Proof.
  intros Hnode Hleaf.
  change ("/" +:+ node +:+ "/" +:+ leaf) with (String "/" (node +:+ String "/" leaf)).
  rewrite !strings_Split_app.
  by rewrite (strings_Split_whole node), (strings_Split_whole leaf).
Qed.

(** ** The fields of a matched line *)

(** X1. The comment of [parseReadWriteBytes] lays out the fields of
    [bytesSplit].  The pattern [" +"] compiles, and splitting a line
    whose fields are separated by runs of spaces gives back exactly its
    fields, in order, whatever the length of each run. *)
Theorem bytesSplit_fields f0 rest :
  well_separated f0 rest = true →
  ∃ r, regexp_Compile " +" = inr r
       ∧ Regexp_Split r (join_fields f0 rest) = f0 :: map snd rest.
Proof.
  intros Hw. exists spaces_re. split; [done|]. by apply Regexp_Split_fields.
Qed.

Lemma bytesSplit_fields_witness :
  ∃ r, regexp_Compile " +" = inr r
       ∧ Regexp_Split r
           (join_fields "read_bytes"
              [("    ", "3"); (" ", "samples"); (" ", "[bytes]");
               ("  ", "10"); (" ", "100"); (" ", "150")])
         = "read_bytes"
             :: map snd [("    ", "3"); (" ", "samples"); (" ", "[bytes]");
                         ("  ", "10"); (" ", "100"); (" ", "150")].
Proof.
  apply (bytesSplit_fields "read_bytes"
           [("    ", "3"); (" ", "samples"); (" ", "[bytes]");
            ("  ", "10"); (" ", "100"); (" ", "150")]).
  vm_compute. reflexivity.
Defined.

Lemma of_sum_uint64 n :
  is_uint64 n = true → of_sum (strconv_ParseUint n) = Ok (decimal n).
Proof.
  unfold is_uint64. intros H. apply andb_prop in H as [Hnum Hfit].
  by rewrite (strconv_ParseUint_number _ Hnum), Hfit.
Qed.

Lemma of_sum_not_uint64 n :
  is_uint64 n = false →
  ∃ kind, of_sum (strconv_ParseUint n) = Err (NumError "ParseUint" n kind).
Proof.
  intros H. destruct (strconv_ParseUint n) as [e|v] eqn:E.
  - destruct (strconv_ParseUint_inl _ _ E) as [kind ->]. by exists kind.
  - apply strconv_ParseUint_inr in E as (Hnum & -> & Hfit).
    unfold is_uint64 in H. rewrite Hnum in H. apply N.ltb_lt in Hfit.
    by rewrite Hfit in H.
Qed.

Lemma parseReadWriteBytes_line_ok d statsFile line n1 n4 n5 n6 :
  blob_line d line n1 n4 n5 n6 →
  holds_line d statsFile line →
  is_uint64 n1 = true → is_uint64 n4 = true →
  is_uint64 n5 = true → is_uint64 n6 = true →
  parseReadWriteBytes (pattern d) statsFile
  = Ok (statistics (decimal n1) (decimal n4) (decimal n5) (decimal n6)).
Proof.
  intros Hblob Hholds H1 H4 H5 H6.
  rewrite (parseReadWriteBytes_line _ _ _ _ _ _ _ Hblob Hholds).
  by rewrite !of_sum_uint64.
Qed.

(** X2. A line of the blob whose four numbers are decimal and fit in 64
    bits parses to these four numbers, wherever the file holds it and
    however wide the runs of spaces between its fields. *)
Theorem parseReadWriteBytes_line_numbers d statsFile line n1 n4 n5 n6 :
  blob_line d line n1 n4 n5 n6 →
  holds_line d statsFile line →
  is_uint64 n1 = true → is_uint64 n4 = true →
  is_uint64 n5 = true → is_uint64 n6 = true →
  parseReadWriteBytes (pattern d) statsFile
  = Ok (statistics (decimal n1) (decimal n4) (decimal n5) (decimal n6)).
Proof.
  apply parseReadWriteBytes_line_ok.
Qed.

Lemma parseReadWriteBytes_line_numbers_witness :
  parseReadWriteBytes (pattern Read) read_only_blob
  = Ok (statistics (decimal "3") (decimal "10") (decimal "100") (decimal "150")).
Proof.
  apply (parseReadWriteBytes_line_numbers Read read_only_blob
           "read_bytes 3 samples [bytes] 10 100 150" "3" "10" "100" "150").
  - exists " ", " ", "samples", " ", "[bytes]", " ", " ", " ", [].
    vm_compute. repeat split; reflexivity.
  - exists ("snapshot_time 1500000000.123456 secs.usecs" +:+ nl), nl.
    split; [vm_compute; reflexivity|]. split; [vm_compute; reflexivity|].
    right. exists "". reflexivity.
  - vm_compute. reflexivity.
  - vm_compute. reflexivity.
  - vm_compute. reflexivity.
  - vm_compute. reflexivity.
Defined.

(** X3. When one of the four numbers of a line is not a decimal number
    that fits in 64 bits, [parseReadWriteBytes] returns the error of
    [ParseUint] on the first such field, in the order samples, minimum,
    maximum, total. *)
Theorem parseReadWriteBytes_bad_field d statsFile line n1 n4 n5 n6 good bad rest :
  blob_line d line n1 n4 n5 n6 →
  holds_line d statsFile line →
  [n1; n4; n5; n6] = good ++ bad :: rest →
  forallb is_uint64 good = true →
  is_uint64 bad = false →
  ∃ kind, parseReadWriteBytes (pattern d) statsFile
          = Err (NumError "ParseUint" bad kind).
Proof.
  intros Hblob Hholds Hfields Hgood Hbad.
  rewrite (parseReadWriteBytes_line _ _ _ _ _ _ _ Hblob Hholds).
  destruct (of_sum_not_uint64 _ Hbad) as [kind Hkind]. exists kind.
  destruct good as [|g1 [|g4 [|g5 [|g6 good]]]]; simplify_eq/=.
  - by rewrite Hkind.
  - apply andb_prop in Hgood as [H1 _].
    by rewrite (of_sum_uint64 _ H1), Hkind.
  - apply andb_prop in Hgood as [H1 Hgood]. apply andb_prop in Hgood as [H4 _].
    by rewrite (of_sum_uint64 _ H1), (of_sum_uint64 _ H4), Hkind.
  - apply andb_prop in Hgood as [H1 Hgood]. apply andb_prop in Hgood as [H4 Hgood].
    apply andb_prop in Hgood as [H5 _].
    by rewrite (of_sum_uint64 _ H1), (of_sum_uint64 _ H4), (of_sum_uint64 _ H5), Hkind.
  - destruct good; discriminate.
Qed.

Lemma parseReadWriteBytes_bad_field_witness :
  ∃ kind, parseReadWriteBytes (pattern Write)
            "write_bytes 2 samples [bytes] 5 -1 55"
          = Err (NumError "ParseUint" "-1" kind).
Proof.
  apply (parseReadWriteBytes_bad_field Write
           "write_bytes 2 samples [bytes] 5 -1 55"
           "write_bytes 2 samples [bytes] 5 -1 55" "2" "5" "-1" "55"
           ["2"; "5"] "-1" ["55"]).
  - exists " ", " ", "samples", " ", "[bytes]", " ", " ", " ", [].
    vm_compute. repeat split; reflexivity.
  - exists "", "". split; [vm_compute; reflexivity|].
    split; [vm_compute; reflexivity|]. by left.
  - reflexivity.
  - vm_compute. reflexivity.
  - vm_compute. reflexivity.
Defined.

(** ** The scalar grammar *)

(** X4. A scalar file that holds a decimal number, with white space before
    and after it, gives one metric: its value is the number, its node
    name the directory of the file and its name the name of the file.
    A number that does not fit in 64 bits is an error of range, and
    nothing is sent. *)
Theorem parseFile_single_number ns s nodeType dir node leaf helpText w ws1 ds ws2 :
  no_slash node = true → no_slash leaf = true →
  ReadFile (fs w) (dir +:+ "/" +:+ node +:+ "/" +:+ leaf)
  = inr (ws1 +:+ ds +:+ ws2) →
  all_bytes ascii_space ws1 = true → all_bytes ascii_space ws2 = true →
  is_number ds = true →
  parseFile s nodeType "single" (dir +:+ "/" +:+ node +:+ "/" +:+ leaf)
    helpText (emit ns s) w
  = if (decimal ds <? 2 ^ 64)%N
    then (Ok tt,
          {| fs := fs w;
             ch := ch w ++ [constMetric ns s nodeType node leaf helpText (decimal ds)] |})
    else (Err (NumError "ParseUint" ds ErrRange), w).
Proof.
  intros Hnode Hleaf Hfile H1 H2 Hds.
  rewrite (parseFile_components _ _ _ _ _ _ _ _ _ _
             (strings_Split_path dir node leaf Hnode Hleaf)).
  change (String.eqb "single" "single") with true. cbv iota.
  unfold bind, ioutil_ReadFile, lift. rewrite Hfile. cbn [of_sum].
  rewrite (strings_TrimSpace_number _ _ _ H1 H2 Hds).
  rewrite (strconv_ParseUint_number _ Hds).
  by destruct (decimal ds <? 2 ^ 64)%N.
Qed.

Lemma parseFile_single_number_witness :
  parseFile oss_source "OSS" "single"
    ("/proc/fs/lustre/obdfilter" +:+ "/" +:+ "ost1" +:+ "/" +:+ "kbytesfree")
    "Number of kilobytes allocated to the pool" (emit "lustre" oss_source)
    {| fs := table_fs ∅ {[ ost1_kbytesfree := " " +:+ "18446744073709551616" +:+ nl ]};
       ch := [] |}
  = (Err (NumError "ParseUint" "18446744073709551616" ErrRange),
     {| fs := table_fs ∅ {[ ost1_kbytesfree := " " +:+ "18446744073709551616" +:+ nl ]};
        ch := [] |}).
Proof.
  apply (parseFile_single_number "lustre" oss_source "OSS"
           "/proc/fs/lustre/obdfilter" "ost1" "kbytesfree"
           "Number of kilobytes allocated to the pool"
           {| fs := table_fs ∅ {[ ost1_kbytesfree := " " +:+ "18446744073709551616" +:+ nl ]};
              ch := [] |}
           " " "18446744073709551616" nl);
    vm_compute; reflexivity.
Defined.

(** X5. A scalar file that is empty, or holds white space only, is a syntax
    error of [ParseUint] on the empty string; nothing is sent. *)
Theorem parseFile_single_blank ns s nodeType dir node leaf helpText w ws :
  no_slash node = true → no_slash leaf = true →
  ReadFile (fs w) (dir +:+ "/" +:+ node +:+ "/" +:+ leaf) = inr ws →
  all_bytes ascii_space ws = true →
  parseFile s nodeType "single" (dir +:+ "/" +:+ node +:+ "/" +:+ leaf)
    helpText (emit ns s) w
  = (Err (NumError "ParseUint" "" ErrSyntax), w).
Proof.
  intros Hnode Hleaf Hfile Hws.
  rewrite (parseFile_components _ _ _ _ _ _ _ _ _ _
             (strings_Split_path dir node leaf Hnode Hleaf)).
  change (String.eqb "single" "single") with true. cbv iota.
  unfold bind, ioutil_ReadFile, lift. rewrite Hfile. cbn [of_sum].
  by rewrite (strings_TrimSpace_blank _ Hws).
Qed.

Lemma parseFile_single_blank_witness :
  parseFile oss_source "OSS" "single"
    ("/proc/fs/lustre/obdfilter" +:+ "/" +:+ "ost1" +:+ "/" +:+ "kbytesfree")
    "Number of kilobytes allocated to the pool" (emit "lustre" oss_source)
    {| fs := table_fs ∅ {[ ost1_kbytesfree := nl ]}; ch := [] |}
  = (Err (NumError "ParseUint" "" ErrSyntax),
     {| fs := table_fs ∅ {[ ost1_kbytesfree := nl ]}; ch := [] |}).
Proof.
  apply (parseFile_single_blank "lustre" oss_source "OSS"
           "/proc/fs/lustre/obdfilter" "ost1" "kbytesfree"
           "Number of kilobytes allocated to the pool"
           {| fs := table_fs ∅ {[ ost1_kbytesfree := nl ]}; ch := [] |} nl);
    vm_compute; reflexivity.
Defined.

(** X6. A matched file that cannot be read, for instance because it went
    away after the expansion of the pattern, makes [parseFile] return
    the error of the read, under either grammar; nothing is sent. *)
Theorem parseFile_unreadable ns s nodeType metricType dir node leaf helpText w e :
  no_slash node = true → no_slash leaf = true →
  metricType = "single" ∨ metricType = "stats" →
  ReadFile (fs w) (dir +:+ "/" +:+ node +:+ "/" +:+ leaf) = inl e →
  parseFile s nodeType metricType (dir +:+ "/" +:+ node +:+ "/" +:+ leaf)
    helpText (emit ns s) w
  = (Err e, w).
Proof.
  intros Hnode Hleaf Htype Hfile.
  rewrite (parseFile_components _ _ _ _ _ _ _ _ _ _
             (strings_Split_path dir node leaf Hnode Hleaf)).
  destruct Htype as [-> | ->].
  - change (String.eqb "single" "single") with true. cbv iota.
    unfold bind, ioutil_ReadFile. by rewrite Hfile.
  - change (String.eqb "stats" "single") with false.
    change (String.eqb "stats" "stats") with true. cbv iota.
    unfold bind, parseStatsFile, bind, ioutil_ReadFile. by rewrite Hfile.
Qed.

Lemma parseFile_unreadable_witness :
  parseFile oss_source "OSS" "stats"
    ("/proc/fs/lustre/obdfilter" +:+ "/" +:+ "ost1" +:+ "/" +:+ "stats")
    "A collection of statistics specific to Lustre" (emit "lustre" oss_source)
    {| fs := no_target; ch := [] |}
  = (Err (PathError "open" "/proc/fs/lustre/obdfilter/ost1/stats"
            "no such file or directory"),
     {| fs := no_target; ch := [] |}).
Proof.
  apply (parseFile_unreadable "lustre" oss_source "OSS" "stats"
           "/proc/fs/lustre/obdfilter" "ost1" "stats"
           "A collection of statistics specific to Lustre"
           {| fs := no_target; ch := [] |});
    [vm_compute; reflexivity | vm_compute; reflexivity | by right
    | vm_compute; reflexivity].
Defined.

(** ** What [parseReadWriteBytes] returns *)

Lemma parseReadWriteBytes_returns regexString statsFile m :
  parseReadWriteBytes regexString statsFile = Ok m →
  m = ∅
  ∨ ∃ samples minimum maximum total,
      m = statistics samples minimum maximum total
      ∧ Forall (λ v, (v < 2 ^ 64)%N) [samples; minimum; maximum; total].
Proof.
  unfold parseReadWriteBytes.
  destruct (regexp_Compile regexString) as [e|bytesRegex]; [done|].
  cbn [of_sum result_bind].
  destruct (String.length _ =? 0); [intros [= <-]; by left|].
  destruct (regexp_Compile " +") as [e|r]; [done|]. cbn [of_sum result_bind].
  destruct (at_index _ 1) as [f1|e|p]; [|done..]. cbn [result_bind].
  destruct (strconv_ParseUint f1) as [e|samples] eqn:E1; [done|].
  cbn [of_sum result_bind].
  destruct (at_index _ 4) as [f4|e|p]; [|done..]. cbn [result_bind].
  destruct (strconv_ParseUint f4) as [e|minimum] eqn:E4; [done|].
  cbn [of_sum result_bind].
  destruct (at_index _ 5) as [f5|e|p]; [|done..]. cbn [result_bind].
  destruct (strconv_ParseUint f5) as [e|maximum] eqn:E5; [done|].
  cbn [of_sum result_bind].
  destruct (at_index _ 6) as [f6|e|p]; [|done..]. cbn [result_bind].
  destruct (strconv_ParseUint f6) as [e|total] eqn:E6; [done|].
  cbn [of_sum result_bind].
  intros [= <-]. right. exists samples, minimum, maximum, total. split; [done|].
  apply strconv_ParseUint_inr in E1 as (_ & _ & ?), E4 as (_ & _ & ?),
        E5 as (_ & _ & ?), E6 as (_ & _ & ?).
  by repeat constructor.
Qed.

(** X7. When [parseReadWriteBytes] returns a map for one of the two
    patterns the program passes to it, whatever the text, the map is
    empty (no match) or it has exactly the four statistics, each under
    its own help text, with values that fit in 64 bits. *)
Theorem parseReadWriteBytes_shape d statsFile m :
  parseReadWriteBytes (pattern d) statsFile = Ok m →
  m = ∅
  ∨ ∃ samples minimum maximum total,
      m = statistics samples minimum maximum total
      ∧ Forall (λ v, (v < 2 ^ 64)%N) [samples; minimum; maximum; total].
Proof.
  apply parseReadWriteBytes_returns.
Qed.

Lemma parseReadWriteBytes_shape_witness :
  statistics 3 10 100 150 = ∅
  ∨ ∃ samples minimum maximum total,
      statistics 3 10 100 150 = statistics samples minimum maximum total
      ∧ Forall (λ v, (v < 2 ^ 64)%N) [samples; minimum; maximum; total].
Proof.
  apply (parseReadWriteBytes_shape Read read_only_blob).
  eapply (parseReadWriteBytes_fields Read);
    [vm_compute; reflexivity | done | vm_compute; reflexivity..].
Defined.

(** ** What a statistics file sends *)

Lemma parseFile_stats_inv ns s nodeType path helpText w w' :
  parseFile s nodeType "stats" path helpText (emit ns s) w = (Ok tt, w') →
  ∃ elems nodeName leaf statsFile rm wm,
    strings_Split path "/" = elems ++ [nodeName; leaf]
    ∧ ReadFile (fs w) path = inr statsFile
    ∧ parseReadWriteBytes (pattern Read) statsFile = Ok rm
    ∧ parseReadWriteBytes (pattern Write) statsFile = Ok wm.
Proof.
  intros H.
  destruct (Nat.lt_ge_cases (length (strings_Split path "/")) 2) as [Hlen|Hlen].
  { by rewrite parseFile_one_component in H. }
  destruct (split_components _ Hlen) as (elems & nodeName & leaf & Hsplit).
  exists elems, nodeName, leaf.
  rewrite (parseFile_components _ _ _ _ _ _ _ _ _ _ Hsplit) in H.
  change (String.eqb "stats" "single") with false in H.
  change (String.eqb "stats" "stats") with true in H. cbv iota in H.
  unfold bind at 1 in H. unfold parseStatsFile, bind, ioutil_ReadFile, lift, ret in H.
  destruct (ReadFile (fs w) path) as [e|statsFile] eqn:Hfile; [done|].
  cbn [of_sum] in H. exists statsFile.
  change "read_bytes .*" with (pattern Read) in H.
  change "write_bytes .*" with (pattern Write) in H.
  destruct (parseReadWriteBytes (pattern Read) statsFile) as [rm|e|p] eqn:Hr;
    [|done..].
  destruct (parseReadWriteBytes (pattern Write) statsFile) as [wm|e|p] eqn:Hw;
    [|done..].
  clear H. exists rm, wm. repeat split; assumption || reflexivity.
Qed.

Lemma prometheus_BuildFQName_inj ns a b :
  a ≠ "" → b ≠ "" →
  prometheus_BuildFQName ns "lustre" a = prometheus_BuildFQName ns "lustre" b →
  a = b.
Proof.
  intros Ha Hb. unfold prometheus_BuildFQName.
  destruct (String.eqb_spec a ""), (String.eqb_spec b ""); try done.
  destruct (String.eqb_spec ns "") as [->|Hns]; cbn [negb andb String.eqb strings_Join].
  - intros H. by injection H.
  - intros H. rewrite <- !sapp_assoc in H. by apply (inj (String.app _)) in H.
Qed.

(** What a direction contributes: nothing, or its four metrics. *)
Lemma emit_direction_shape ns s nodeType nodeName d m w :
  (m = ∅ ∨ ∃ a b c e, m = statistics a b c e
                       ∧ Forall (λ v, (v < 2 ^ 64)%N) [a; b; c; e]) →
  ∃ sent,
    emit_direction ns s nodeType nodeName (prefix_name d) m w
    = (Ok tt, {| fs := fs w; ch := ch w ++ sent |})
    ∧ (sent = [] ∨ ∃ a b c e, sent = observations ns s nodeType nodeName d a b c e).
Proof.
  intros [-> | (a & b & c & e & -> & _)].
  - exists []. rewrite emit_direction_empty, world_eta. split; [done | by left].
  - eexists. rewrite emit_direction_statistics. split; [done|].
    right. by exists a, b, c, e.
Qed.

Lemma observations_names ns s nodeType nodeName d a b c e :
  (fqName ∘ desc) <$> observations ns s nodeType nodeName d a b c e
  = prometheus_BuildFQName ns "lustre" <$> metric_names d.
Proof. done. Qed.

Lemma NoDup_fqNames ns (names : list string) :
  Forall (λ n, n ≠ "") names → NoDup names →
  NoDup (prometheus_BuildFQName ns "lustre" <$> names).
Proof.
  intros Hne Hnd. apply NoDup_fmap_2_strong; [|done].
  intros a b Ha Hb. rewrite Forall_forall in Hne.
  apply prometheus_BuildFQName_inj; by apply Hne.
Qed.

(** X8. A statistics file that parses sends, for each direction, nothing
    or the four metrics of that direction, labelled with the node name
    of the path: none, four or eight metrics in all, and no two of them
    under the same name. *)
Theorem parseFile_stats_sent ns s nodeType path helpText w w' :
  parseFile s nodeType "stats" path helpText (emit ns s) w = (Ok tt, w') →
  ∃ elems nodeName leaf sent reads writes,
    strings_Split path "/" = elems ++ [nodeName; leaf]
    ∧ w' = {| fs := fs w; ch := ch w ++ sent |}
    ∧ sent ≡ₚ reads ++ writes
    ∧ (reads = []
       ∨ ∃ a b c e, reads = observations ns s nodeType nodeName Read a b c e)
    ∧ (writes = []
       ∨ ∃ a b c e, writes = observations ns s nodeType nodeName Write a b c e)
    ∧ NoDup ((fqName ∘ desc) <$> sent).
Proof.
  intros H.
  destruct (parseFile_stats_inv _ _ _ _ _ _ _ H)
    as (elems & nodeName & leaf & statsFile & rm & wm & Hsplit & Hfile & Hr & Hw).
  rewrite (parseFile_stats _ _ _ _ _ _ _ _ _ _ _ _ Hsplit Hfile Hr Hw) in H.
  apply parseReadWriteBytes_returns in Hr, Hw.
  unfold bind in H.
  destruct (emit_direction_shape ns s nodeType nodeName Write wm w Hw)
    as (writes & Hwrites & Hws).
  change (prefix_name Write) with "write" in Hwrites. rewrite Hwrites in H.
  destruct (emit_direction_shape ns s nodeType nodeName Read rm
              {| fs := fs w; ch := ch w ++ writes |} Hr)
    as (reads & Hreads & Hrs).
  change (prefix_name Read) with "read" in Hreads. rewrite Hreads in H.
  cbn [fs ch] in H. injection H as <-.
  exists elems, nodeName, leaf, (writes ++ reads), reads, writes.
  split; [done|]. split; [by rewrite app_assoc|].
  split; [apply Permutation_app_comm|]. split; [done|]. split; [done|].
  assert (NoDup (prometheus_BuildFQName ns "lustre"
                   <$> (metric_names Write ++ metric_names Read))) as Hboth.
  { apply NoDup_fqNames; [by repeat constructor|].
    apply (bool_decide_unpack _). by vm_compute. }
  rewrite fmap_app in Hboth. apply NoDup_app in Hboth as (Hnw & Hdisj & Hnr).
  rewrite fmap_app.
  destruct Hws as [-> | (a & b & c & e & ->)],
           Hrs as [-> | (a' & b' & c' & e' & ->)];
    rewrite ?observations_names; cbn [fmap list_fmap app];
    rewrite ?app_nil_r; try done.
  - constructor.
  - apply NoDup_app. by split_and!.
Qed.

Lemma parseFile_stats_sent_witness :
  ∃ elems nodeName leaf sent reads writes,
    strings_Split ost1_stats "/" = elems ++ [nodeName; leaf]
    ∧ {| fs := table_fs ∅ {[ ost1_stats := read_only_blob ]};
         ch := observations "lustre" oss_source "OSS" "ost1" Read 3 10 100 150 |}
      = {| fs := fs {| fs := table_fs ∅ {[ ost1_stats := read_only_blob ]}; ch := [] |};
           ch := ch {| fs := table_fs ∅ {[ ost1_stats := read_only_blob ]}; ch := [] |}
                 ++ sent |}
    ∧ sent ≡ₚ reads ++ writes
    ∧ (reads = []
       ∨ ∃ a b c e, reads = observations "lustre" oss_source "OSS" nodeName Read a b c e)
    ∧ (writes = []
       ∨ ∃ a b c e, writes = observations "lustre" oss_source "OSS" nodeName Write a b c e)
    ∧ NoDup ((fqName ∘ desc) <$> sent).
Proof.
  apply (parseFile_stats_sent "lustre" oss_source "OSS" ost1_stats
           "A collection of statistics specific to Lustre"
           {| fs := table_fs ∅ {[ ost1_stats := read_only_blob ]}; ch := [] |}).
  vm_compute. reflexivity.
Defined.

(** X9. A statistics file that holds a line for each direction, each with
    four decimal numbers that fit in 64 bits, gives the eight metrics of
    these numbers, named after the direction and the statistic and
    labelled with the node name of the path. *)
Theorem parseFile_stats_lines ns s nodeType dir node leaf helpText w statsFile
    rline r1 r4 r5 r6 wline w1 w4 w5 w6 :
  no_slash node = true → no_slash leaf = true →
  ReadFile (fs w) (dir +:+ "/" +:+ node +:+ "/" +:+ leaf) = inr statsFile →
  blob_line Read rline r1 r4 r5 r6 → holds_line Read statsFile rline →
  blob_line Write wline w1 w4 w5 w6 → holds_line Write statsFile wline →
  forallb is_uint64 [r1; r4; r5; r6; w1; w4; w5; w6] = true →
  ∃ sent,
    parseFile s nodeType "stats" (dir +:+ "/" +:+ node +:+ "/" +:+ leaf)
      helpText (emit ns s) w
    = (Ok tt, {| fs := fs w; ch := ch w ++ sent |})
    ∧ sent ≡ₚ
        observations ns s nodeType node Read
          (decimal r1) (decimal r4) (decimal r5) (decimal r6)
        ++ observations ns s nodeType node Write
             (decimal w1) (decimal w4) (decimal w5) (decimal w6).
Proof.
  intros Hnode Hleaf Hfile Hrb Hrh Hwb Hwh Hnum.
  cbn [forallb] in Hnum.
  repeat (apply andb_prop in Hnum as [? Hnum]).
  rewrite (parseFile_stats ns s nodeType _ helpText _ _ _ _ _ _ _
             (strings_Split_path dir node leaf Hnode Hleaf) Hfile
             (parseReadWriteBytes_line_ok _ _ _ _ _ _ _ Hrb Hrh
                ltac:(done) ltac:(done) ltac:(done) ltac:(done))
             (parseReadWriteBytes_line_ok _ _ _ _ _ _ _ Hwb Hwh
                ltac:(done) ltac:(done) ltac:(done) ltac:(done))).
  unfold bind. rewrite !emit_direction_statistics. cbn [fs ch].
  eexists. split; [by rewrite <- app_assoc|].
  apply (Permutation_app_comm [_; _; _; _] [_; _; _; _]).
Qed.

Lemma parseFile_stats_lines_witness :
  ∃ sent,
    parseFile oss_source "OSS" "stats"
      ("/proc/fs/lustre/obdfilter" +:+ "/" +:+ "ost1" +:+ "/" +:+ "stats")
      "A collection of statistics specific to Lustre" (emit "lustre" oss_source)
      {| fs := table_fs ∅ {[ ost1_stats := wide_blob ]}; ch := [] |}
    = (Ok tt,
       {| fs := fs {| fs := table_fs ∅ {[ ost1_stats := wide_blob ]}; ch := [] |};
          ch := ch {| fs := table_fs ∅ {[ ost1_stats := wide_blob ]}; ch := [] |}
                ++ sent |})
    ∧ sent ≡ₚ
        observations "lustre" oss_source "OSS" "ost1" Read
          (decimal "3") (decimal "4096") (decimal "1048576") (decimal "2101248")
        ++ observations "lustre" oss_source "OSS" "ost1" Write
             (decimal "2") (decimal "512") (decimal "4096") (decimal "4608").
Proof.
  apply (parseFile_stats_lines "lustre" oss_source "OSS"
           "/proc/fs/lustre/obdfilter" "ost1" "stats"
           "A collection of statistics specific to Lustre"
           {| fs := table_fs ∅ {[ ost1_stats := wide_blob ]}; ch := [] |}
           wide_blob
           "read_bytes                3 samples [bytes] 4096 1048576 2101248 17"
           "3" "4096" "1048576" "2101248"
           "write_bytes               2 samples [bytes] 512 4096 4608"
           "2" "512" "4096" "4608").
  - vm_compute. reflexivity.
  - vm_compute. reflexivity.
  - vm_compute. reflexivity.
  - exists "                ", " ", "samples", " ", "[bytes]", " ", " ", " ",
      [(" ", "17")].
    vm_compute. repeat split; reflexivity.
  - exists ("snapshot_time             1500000000.123456 secs.usecs" +:+ nl),
      (nl +:+ "write_bytes               2 samples [bytes] 512 4096 4608" +:+ nl
       +:+ "get_info                  7 samples [reqs]" +:+ nl).
    split; [vm_compute; reflexivity|]. split; [vm_compute; reflexivity|].
    right. by eexists.
  - exists "               ", " ", "samples", " ", "[bytes]", " ", " ", " ", [].
    vm_compute. repeat split; reflexivity.
  - exists ("snapshot_time             1500000000.123456 secs.usecs" +:+ nl
            +:+ "read_bytes                3 samples [bytes] 4096 1048576 2101248 17"
            +:+ nl),
      (nl +:+ "get_info                  7 samples [reqs]" +:+ nl).
    split; [vm_compute; reflexivity|]. split; [vm_compute; reflexivity|].
    right. by eexists.
  - vm_compute. reflexivity.
Defined.

(** X10. A statistics file in which neither token occurs, an empty file for
    one, is no error: the parse succeeds and sends nothing. *)
Theorem parseFile_stats_no_line ns s nodeType dir node leaf helpText w statsFile :
  no_slash node = true → no_slash leaf = true →
  ReadFile (fs w) (dir +:+ "/" +:+ node +:+ "/" +:+ leaf) = inr statsFile →
  occurs (token Read) statsFile = false →
  occurs (token Write) statsFile = false →
  parseFile s nodeType "stats" (dir +:+ "/" +:+ node +:+ "/" +:+ leaf)
    helpText (emit ns s) w
  = (Ok tt, w).
Proof.
  intros Hnode Hleaf Hfile Hr Hw.
  rewrite (parseFile_stats ns s nodeType _ helpText _ _ _ _ _ _ _
             (strings_Split_path dir node leaf Hnode Hleaf) Hfile
             (parseReadWriteBytes_absent Read _ Hr)
             (parseReadWriteBytes_absent Write _ Hw)).
  unfold bind. by rewrite !emit_direction_empty.
Qed.

Lemma parseFile_stats_no_line_witness :
  parseFile oss_source "OSS" "stats"
    ("/proc/fs/lustre/obdfilter" +:+ "/" +:+ "ost1" +:+ "/" +:+ "stats")
    "A collection of statistics specific to Lustre" (emit "lustre" oss_source)
    {| fs := table_fs ∅ {[ ost1_stats := "" ]}; ch := [] |}
  = (Ok tt, {| fs := table_fs ∅ {[ ost1_stats := "" ]}; ch := [] |}).
Proof.
  apply (parseFile_stats_no_line "lustre" oss_source "OSS"
           "/proc/fs/lustre/obdfilter" "ost1" "stats"
           "A collection of statistics specific to Lustre"
           {| fs := table_fs ∅ {[ ost1_stats := "" ]}; ch := [] |} "");
    vm_compute; reflexivity.
Defined.

(** ** The scrape as a whole *)

Lemma sends_such_for_each (P : Metric → Prop) {A} (l : list A) (body : A → M unit) :
  (∀ x, x ∈ l → sends_such P (body x)) → sends_such P (for_each l body).
Proof.
  induction l as [|x l IH]; intros Hbody w; simpl.
  - exists (Ok tt), []. unfold ret. by rewrite world_eta.
  - unfold bind. destruct (Hbody x ltac:(left) w) as (r & l1 & -> & Hl1).
    destruct r as [[]|e|p]; [|by eexists _, _..].
    destruct (IH (λ y Hy, Hbody y ltac:(by right))
                {| fs := fs w; ch := ch w ++ l1 |}) as (r & l2 & -> & Hl2).
    exists r, (l1 ++ l2). cbn [fs ch]. rewrite <- app_assoc.
    split; [done | by apply Forall_app].
Qed.

(** What [parseFile] sends through the handler of [Update]: metrics
    built by [constMetric] for the node type it was given, with the help
    text it was given or the help text of a statistic, and a value that
    fits in 64 bits. *)
Lemma parseFile_sends ns s nodeType metricType path helpText :
  sends_such
    (λ m, ∃ nodeName metricName help value,
        m = constMetric ns s nodeType nodeName metricName help value
        ∧ help ∈ [helpText; samplesHelp; minimumHelp; maximumHelp; totalHelp]
        ∧ (value < 2 ^ 64)%N)
    (parseFile s nodeType metricType path helpText (emit ns s)).
Proof.
  intros w.
  assert (∀ r : result unit,
            ∃ r0 l, (r, w) = (r0, {| fs := fs w; ch := ch w ++ l |})
                    ∧ Forall (λ m, ∃ nodeName metricName help value,
                        m = constMetric ns s nodeType nodeName metricName help value
                        ∧ help ∈ [helpText; samplesHelp; minimumHelp; maximumHelp;
                                  totalHelp]
                        ∧ (value < 2 ^ 64)%N) l) as Hquiet.
  { intros r. exists r, []. by rewrite world_eta. }
  destruct (Nat.lt_ge_cases (length (strings_Split path "/")) 2) as [Hlen|Hlen].
  { rewrite parseFile_one_component by done. apply Hquiet. }
  destruct (split_components _ Hlen) as (elems & nodeName & leaf & Hsplit).
  rewrite (parseFile_components _ _ _ _ _ _ _ _ _ _ Hsplit).
  destruct (String.eqb metricType "single").
  - unfold bind, ioutil_ReadFile, lift.
    destruct (ReadFile (fs w) path) as [e|value]; cbn [of_sum]; [apply Hquiet|].
    destruct (strconv_ParseUint (strings_TrimSpace value)) as [e|v] eqn:E;
      cbn [of_sum]; [apply Hquiet|].
    apply strconv_ParseUint_inr in E as (_ & _ & Hv).
    eexists _, [_]. split; [done|]. constructor; [|done].
    exists nodeName, leaf, helpText, v. split; [done|]. split; [by left | done].
  - destruct (String.eqb metricType "stats"); [|apply Hquiet].
    unfold bind at 1. unfold parseStatsFile, bind, ioutil_ReadFile, lift, ret.
    destruct (ReadFile (fs w) path) as [e|statsFile]; cbn [of_sum]; [apply Hquiet|].
    change "read_bytes .*" with (pattern Read).
    change "write_bytes .*" with (pattern Write).
    destruct (parseReadWriteBytes (pattern Read) statsFile) as [rm|e|p] eqn:Hr;
      [|apply Hquiet..].
    destruct (parseReadWriteBytes (pattern Write) statsFile) as [wm|e|p] eqn:Hw;
      [|apply Hquiet..].
    rewrite map_to_list_directions. cbn [for_each]. unfold bind, ret.
    fold (emit_direction ns s nodeType nodeName "write" wm).
    fold (emit_direction ns s nodeType nodeName "read" rm).
    assert (∀ statType m w0,
              (m = ∅ ∨ ∃ a b c e, m = statistics a b c e
                 ∧ Forall (λ v, (v < 2 ^ 64)%N) [a; b; c; e]) →
              ∃ sent,
                emit_direction ns s nodeType nodeName statType m w0
                = (Ok tt, {| fs := fs w0; ch := ch w0 ++ sent |})
                ∧ Forall (λ m, ∃ nodeName metricName help value,
                    m = constMetric ns s nodeType nodeName metricName help value
                    ∧ help ∈ [helpText; samplesHelp; minimumHelp; maximumHelp;
                              totalHelp]
                    ∧ (value < 2 ^ 64)%N) sent) as Hdir.
    { intros statType m w0 [-> | (a & b & c & e & -> & Hfit)].
      - exists []. by rewrite emit_direction_empty, world_eta.
      - eexists. rewrite emit_direction_statistics. split; [done|].
        apply Forall_cons in Hfit as [Ha Hfit]. apply Forall_cons in Hfit as [Hb Hfit].
        apply Forall_cons in Hfit as [Hc Hfit]. apply Forall_cons in Hfit as [He _].
        repeat constructor; eexists _, _, _, _;
          (split; [reflexivity|]; split; [rewrite !elem_of_cons; auto 10 | done]). }
    apply parseReadWriteBytes_returns in Hr, Hw.
    destruct (Hdir "write" wm w Hw) as (writes & -> & Hwrites).
    destruct (Hdir "read" rm {| fs := fs w; ch := ch w ++ writes |} Hr)
      as (reads & -> & Hreads).
    exists (Ok tt), (writes ++ reads). cbn [fs ch]. rewrite app_assoc.
    split; [done | by apply Forall_app].
Qed.

(** X11. Whatever the registry and the file system, [Update] leaves the
    file system alone and what it had sent before, and each metric it
    adds is a counter built by [constMetric] from the node type of a
    registered descriptor, with that descriptor's help text or the help
    text of a statistic, and with a value that was parsed as a 64-bit
    integer. *)
Theorem Update_sent_metrics ns s w :
  ∃ r sent,
    Update ns s w = (r, {| fs := fs w; ch := ch w ++ sent |})
    ∧ Forall
        (λ m, ∃ metric nodeName metricName help value,
            metric ∈ lustreProcMetrics s
            ∧ m = constMetric ns s (source metric) nodeName metricName help value
            ∧ help ∈ [helpText metric; samplesHelp; minimumHelp; maximumHelp;
                      totalHelp]
            ∧ (value < 2 ^ 64)%N)
        sent.
Proof.
  revert w. apply sends_such_for_each. intros metric Hmetric w.
  unfold Update_metric, bind. rewrite resolve_reads.
  destruct (Glob _ _) as [e|paths]; cbn [of_sum].
  { exists (Err e), []. by rewrite world_eta. }
  assert (sends_such
            (λ m, ∃ metric nodeName metricName help value,
                metric ∈ lustreProcMetrics s
                ∧ m = constMetric ns s (source metric) nodeName metricName help value
                ∧ help ∈ [helpText metric; samplesHelp; minimumHelp; maximumHelp;
                          totalHelp]
                ∧ (value < 2 ^ 64)%N)
            (for_each paths (Update_path ns s metric))) as Hpaths.
  { apply sends_such_for_each. intros p _ w0.
    destruct (parseFile_sends ns s (source metric)
                (if String.eqb (name metric) "stats" then "stats" else "single")
                p (helpText metric) w0) as (r & l & Hr & Hl).
    exists r, l. split; [exact Hr|].
    eapply Forall_impl; [exact Hl|].
    intros m (nodeName & metricName & help & value & -> & Hhelp & Hv).
    by exists metric, nodeName, metricName, help, value. }
  destruct paths as [|p paths]; [|apply Hpaths].
  exists (Ok tt), []. unfold ret. by rewrite world_eta.
Qed.

(** X12. On a node where no pattern of the registry matches anything, the
    scrape succeeds and sends nothing. *)
Theorem Update_nothing_matched ns s w :
  (∀ metric, metric ∈ lustreProcMetrics s →
             Glob (fs w) (filepath_Join [basePath s; path metric; name metric])
             = inr []) →
  Update ns s w = (Ok tt, w).
Proof.
  unfold Update. induction (lustreProcMetrics s) as [|m ms IH]; intros H; [done|].
  cbn [for_each]. unfold bind.
  rewrite (Update_metric_paths _ _ _ _ [] (H m ltac:(left))).
  cbn [for_each]. unfold ret. apply IH. intros metric Hm. apply H. by right.
Qed.

Lemma Update_nothing_matched_witness :
  Update "lustre" oss_source {| fs := no_target; ch := [] |}
  = (Ok tt, {| fs := no_target; ch := [] |}).
Proof.
  apply (Update_nothing_matched "lustre" oss_source {| fs := no_target; ch := [] |}).
  intros metric Hmetric. vm_compute. reflexivity.
Defined.

(** X13. A panic while a matched path is parsed unwinds the scrape:
    [Update] crashes with it, in the world reached before that path, so
    the path, the later paths and the later descriptors send nothing and
    no error value is returned. *)
Theorem Update_crash ns s ms1 m ms2 ps1 p ps2 c w w1 w2 w3 :
  lustreProcMetrics s = ms1 ++ m :: ms2 →
  for_each ms1 (Update_metric ns s) w = (Ok tt, w1) →
  Glob (fs w1) (filepath_Join [basePath s; path m; name m]) = inr (ps1 ++ p :: ps2) →
  for_each ps1 (Update_path ns s m) w1 = (Ok tt, w2) →
  Update_path ns s m p w2 = (Crash c, w3) →
  Update ns s w = (Crash c, w2) ∧ w3 = w2.
Proof.
  intros Hs H1 Hglob H2 H3.
  assert (w3 = w2) as ->.
  { destruct (Update_path_quiet ns s m p w2) as (r & l & Hr & Hl).
    rewrite H3 in Hr. injection Hr as <- ->.
    rewrite Hl by done. apply world_eta. }
  split; [|done].
  rewrite (Update_at _ _ _ _ _ _ _ Hs H1), (Update_metric_paths _ _ _ _ _ Hglob).
  rewrite for_each_app, H2. cbn [for_each]. unfold bind. by rewrite H3.
Qed.

(** ** The registry *)

Lemma append_templates source path (metrics : list (string * string)) s :
  fold_left (λ s '(metric, helpText),
      {| lustreProcMetrics :=
           lustreProcMetrics s ++ [newLustreProcMetric metric source path helpText];
         basePath := basePath s |})
    metrics s
  = {| lustreProcMetrics := lustreProcMetrics s ++ descriptors source path metrics;
       basePath := basePath s |}.
Proof.
  revert s. induction metrics as [|[metric helpText] metrics IH]; intros s.
  - simpl. rewrite app_nil_r. by destruct s.
  - cbn [fold_left descriptors map]. rewrite IH. cbn [lustreProcMetrics basePath].
    by rewrite <- app_assoc.
Qed.

Lemma generate_templates source key (metrics : list (string * string)) s :
  NoDup metrics.*1 →
  ∃ added,
    fold_left (λ s '(path, _),
      fold_left (λ s '(metric, helpText),
        {| lustreProcMetrics :=
             lustreProcMetrics s ++ [newLustreProcMetric metric source path helpText];
           basePath := basePath s |})
        (map_to_list (default ∅
           (({[ key := list_to_map metrics ]} : gmap string (gmap string string))
              !! path))) s)
      (map_to_list ({[ key := list_to_map metrics ]}
                      : gmap string (gmap string string))) s
    = {| lustreProcMetrics := lustreProcMetrics s ++ added; basePath := basePath s |}
    ∧ added ≡ₚ descriptors source key metrics.
Proof.
  intros Hnd. exists (descriptors source key (map_to_list (list_to_map metrics))).
  rewrite map_to_list_singleton. cbn [fold_left].
  rewrite lookup_singleton_eq. cbn [default].
  split; [apply append_templates|].
  unfold descriptors. apply fmap_Permutation. by apply map_to_list_to_map.
Qed.

Lemma generate_append s :
  (∃ added,
     generateOSSMetricTemplates s
     = ({| lustreProcMetrics := lustreProcMetrics s ++ added;
           basePath := basePath s |}, None)
     ∧ added ≡ₚ descriptors "OSS" "obdfilter/*" ossMetrics)
  ∧ (∃ added,
       generateMGSMetricTemplates s
       = ({| lustreProcMetrics := lustreProcMetrics s ++ added;
             basePath := basePath s |}, None)
       ∧ added ≡ₚ descriptors "MGS" "mgs/MGS/osd/" mgsMetrics)
  ∧ (∃ added,
       generateMDSMetricTemplates s
       = ({| lustreProcMetrics := lustreProcMetrics s ++ added;
             basePath := basePath s |}, None)
       ∧ added ≡ₚ descriptors "MDS" "mds/MDS/osd" mdsMetrics).
Proof.
  split_and!.
  - destruct (generate_templates "OSS" "obdfilter/*" ossMetrics s) as (added & H & Hp).
    { apply (bool_decide_unpack _). by vm_compute. }
    exists added. split; [|exact Hp]. unfold generateOSSMetricTemplates. cbv zeta.
    exact (f_equal (λ x, (x, None)) H).
  - destruct (generate_templates "MGS" "mgs/MGS/osd/" mgsMetrics s) as (added & H & Hp).
    { apply (bool_decide_unpack _). by vm_compute. }
    exists added. split; [|exact Hp]. unfold generateMGSMetricTemplates. cbv zeta.
    exact (f_equal (λ x, (x, None)) H).
  - destruct (generate_templates "MDS" "mds/MDS/osd" mdsMetrics s) as (added & H & Hp).
    { apply (bool_decide_unpack _). by vm_compute. }
    exists added. split; [|exact Hp]. unfold generateMDSMetricTemplates. cbv zeta.
    exact (f_equal (λ x, (x, None)) H).
Qed.

(** X14. Each of the three functions only appends: it returns no error,
    leaves the base path and the descriptors already registered as they
    are, and adds after them, in some order, one descriptor for each
    entry of its table, with its node type and its path. *)
Theorem generateMetricTemplates_append s :
  (∃ added,
     generateOSSMetricTemplates s
     = ({| lustreProcMetrics := lustreProcMetrics s ++ added;
           basePath := basePath s |}, None)
     ∧ added ≡ₚ descriptors "OSS" "obdfilter/*" ossMetrics)
  ∧ (∃ added,
       generateMGSMetricTemplates s
       = ({| lustreProcMetrics := lustreProcMetrics s ++ added;
             basePath := basePath s |}, None)
       ∧ added ≡ₚ descriptors "MGS" "mgs/MGS/osd/" mgsMetrics)
  ∧ (∃ added,
       generateMDSMetricTemplates s
       = ({| lustreProcMetrics := lustreProcMetrics s ++ added;
             basePath := basePath s |}, None)
       ∧ added ≡ₚ descriptors "MDS" "mds/MDS/osd" mdsMetrics).
Proof. apply generate_append. Qed.

(** X15. [NewLustreSource] returns no error and a source whose base path is
    [/proc/fs/lustre] and whose registry holds 36 descriptors: those of
    the object storage servers, then those of the management server,
    then those of the metadata server.  No two of them expand the same
    pattern, so no file is read twice in a scrape, and one of them only
    is read under the statistics grammar. *)
Theorem NewLustreSource_registry :
  NewLustreSource.2 = None
  ∧ basePath NewLustreSource.1 = "/proc/fs/lustre"
  ∧ (∃ oss mgs mds,
       lustreProcMetrics NewLustreSource.1 = oss ++ mgs ++ mds
       ∧ oss ≡ₚ descriptors "OSS" "obdfilter/*" ossMetrics
       ∧ mgs ≡ₚ descriptors "MGS" "mgs/MGS/osd/" mgsMetrics
       ∧ mds ≡ₚ descriptors "MDS" "mds/MDS/osd" mdsMetrics)
  ∧ length (lustreProcMetrics NewLustreSource.1) = 36
  ∧ NoDup (glob_pattern NewLustreSource.1 <$> lustreProcMetrics NewLustreSource.1)
  ∧ length (filter (λ metric, name metric = "stats")
              (lustreProcMetrics NewLustreSource.1)) = 1.
Proof.
  unfold NewLustreSource. cbv zeta. cbn [lustreProcMetrics basePath].
  destruct (generate_append
              {| lustreProcMetrics := []; basePath := "/proc/fs/lustre" |})
    as ((oss & Ho & Hpo) & _ & _).
  rewrite Ho. cbn [fst lustreProcMetrics basePath app].
  destruct (generate_append
              {| lustreProcMetrics := oss; basePath := "/proc/fs/lustre" |})
    as (_ & (mgs & Hg & Hpg) & _).
  rewrite Hg. cbn [fst lustreProcMetrics basePath].
  destruct (generate_append
              {| lustreProcMetrics := oss ++ mgs; basePath := "/proc/fs/lustre" |})
    as (_ & _ & (mds & Hd & Hpd)).
  rewrite Hd. cbn [fst snd lustreProcMetrics basePath]. rewrite <- app_assoc.
  clear Ho Hg Hd.
  assert (oss ++ mgs ++ mds
          ≡ₚ descriptors "OSS" "obdfilter/*" ossMetrics
             ++ descriptors "MGS" "mgs/MGS/osd/" mgsMetrics
             ++ descriptors "MDS" "mds/MDS/osd" mdsMetrics) as Hall
    by (by rewrite Hpo, Hpg, Hpd).
  split; [reflexivity|]. split; [reflexivity|].
  split; [exists oss, mgs, mds; repeat split; assumption|].
  split; [rewrite Hall; vm_compute; reflexivity|].
  split.
  - unfold glob_pattern. cbn [basePath]. rewrite Hall.
    apply (bool_decide_unpack _). vm_compute. exact I.
  - rewrite Hall. vm_compute. reflexivity.
Qed.

Lemma Update_crash_witness :
  Update "lustre" stats_source {| fs := three_stats_targets; ch := [] |}
  = (Crash (IndexOutOfRange 4 3),
     {| fs := three_stats_targets;
        ch := observations "lustre" stats_source "OSS" "ost1" Read 3 10 100 150 |})
  ∧ {| fs := three_stats_targets;
       ch := observations "lustre" stats_source "OSS" "ost1" Read 3 10 100 150 |}
    = {| fs := three_stats_targets;
         ch := observations "lustre" stats_source "OSS" "ost1" Read 3 10 100 150 |}.
Proof.
  apply (Update_crash "lustre" stats_source [] stats_metric []
           ["/proc/fs/lustre/obdfilter/ost1/stats"]
           "/proc/fs/lustre/obdfilter/ost2/stats"
           ["/proc/fs/lustre/obdfilter/ost3/stats"]
           (IndexOutOfRange 4 3)
           {| fs := three_stats_targets; ch := [] |}
           {| fs := three_stats_targets; ch := [] |});
    vm_compute; reflexivity.
Defined.

(** ** The numbers the program reads *)

(** X17. Both grammars read their numbers with [strconv.ParseUint] in base
    10 and 64 bits.  It accepts exactly the strings of one decimal digit
    or more whose value is below [2^64], and returns that value: no
    sign, no space, no other base. *)
Theorem strconv_ParseUint_spec s v :
  strconv_ParseUint s = inr v ↔ is_uint64 s = true ∧ v = decimal s.
Proof.
  split.
  - intros H. apply strconv_ParseUint_inr in H as (Hnum & -> & Hfit).
    split; [|done]. unfold is_uint64. rewrite Hnum. by apply N.ltb_lt in Hfit as ->.
  - intros [H ->]. unfold is_uint64 in H. apply andb_prop in H as [Hnum Hfit].
    by rewrite (strconv_ParseUint_number _ Hnum), Hfit.
Qed.

(** ** Scraping a registry in two parts *)

(** X18. Scraping a registry made of two lists of descriptors is scraping
    the first list and then, unless that failed, the second one in the
    world the first scrape left: a failure in the first part keeps the
    second part from being read. *)
Theorem Update_app ns base ms1 ms2 w :
  Update ns {| lustreProcMetrics := ms1 ++ ms2; basePath := base |} w
  = match Update ns {| lustreProcMetrics := ms1; basePath := base |} w with
    | (Ok _, w1) => Update ns {| lustreProcMetrics := ms2; basePath := base |} w1
    | (Err e, w1) => (Err e, w1)
    | (Crash p, w1) => (Crash p, w1)
    end.
Proof.
  unfold Update. cbn [lustreProcMetrics]. rewrite for_each_app.
  reflexivity.
Qed.

(** * The walk of the file system *)

(** ** The order of [sort.Strings] *)

Lemma string_compare_refl s : String.compare s s = Eq.
Proof.
  induction s as [|c s IH]; [done|]. simpl.
  unfold Ascii.compare. by rewrite N.compare_refl.
Qed.

Lemma string_compare_lt_trans s1 s2 s3 :
  String.compare s1 s2 = Lt → String.compare s2 s3 = Lt → String.compare s1 s3 = Lt.
Proof.
  revert s2 s3. induction s1 as [|a s1 IH]; intros [|b s2] [|d s3]; simpl;
    try congruence.
  unfold Ascii.compare.
  destruct (N.compare_spec (N_of_ascii a) (N_of_ascii b)) as [Hab|Hab|Hab];
    [| |discriminate];
    (destruct (N.compare_spec (N_of_ascii b) (N_of_ascii d)) as [Hbd|Hbd|Hbd];
     [| |discriminate]); intros H12 H23.
  - rewrite Hab, Hbd, N.compare_refl. by apply (IH s2).
  - assert ((N_of_ascii a ?= N_of_ascii d)%N = Lt) as ->; [|done].
    apply N.compare_lt_iff. lia.
  - assert ((N_of_ascii a ?= N_of_ascii d)%N = Lt) as ->; [|done].
    apply N.compare_lt_iff. lia.
  - assert ((N_of_ascii a ?= N_of_ascii d)%N = Lt) as ->; [|done].
    apply N.compare_lt_iff. lia.
Qed.

#[global] Instance string_le_trans : Transitive string_le.
Proof.
  intros s1 s2 s3. unfold string_le, String.leb.
  destruct (String.compare s1 s2) eqn:E12; [| |done];
    destruct (String.compare s2 s3) eqn:E23; try done; intros _ _.
  - apply String.compare_eq_iff in E12 as ->.
    apply String.compare_eq_iff in E23 as ->. by rewrite string_compare_refl.
  - apply String.compare_eq_iff in E12 as ->. by rewrite E23.
  - apply String.compare_eq_iff in E23 as ->. by rewrite E12.
  - by rewrite (string_compare_lt_trans _ _ _ E12 E23).
Qed.

#[global] Instance string_le_total : Total string_le.
Proof. intros s1 s2. apply String.leb_total. Qed.

#[global] Instance string_le_antisym : AntiSymm (=) string_le.
Proof. intros s1 s2. apply String.leb_antisym. Qed.

(** The sorted names depend on the names only, not on the order the
    directory lists them in. *)
Lemma sort_Strings_Permutation l1 l2 :
  l1 ≡ₚ l2 → sort_Strings l1 = sort_Strings l2.
Proof.
  intros Hp. unfold sort_Strings.
  apply (Sorted_unique string_le); try apply Sorted_merge_sort; try apply _.
  by rewrite !merge_sort_Permutation.
Qed.

(** ** [filepath.Glob] *)

Lemma glob_same a b dir file matches :
  same_state a b → Filepath.glob a dir file matches = Filepath.glob b dir file matches.
Proof.
  intros (_ & Hstat & Hopen & Hnames). unfold Filepath.glob.
  by rewrite Hstat, Hopen, (sort_Strings_Permutation _ _ (Hnames dir)).
Qed.

Lemma glob_dirs_same a b file m matches :
  same_state a b →
  Filepath.glob_dirs a file m matches = Filepath.glob_dirs b file m matches.
Proof.
  intros Hab. revert matches. induction m as [|d m IH]; intros matches; [done|].
  simpl. rewrite (glob_same a b) by done.
  destruct (Filepath.glob b d file matches); [done|]. apply IH.
Qed.

Lemma Glob_loop_same a b fuel pattern :
  same_state a b → Filepath.Glob_loop fuel a pattern = Filepath.Glob_loop fuel b pattern.
Proof.
  intros Hab. revert pattern. induction fuel as [|fuel IH]; intros pattern; [done|].
  simpl. destruct (Filepath.Match pattern ""); [done|].
  destruct (Filepath.hasMeta pattern); simpl.
  - destruct (Filepath.Split pattern) as [dir file].
    destruct (Filepath.hasMeta (Filepath.cleanGlobPath dir)); simpl.
    + destruct (String.eqb _ pattern); [done|].
      rewrite IH. destruct (Filepath.Glob_loop fuel b _); [done|].
      by apply glob_dirs_same.
    + by apply glob_same.
  - destruct Hab as (Hlstat & _). by rewrite Hlstat.
Qed.

Lemma Glob_same a b pattern :
  same_state a b → Filepath.Glob a pattern = Filepath.Glob b pattern.
Proof. apply Glob_loop_same. Qed.

(** *** The directory of a pattern *)

Lemma Split_app path dir file :
  Filepath.Split path = (dir, file) → path = dir +:+ file.
Proof.
  revert dir file. induction path as [|c path IH]; intros dir file; simpl.
  - by intros [= <- <-].
  - destruct (Filepath.Split path) as [d f]. specialize (IH d f eq_refl).
    destruct (String.eqb d "") eqn:Ed; simpl.
    + apply String.eqb_eq in Ed as ->. rewrite sapp_nil_l in IH. subst f.
      destruct (Ascii.eqb c Filepath.Separator); intros [= <- <-]; done.
    + intros [= <- <-]. by rewrite sapp_cons, <- IH.
Qed.


Lemma substring_0_length_le n (s : string) :
  String.length (substring 0 n s) = Nat.min n (String.length s).
Proof.
  revert s. induction n as [|n IH]; intros [|c s]; simpl; try done.
  by rewrite IH.
Qed.

Lemma any_byte_app P (a b : string) :
  Filepath.any_byte P (a +:+ b) = Filepath.any_byte P a || Filepath.any_byte P b.
Proof.
  induction a as [|c a IH]; [by rewrite sapp_nil_l|].
  rewrite sapp_cons. simpl. by rewrite IH, orb_assoc.
Qed.

Lemma substring_0_prefix n (s : string) :
  ∃ rest, s = substring 0 n s +:+ rest.
Proof.
  revert s. induction n as [|n IH]; intros [|c s]; simpl.
  - by exists "".
  - exists (String c s). by rewrite sapp_nil_l.
  - by exists "".
  - destruct (IH s) as [rest Hrest]. exists rest. by rewrite sapp_cons, <- Hrest.
Qed.

(** The directory [Glob] goes on with is shorter than the pattern when
    it holds a magic byte. *)
Lemma cleanGlobPath_shorter dir :
  Filepath.hasMeta (Filepath.cleanGlobPath dir) = true →
  String.length (Filepath.cleanGlobPath dir) < String.length dir.
Proof.
  unfold Filepath.cleanGlobPath.
  destruct (String.eqb dir "") eqn:E1; [done|].
  destruct (String.eqb dir "/") eqn:E2.
  { apply String.eqb_eq in E2 as ->. done. }
  intros _. rewrite substring_0_length_le.
  destruct dir; [done|]. simpl. lia.
Qed.

Lemma Split_length path dir file :
  Filepath.Split path = (dir, file) → String.length dir ≤ String.length path.
Proof.
  intros H. apply Split_app in H as ->. rewrite sapp_length. lia.
Qed.


(** The fuel of [Glob] is enough: more fuel changes nothing. *)
Lemma Glob_loop_fuel os n m pattern :
  String.length pattern < n → String.length pattern < m →
  Filepath.Glob_loop n os pattern = Filepath.Glob_loop m os pattern.
Proof.
  revert m pattern. induction n as [|n IH]; intros [|m] pattern Hn Hm; try lia.
  simpl. destruct (Filepath.Match pattern ""); [done|].
  destruct (Filepath.hasMeta pattern); simpl; [|done].
  destruct (Filepath.Split pattern) as [dir file] eqn:Es.
  destruct (Filepath.hasMeta (Filepath.cleanGlobPath dir)) eqn:Em; simpl; [|done].
  destruct (String.eqb _ pattern); [done|].
  apply cleanGlobPath_shorter in Em. apply Split_length in Es.
  by rewrite (IH m) by lia.
Qed.

Lemma Glob_unfold os pattern :
  Filepath.Glob os pattern
  = match Filepath.Match pattern "" with
    | inl e => inl e
    | inr _ =>
        if negb (Filepath.hasMeta pattern) then
          match os_Lstat os pattern with
          | Some _ => inr []
          | None => inr [pattern]
          end
        else
          let '(dir, file) := Filepath.Split pattern in
          let dir := Filepath.cleanGlobPath dir in
          if negb (Filepath.hasMeta dir) then Filepath.glob os dir file []
          else if String.eqb dir pattern then inl ErrBadPattern
          else match Filepath.Glob os dir with
               | inl e => inl e
               | inr m => Filepath.glob_dirs os file m []
               end
    end.
Proof.
  unfold Filepath.Glob at 1. simpl.
  destruct (Filepath.Match pattern ""); [done|].
  destruct (Filepath.hasMeta pattern); simpl; [|done].
  destruct (Filepath.Split pattern) as [dir file] eqn:Es.
  destruct (Filepath.hasMeta (Filepath.cleanGlobPath dir)) eqn:Em; simpl; [|done].
  destruct (String.eqb _ pattern); [done|].
  apply cleanGlobPath_shorter in Em. apply Split_length in Es.
  unfold Filepath.Glob. by rewrite (Glob_loop_fuel os _ (S (String.length (Filepath.cleanGlobPath dir)))) by lia.
Qed.

(** *** Patterns of literal bytes and stars never fail *)

Lemma plain_app (a b : string) :
  Filepath.plain (a +:+ b) = Filepath.plain a && Filepath.plain b.
Proof. unfold Filepath.plain. by rewrite any_byte_app, negb_orb. Qed.

Lemma plain_Split pattern dir file :
  Filepath.Split pattern = (dir, file) → Filepath.plain pattern = true →
  Filepath.plain dir = true ∧ Filepath.plain file = true.
Proof.
  intros Hs Hp. apply Split_app in Hs as ->. rewrite plain_app in Hp.
  by apply andb_prop in Hp.
Qed.

Lemma plain_cleanGlobPath dir :
  Filepath.plain dir = true → Filepath.plain (Filepath.cleanGlobPath dir) = true.
Proof.
  intros Hp. unfold Filepath.cleanGlobPath.
  destruct (String.eqb dir ""); [done|]. destruct (String.eqb dir "/"); [done|].
  destruct (substring_0_prefix (String.length dir - 1) dir) as [rest Hrest].
  rewrite Hrest, plain_app in Hp. by apply andb_prop in Hp as [? _].
Qed.

Lemma Match_plain pattern name :
  Filepath.plain pattern = true → ∃ b, Filepath.Match pattern name = inr b.
Proof. intros Hp. unfold Filepath.Match. rewrite Hp. by eexists. Qed.

Lemma glob_names_plain dir file names m :
  Filepath.plain file = true →
  ∃ added, Filepath.glob_names dir file names m = inr (m ++ added).
Proof.
  intros Hp. revert m. induction names as [|n names IH]; intros m;
    cbn [Filepath.glob_names].
  - exists []. by rewrite app_nil_r.
  - destruct (Match_plain file n Hp) as [b ->]. destruct b.
    + destruct (IH (m ++ [filepath_Join [dir; n]])) as [added ->].
      exists (filepath_Join [dir; n] :: added). by rewrite <- app_assoc.
    + apply IH.
Qed.

Lemma glob_plain os dir file matches :
  Filepath.plain file = true →
  ∃ added, Filepath.glob os dir file matches = inr (matches ++ added).
Proof.
  intros Hp. unfold Filepath.glob.
  destruct (os_Stat os dir) as [e|[]]; try (exists []; by rewrite app_nil_r).
  destruct (os_Open os dir); [exists []; by rewrite app_nil_r|].
  by apply glob_names_plain.
Qed.

Lemma glob_dirs_plain os file m matches :
  Filepath.plain file = true →
  ∃ added, Filepath.glob_dirs os file m matches = inr (matches ++ added).
Proof.
  intros Hp. revert matches. induction m as [|d m IH]; intros matches; simpl.
  - exists []. by rewrite app_nil_r.
  - destruct (glob_plain os d file matches Hp) as [a1 ->].
    destruct (IH (matches ++ a1)) as [a2 ->]. exists (a1 ++ a2).
    by rewrite app_assoc.
Qed.

Lemma Glob_plain os pattern :
  Filepath.plain pattern = true → ∃ paths, Filepath.Glob os pattern = inr paths.
Proof.
  remember (String.length pattern) as n eqn:Hn. revert pattern Hn.
  induction n as [n IH] using lt_wf_ind. intros pattern -> Hp.
  rewrite Glob_unfold. destruct (Match_plain pattern "" Hp) as [b ->].
  destruct (Filepath.hasMeta pattern); simpl.
  2:{ destruct (os_Lstat os pattern); by eexists. }
  destruct (Filepath.Split pattern) as [dir file] eqn:Es.
  destruct (plain_Split _ _ _ Es Hp) as [Hdir Hfile].
  destruct (Filepath.hasMeta (Filepath.cleanGlobPath dir)) eqn:Em; simpl.
  2:{ destruct (glob_plain os (Filepath.cleanGlobPath dir) file [] Hfile) as [a ->].
      by eexists. }
  pose proof (cleanGlobPath_shorter _ Em) as Hlt.
  pose proof (Split_length _ _ _ Es) as Hle.
  destruct (String.eqb _ pattern) eqn:Ee.
  { apply String.eqb_eq in Ee. rewrite Ee in Hlt. lia. }
  destruct (IH (String.length (Filepath.cleanGlobPath dir)) ltac:(lia)
              (Filepath.cleanGlobPath dir) eq_refl (plain_cleanGlobPath _ Hdir))
    as [m ->].
  destruct (glob_dirs_plain os file m [] Hfile) as [a ->]. by eexists.
Qed.

(** *** The paths of a rooted pattern are rooted *)










(** *** The fuel of [Match] is enough *)

Lemma skip_stars_length pattern :
  String.length (Filepath.skip_stars pattern).2 ≤ String.length pattern.
Proof.
  induction pattern as [|c pattern IH]; [done|]. simpl.
  destruct (Ascii.eqb c "*"); simpl; lia.
Qed.

Lemma skip_stars_star pattern :
  (Filepath.skip_stars pattern).1 = true →
  String.length (Filepath.skip_stars pattern).2 < String.length pattern.
Proof.
  destruct pattern as [|c pattern]; [done|]. simpl.
  destruct (Ascii.eqb c "*"); simpl; [|done].
  intros _. pose proof (skip_stars_length pattern). lia.
Qed.

Lemma until_star_length pattern :
  String.length (Filepath.until_star pattern).2 ≤ String.length pattern.
Proof.
  induction pattern as [|c pattern IH]; [done|]. simpl.
  destruct (Ascii.eqb c "*"); [done|].
  destruct (Filepath.until_star pattern). simpl in *. lia.
Qed.

Lemma until_star_chunk pattern :
  (Filepath.until_star pattern).1 ≠ "" →
  String.length (Filepath.until_star pattern).2 < String.length pattern.
Proof.
  destruct pattern as [|c pattern]; [done|]. simpl.
  destruct (Ascii.eqb c "*"); [done|].
  pose proof (until_star_length pattern).
  destruct (Filepath.until_star pattern). simpl in *. lia.
Qed.

Lemma skip_stars_no_star pattern :
  (Filepath.skip_stars pattern).1 = false →
  pattern ≠ "" → (Filepath.until_star (Filepath.skip_stars pattern).2).1 ≠ "".
Proof.
  destruct pattern as [|c pattern]; [done|]. simpl.
  destruct (Ascii.eqb c "*") eqn:E; [done|]. simpl. rewrite E.
  by destruct (Filepath.until_star pattern).
Qed.

(** Each round of [Match] leaves less of the pattern. *)
Lemma scanChunk_shorter pattern star chunk rest :
  pattern ≠ "" → Filepath.scanChunk pattern = (star, chunk, rest) →
  String.length rest < String.length pattern.
Proof.
  intros Hne. unfold Filepath.scanChunk.
  pose proof (skip_stars_length pattern) as H1.
  pose proof (skip_stars_star pattern) as H2.
  pose proof (skip_stars_no_star pattern) as H3.
  destruct (Filepath.skip_stars pattern) as [st p]. simpl in *.
  pose proof (until_star_length p) as H4.
  pose proof (until_star_chunk p) as H5.
  destruct (Filepath.until_star p) as [ch r]. simpl in *.
  intros [= <- <- <-].
  destruct st; [specialize (H2 eq_refl); lia|].
  specialize (H5 (H3 eq_refl Hne)). lia.
Qed.

Lemma Match_loop_fuel n m pattern name :
  String.length pattern ≤ n → String.length pattern ≤ m →
  Filepath.Match_loop n pattern name = Filepath.Match_loop m pattern name.
Proof.
  revert m pattern name. induction n as [|n IH]; intros m pattern name Hn Hm.
  { destruct pattern; [|simpl in Hn; lia]. by destruct m. }
  destruct m as [|m].
  { destruct pattern; [done|simpl in Hm; lia]. }
  simpl. destruct (String.eqb pattern "") eqn:Ee; [done|].
  apply String.eqb_neq in Ee.
  destruct (Filepath.scanChunk pattern) as [[star chunk] rest] eqn:Es.
  apply scanChunk_shorter in Es; [|done].
  destruct (star && String.eqb chunk ""); [done|].
  assert (∀ t, Filepath.Match_loop n rest t = Filepath.Match_loop m rest t) as Hr.
  { intros t. apply IH; lia. }
  destruct (Filepath.matchChunk chunk name) as [t|].
  - rewrite Hr. destruct (String.eqb t "" || negb (String.eqb rest "")); [done|].
    destruct star; [|done].
    destruct (Filepath.star_skip chunk (String.eqb rest "") name); [apply Hr|done].
  - destruct star; [|done].
    destruct (Filepath.star_skip chunk (String.eqb rest "") name); [apply Hr|done].
Qed.

(** ** The paths of the registry *)

Lemma same_state_listed order os :
  (∀ names, order names ≡ₚ names) → same_state os (listed order os).
Proof.
  intros Horder. repeat split; try done. intros p. simpl. by rewrite Horder.
Qed.

(** The patterns of the registry are rooted and made of literal bytes
    and stars. *)
Lemma NewLustreSource_patterns :
  rooted (basePath NewLustreSource.1) = true
  ∧ Forall (λ metric, Filepath.plain (glob_pattern NewLustreSource.1 metric) = true)
      (lustreProcMetrics NewLustreSource.1).
Proof.
  split; [done|]. apply Forall_forall. intros metric Hm.
  assert (forallb (λ metric, Filepath.plain (glob_pattern NewLustreSource.1 metric))
            (lustreProcMetrics NewLustreSource.1) = true) as H
    by (vm_compute; reflexivity).
  rewrite forallb_forall in H. apply H. by apply list_elem_of_In.
Qed.

Lemma resolve_os s metric os read sent :
  resolve s metric {| fs := os_fs os read; ch := sent |}
  = (of_sum (Filepath.Glob os (glob_pattern s metric)),
     {| fs := os_fs os read; ch := sent |}).
Proof. done. Qed.

(** ** C9: resolving twice *)

(** C9. Take one state of the file system, seen through [a] at the
    first resolution and through [b] at the second: the calls answer the
    same both times and every directory holds the same names, which it
    may list in another order the second time.  Then the two
    resolutions of a descriptor return the same paths in the same
    order, whatever was sent in between, and leave the world as it is.
    [Glob] sorts the names of each directory it reads, which is what
    makes the order of the paths that of the names and not that of the
    directory.  The pattern is one of literal bytes and stars, as the
    patterns of the registry are ([NewLustreSource_patterns]). *)
Theorem resolve_twice s metric a b read_a read_b sent_a sent_b :
  Filepath.plain (glob_pattern s metric) = true →
  same_state a b →
  ∃ paths,
    resolve s metric {| fs := os_fs a read_a; ch := sent_a |}
    = (Ok paths, {| fs := os_fs a read_a; ch := sent_a |})
    ∧ resolve s metric {| fs := os_fs b read_b; ch := sent_b |}
      = (Ok paths, {| fs := os_fs b read_b; ch := sent_b |}).
Proof.
  intros Hplain Hab. rewrite !resolve_os.
  rewrite <- (Glob_same a b _ Hab).
  destruct (Glob_plain a _ Hplain) as [paths ->]. by exists paths.
Qed.

Lemma resolve_twice_witness :
  ∃ paths,
    resolve oss_source kbytesfree
      {| fs := os_fs (tree_os obdfilter_dirs ∅) (ReadFile three_targets); ch := [] |}
    = (Ok paths,
       {| fs := os_fs (tree_os obdfilter_dirs ∅) (ReadFile three_targets); ch := [] |})
    ∧ resolve oss_source kbytesfree
        {| fs := os_fs (listed (@rev string) (tree_os obdfilter_dirs ∅))
                   (ReadFile three_targets);
           ch := [constMetric "lustre" oss_source "OSS" "ost1" "kbytesfree"
                    "Number of kilobytes allocated to the pool" 11] |}
      = (Ok paths,
         {| fs := os_fs (listed (@rev string) (tree_os obdfilter_dirs ∅))
                    (ReadFile three_targets);
            ch := [constMetric "lustre" oss_source "OSS" "ost1" "kbytesfree"
                     "Number of kilobytes allocated to the pool" 11] |}).
Proof.
  apply (resolve_twice oss_source kbytesfree (tree_os obdfilter_dirs ∅)
           (listed (@rev string) (tree_os obdfilter_dirs ∅))).
  - vm_compute. reflexivity.
  - apply same_state_listed. intros names. symmetry. apply Permutation_rev.
Defined.

(** ** C1: the components of a resolved path *)



(** ** C5: what resolution does with a failure of the walk *)

Lemma Update_path_single ns s metric p elems nodeName leaf w content v :
  String.eqb (name metric) "stats" = false →
  strings_Split p "/" = elems ++ [nodeName; leaf] →
  ReadFile (fs w) p = inr content →
  strconv_ParseUint (strings_TrimSpace content) = inr v →
  Update_path ns s metric p w
  = (Ok tt,
     {| fs := fs w;
        ch := ch w ++ [constMetric ns s (source metric) nodeName leaf
                         (helpText metric) v] |}).
Proof.
  intros Hname Hsplit Hfile Hv. unfold Update_path. rewrite Hname.
  rewrite (parseFile_components _ _ _ _ _ _ _ _ _ _ Hsplit).
  change (String.eqb "single" "single") with true. cbv iota.
  unfold bind, ioutil_ReadFile. rewrite Hfile. cbn [of_sum].
  unfold lift. by rewrite Hv.
Qed.

(** C5, as stated, fails.  The directory of the second target cannot
    be examined (permission denied), a failure of the walk that is not
    the absence of a match.  Resolution does not fail: [Glob] passes
    the directory over and returns the paths of the two other targets.
    The scrape returns no error either and sends the metrics of these
    two targets; the failure cannot be told apart from a target that
    is not there. *)
Lemma walk_failure_is_passed_over :
  os_Stat ost2_denied "/proc/fs/lustre/obdfilter/ost2"
  = inl (PathError "stat" "/proc/fs/lustre/obdfilter/ost2" "permission denied")
  ∧ resolve oss_source kbytesfree
      {| fs := os_fs ost2_denied (ReadFile three_targets); ch := [] |}
    = (Ok ["/proc/fs/lustre/obdfilter/ost1/kbytesfree";
           "/proc/fs/lustre/obdfilter/ost3/kbytesfree"],
       {| fs := os_fs ost2_denied (ReadFile three_targets); ch := [] |})
  ∧ Update "lustre" oss_source
      {| fs := os_fs ost2_denied (ReadFile three_targets); ch := [] |}
    = (Ok tt,
       {| fs := os_fs ost2_denied (ReadFile three_targets);
          ch := [constMetric "lustre" oss_source "OSS" "ost1" "kbytesfree"
                   "Number of kilobytes allocated to the pool" 11;
                 constMetric "lustre" oss_source "OSS" "ost3" "kbytesfree"
                   "Number of kilobytes allocated to the pool" 33] |}).
Proof.
  assert (Filepath.Glob ost2_denied (glob_pattern oss_source kbytesfree)
          = inr ["/proc/fs/lustre/obdfilter/ost1/kbytesfree";
                 "/proc/fs/lustre/obdfilter/ost3/kbytesfree"]) as Hglob
    by (vm_compute; reflexivity).
  split; [vm_compute; reflexivity|]. split.
  { rewrite resolve_os, Hglob. reflexivity. }
  rewrite (Update_at "lustre" oss_source [] kbytesfree []
             {| fs := os_fs ost2_denied (ReadFile three_targets); ch := [] |}
             {| fs := os_fs ost2_denied (ReadFile three_targets); ch := [] |}
             eq_refl eq_refl).
  rewrite (Update_metric_paths "lustre" oss_source kbytesfree
             {| fs := os_fs ost2_denied (ReadFile three_targets); ch := [] |}
             _ Hglob).
  cbn [for_each]. unfold bind at 1.
  rewrite (Update_path_single "lustre" oss_source kbytesfree
             "/proc/fs/lustre/obdfilter/ost1/kbytesfree"
             [""; "proc"; "fs"; "lustre"; "obdfilter"] "ost1" "kbytesfree" _
             ("11" +:+ nl) 11)
    by (vm_compute; reflexivity).
  unfold bind at 1.
  rewrite (Update_path_single "lustre" oss_source kbytesfree
             "/proc/fs/lustre/obdfilter/ost3/kbytesfree"
             [""; "proc"; "fs"; "lustre"; "obdfilter"] "ost3" "kbytesfree" _
             ("33" +:+ nl) 33)
    by (vm_compute; reflexivity).
  reflexivity.
Qed.

Lemma for_each_fs {A} (l : list A) (body : A → M unit) w r w' :
  (∀ x, sends_only (body x)) → for_each l body w = (r, w') → fs w' = fs w.
Proof.
  intros Hbody. destruct (sends_only_for_each l body Hbody w) as (r' & sent & ->).
  by intros [= _ <-].
Qed.

(** C5, amended.  Let the scrape have reached the descriptor [m] in
    the world [w1].  If resolution finds no path, [m] is passed over:
    nothing is sent, no error is returned and the scrape goes on with
    the next descriptor.  If resolution returns an error, [Update]
    returns that error and stops.  A failure of the walk is no such
    error: over any answers of [os.Lstat], [os.Stat], [os.Open] and
    [Readdirnames], [Glob] returns paths, maybe none, for every pattern
    of literal bytes and stars, as the patterns of the registry are, and
    a directory that cannot be examined or opened adds no path. *)
Theorem Update_resolution_walk ns s ms1 m ms2 w w1 :
  lustreProcMetrics s = ms1 ++ m :: ms2 →
  for_each ms1 (Update_metric ns s) w = (Ok tt, w1) →
  (Glob (fs w1) (glob_pattern s m) = inr [] →
   Update_metric ns s m w1 = (Ok tt, w1)
   ∧ Update ns s w = for_each ms2 (Update_metric ns s) w1)
  ∧ (∀ e, Glob (fs w1) (glob_pattern s m) = inl e →
          Update ns s w = (Err e, w1))
  ∧ (∀ os read, fs w = os_fs os read →
       Filepath.plain (glob_pattern s m) = true →
       (∃ paths, Glob (fs w1) (glob_pattern s m) = inr paths)
       ∧ ∀ dir file matches,
           (∃ e, os_Stat os dir = inl e) ∨ (∃ e, os_Open os dir = Some e) →
           Filepath.glob os dir file matches = inr matches).
Proof.
  intros Hs H1. split; [|split].
  - intros Hglob. rewrite (Update_at _ _ _ _ _ _ _ Hs H1).
    by rewrite (Update_metric_paths _ _ _ _ _ Hglob).
  - intros e Hglob. rewrite (Update_at _ _ _ _ _ _ _ Hs H1).
    by rewrite (Update_metric_error _ _ _ _ _ Hglob).
  - intros os read Hfs Hplain.
    rewrite (for_each_fs _ _ _ _ _ (Update_metric_sends ns s) H1), Hfs.
    split; [apply (Glob_plain os _ Hplain)|].
    intros dir file matches [[e He]|[e He]]; unfold Filepath.glob.
    + by rewrite He.
    + rewrite He. by destruct (os_Stat os dir) as [?|[]].
Qed.

Lemma Update_resolution_walk_witness :
  (Update_metric "lustre" oss_source kbytesfree {| fs := no_target; ch := [] |}
   = (Ok tt, {| fs := no_target; ch := [] |})
   ∧ Update "lustre" oss_source {| fs := no_target; ch := [] |}
     = for_each [] (Update_metric "lustre" oss_source) {| fs := no_target; ch := [] |})
  ∧ Update "lustre" bad_pattern_source {| fs := bad_pattern_fs; ch := [] |}
    = (Err ErrBadPattern, {| fs := bad_pattern_fs; ch := [] |})
  ∧ (∃ paths,
       Glob (os_fs ost2_denied (ReadFile three_targets))
         (glob_pattern oss_source kbytesfree) = inr paths)
  ∧ Filepath.glob ost2_denied "/proc/fs/lustre/obdfilter/ost2" "kbytesfree"
      ["/proc/fs/lustre/obdfilter/ost1/kbytesfree"]
    = inr ["/proc/fs/lustre/obdfilter/ost1/kbytesfree"].
Proof.
  split; [|split].
  - apply (Update_resolution_walk "lustre" oss_source [] kbytesfree []
             {| fs := no_target; ch := [] |} {| fs := no_target; ch := [] |});
      vm_compute; reflexivity.
  - apply (Update_resolution_walk "lustre" bad_pattern_source []
             (newLustreProcMetric "stats" "OSS" "obdfilter/["
                "A collection of statistics specific to Lustre") []
             {| fs := bad_pattern_fs; ch := [] |}
             {| fs := bad_pattern_fs; ch := [] |});
      vm_compute; reflexivity.
  - destruct (Update_resolution_walk "lustre" oss_source [] kbytesfree []
                {| fs := os_fs ost2_denied (ReadFile three_targets); ch := [] |}
                {| fs := os_fs ost2_denied (ReadFile three_targets); ch := [] |}
                eq_refl eq_refl) as (_ & _ & Hwalk).
    destruct (Hwalk ost2_denied (ReadFile three_targets) eq_refl eq_refl)
      as [Hpaths Hglob].
    split; [exact Hpaths|]. apply Hglob. left. by eexists.
Defined.

(** * Panics and single lines *)

(** ** C3: a path that fails to parse by a panic *)

Lemma parseReadWriteBytes_cut_short :
  parseReadWriteBytes "read_bytes .*" "read_bytes 3 samples"
  = Crash (IndexOutOfRange 4 3).
Proof. vm_compute. reflexivity. Qed.

Lemma parseFile_stats_panic s nodeType path helpText (handler : Handler)
    elems nodeName leaf w statsFile c :
  strings_Split path "/" = elems ++ [nodeName; leaf] →
  ReadFile (fs w) path = inr statsFile →
  parseReadWriteBytes "read_bytes .*" statsFile = Crash c →
  parseFile s nodeType "stats" path helpText handler w = (Crash c, w).
Proof.
  intros Hsplit Hfile Hread.
  rewrite (parseFile_components _ _ _ _ _ _ _ _ _ _ Hsplit).
  change (String.eqb "stats" "single") with false.
  change (String.eqb "stats" "stats") with true. cbv iota.
  unfold bind at 1, parseStatsFile, bind at 1, ioutil_ReadFile.
  rewrite Hfile. cbn [of_sum]. unfold bind at 1, lift. by rewrite Hread.
Qed.

(** C3.  The claim: when a matched path fails to parse, the scrape
    returns an error and the paths after it send nothing.  What the
    code does when the failure is a line cut short: of three targets
    with statistics, the second holds [read_bytes 3 samples].  Parsing
    it panics on the missing field ([parseReadWriteBytes] does not
    look at the number of fields), and the panic unwinds [Update]: the
    third target sends nothing, as the claim says, but the scrape
    returns no error.  What was sent before stays sent. *)
Theorem Update_cut_short_line ns before :
  ∃ sent,
    Update ns stats_source {| fs := three_stats_targets; ch := before |}
    = (Crash (IndexOutOfRange 4 3),
       {| fs := three_stats_targets; ch := before ++ sent |})
    ∧ sent ≡ₚ observations ns stats_source "OSS" "ost1" Read 3 10 100 150
    ∧ ∀ e w', Update ns stats_source {| fs := three_stats_targets; ch := before |}
              ≠ (Err e, w').
Proof.
  assert (Update ns stats_source {| fs := three_stats_targets; ch := before |}
          = (Crash (IndexOutOfRange 4 3),
             {| fs := three_stats_targets;
                ch := before ++ observations ns stats_source "OSS" "ost1" Read 3 10 100 150 |}))
    as Hrun.
  { rewrite (Update_at ns stats_source [] stats_metric []
               {| fs := three_stats_targets; ch := before |}
               {| fs := three_stats_targets; ch := before |} eq_refl eq_refl).
    rewrite (Update_metric_paths ns stats_source stats_metric
               {| fs := three_stats_targets; ch := before |}
               ["/proc/fs/lustre/obdfilter/ost1/stats";
                "/proc/fs/lustre/obdfilter/ost2/stats";
                "/proc/fs/lustre/obdfilter/ost3/stats"])
      by (vm_compute; reflexivity).
    cbn [for_each]. unfold bind at 1.
    assert (Update_path ns stats_source stats_metric
              "/proc/fs/lustre/obdfilter/ost1/stats"
              {| fs := three_stats_targets; ch := before |}
            = (Ok tt,
               {| fs := three_stats_targets;
                  ch := before ++ observations ns stats_source "OSS" "ost1" Read 3 10 100 150 |}))
      as ->.
    { unfold Update_path. change (String.eqb (name stats_metric) "stats") with true.
      cbv iota.
      rewrite (parseFile_stats ns stats_source _ _ _
                 [""; "proc"; "fs"; "lustre"; "obdfilter"] "ost1" "stats" _
                 read_only_blob (statistics 3 10 100 150) ∅);
        [| vm_compute; reflexivity | vm_compute; reflexivity
         | eapply (parseReadWriteBytes_fields Read);
             [vm_compute; reflexivity | done | vm_compute; reflexivity..]
         | apply parseReadWriteBytes_absent; vm_compute; reflexivity].
      unfold bind. rewrite emit_direction_empty, emit_direction_statistics.
      reflexivity. }
    unfold bind at 1.
    assert (Update_path ns stats_source stats_metric
              "/proc/fs/lustre/obdfilter/ost2/stats"
              {| fs := three_stats_targets;
                 ch := before ++ observations ns stats_source "OSS" "ost1" Read 3 10 100 150 |}
            = (Crash (IndexOutOfRange 4 3),
               {| fs := three_stats_targets;
                  ch := before ++ observations ns stats_source "OSS" "ost1" Read 3 10 100 150 |}))
      as ->; [|reflexivity].
    unfold Update_path. change (String.eqb (name stats_metric) "stats") with true.
    cbv iota.
    apply (parseFile_stats_panic _ _ _ _ _
             [""; "proc"; "fs"; "lustre"; "obdfilter"] "ost2" "stats" _
             "read_bytes 3 samples");
      [vm_compute; reflexivity | vm_compute; reflexivity
      | apply parseReadWriteBytes_cut_short]. }
  eexists. split; [exact Hrun|]. split; [done|].
  intros e w'. rewrite Hrun. discriminate.
Qed.

(** ** C8: a blob with the line of one direction *)

(** C8, as stated, fails.  The file [hidden_write_blob] holds a line
    [read_bytes] and no line that starts with [write_bytes]: the token
    of the write direction stands inside its second line.  The pattern
    is not anchored to the start of a line, so the second line is read
    for the write direction, and the four metrics of that direction are
    sent with the four of the read direction. *)
Lemma token_inside_line_adds_a_direction :
  lines_with_prefix (word Read) hidden_write_blob
  = ["read_bytes 3 samples [bytes] 10 100 150"]
  ∧ lines_with_prefix (word Write) hidden_write_blob = []
  ∧ ∃ sent,
      parseFile oss_source "OSS" "stats" "/proc/fs/lustre/obdfilter/ost1/stats"
        "A collection of statistics specific to Lustre" (emit "lustre" oss_source)
        {| fs := table_fs ∅ {[ "/proc/fs/lustre/obdfilter/ost1/stats" := hidden_write_blob ]};
           ch := [] |}
      = (Ok tt,
         {| fs := table_fs ∅ {[ "/proc/fs/lustre/obdfilter/ost1/stats" := hidden_write_blob ]};
            ch := sent |})
      ∧ sent ≡ₚ observations "lustre" oss_source "OSS" "ost1" Read 3 10 100 150
                ++ observations "lustre" oss_source "OSS" "ost1" Write 2 5 50 55.
Proof.
  split; [by vm_compute|]. split; [by vm_compute|].
  rewrite (parseFile_stats "lustre" oss_source "OSS"
             "/proc/fs/lustre/obdfilter/ost1/stats" _
             [""; "proc"; "fs"; "lustre"; "obdfilter"] "ost1" "stats" _
             hidden_write_blob (statistics 3 10 100 150) (statistics 2 5 50 55));
    [| vm_compute; reflexivity | vm_compute; reflexivity
     | eapply (parseReadWriteBytes_fields Read);
         [vm_compute; reflexivity | done | vm_compute; reflexivity..]
     | eapply (parseReadWriteBytes_fields Write);
         [vm_compute; reflexivity | done | vm_compute; reflexivity..] ].
  unfold bind. rewrite !emit_direction_statistics. cbn [fs ch].
  eexists. split; [reflexivity|].
  apply (Permutation_app_comm [_; _; _; _] [_; _; _; _]).
Qed.

(** C8, amended.  Let the file hold a line of the direction [d], from
    the leftmost occurrence of the token of [d] to the end of its line:
    seven fields or more, separated by runs of spaces, of which the
    fields 1, 4, 5 and 6 are decimal numbers that fit in 64 bits.  Let
    the token of the other direction occur nowhere in the file, inside
    a line no more than at the start of one.  Then [parseFile] succeeds
    and sends the four metrics of [d], with the numbers of the line,
    and nothing else.  The statement is for either direction. *)
Theorem parseFile_stats_one_line ns s nodeType dir node leaf helpText w statsFile
    d line n1 n4 n5 n6 :
  no_slash node = true → no_slash leaf = true →
  ReadFile (fs w) (dir +:+ "/" +:+ node +:+ "/" +:+ leaf) = inr statsFile →
  blob_line d line n1 n4 n5 n6 → holds_line d statsFile line →
  forallb is_uint64 [n1; n4; n5; n6] = true →
  occurs (token (other d)) statsFile = false →
  ∃ sent,
    parseFile s nodeType "stats" (dir +:+ "/" +:+ node +:+ "/" +:+ leaf)
      helpText (emit ns s) w
    = (Ok tt, {| fs := fs w; ch := ch w ++ sent |})
    ∧ sent ≡ₚ observations ns s nodeType node d
                (decimal n1) (decimal n4) (decimal n5) (decimal n6).
Proof.
  intros Hnode Hleaf Hfile Hblob Hholds Hnum Hother.
  cbn [forallb] in Hnum.
  repeat (apply andb_prop in Hnum as [? Hnum]).
  pose proof (parseReadWriteBytes_line_ok _ _ _ _ _ _ _ Hblob Hholds
                ltac:(done) ltac:(done) ltac:(done) ltac:(done)) as Hd.
  apply parseReadWriteBytes_absent in Hother.
  pose proof (strings_Split_path dir node leaf Hnode Hleaf) as Hsplit.
  destruct d; cbn [other] in Hother.
  - rewrite (parseFile_stats _ _ _ _ _ _ _ _ _ _ _ _ Hsplit Hfile Hd Hother).
    unfold bind. rewrite emit_direction_empty, emit_direction_statistics.
    by eexists.
  - rewrite (parseFile_stats _ _ _ _ _ _ _ _ _ _ _ _ Hsplit Hfile Hother Hd).
    unfold bind. rewrite emit_direction_statistics, emit_direction_empty.
    by eexists.
Qed.

Lemma parseFile_stats_one_line_witness :
  ∃ sent,
    parseFile oss_source "OSS" "stats"
      ("/proc/fs/lustre/obdfilter" +:+ "/" +:+ "ost1" +:+ "/" +:+ "stats")
      "A collection of statistics specific to Lustre" (emit "lustre" oss_source)
      {| fs := table_fs ∅ {[ ost1_stats := read_only_blob ]}; ch := [] |}
    = (Ok tt,
       {| fs := fs {| fs := table_fs ∅ {[ ost1_stats := read_only_blob ]}; ch := [] |};
          ch := ch {| fs := table_fs ∅ {[ ost1_stats := read_only_blob ]}; ch := [] |}
                ++ sent |})
    ∧ sent ≡ₚ observations "lustre" oss_source "OSS" "ost1" Read
                (decimal "3") (decimal "10") (decimal "100") (decimal "150").
Proof.
  apply (parseFile_stats_one_line "lustre" oss_source "OSS"
           "/proc/fs/lustre/obdfilter" "ost1" "stats"
           "A collection of statistics specific to Lustre"
           {| fs := table_fs ∅ {[ ost1_stats := read_only_blob ]}; ch := [] |}
           read_only_blob Read
           "read_bytes 3 samples [bytes] 10 100 150" "3" "10" "100" "150").
  - vm_compute. reflexivity.
  - vm_compute. reflexivity.
  - vm_compute. reflexivity.
  - exists " ", " ", "samples", " ", "[bytes]", " ", " ", " ", [].
    vm_compute. repeat split; reflexivity.
  - exists ("snapshot_time 1500000000.123456 secs.usecs" +:+ nl), nl.
    split; [vm_compute; reflexivity|]. split; [vm_compute; reflexivity|].
    right. exists "". reflexivity.
  - vm_compute. reflexivity.
  - vm_compute. reflexivity.
Defined.
